(** * The sandbox runtime's Linux policy compiler: a shallow embedding

    The development follows [src/sandbox/linux-sandbox-utils.ts].  Strings
    are Rocq strings; the argument vector handed to the sandbox tool is a
    list of directives, one constructor per flag, which [renderArgs] turns
    into the flat vector of the source; the host (file system, [PATH], the
    scanner, the quoting primitive) is the interface [Host] over an abstract
    world [W]; the functions the file imports from its sibling modules are
    the interface [Siblings]; and the three module-level variables of the
    source ([bwrapMountPoints], [generatedSeccompFilters],
    [exitHandlerRegistered]) are fields of the process state [Proc], which
    every effectful function threads through a small state-and-error monad.
    Debug logging is left out.

    A concrete POSIX-like host ([Posix]) and the scenarios of the
    specification ([Scenario]) serve the examples.  The macOS profile, whose
    source is not at hand, is modelled from the specification ([MacOS]). *)

From Stdlib Require Import String Ascii List Bool Arith Lia NArith ZArith ListSet DecimalString DecimalNat.
Import ListNotations.

Local Open Scope string_scope.
Local Open Scope list_scope.

Infix "+++" := String.append (right associativity, at level 60).

(** ** JavaScript string primitives used by the source *)

Module Js.

(** [s.startsWith(pre)] *)
Definition startsWith (s pre : string) : bool := String.prefix pre s.

(** [s.includes(sub)] *)
Definition includes (s sub : string) : bool :=
  match String.index 0 sub s with Some _ => true | None => false end.

(** [s.split('/')]: the empty string splits into one empty part. *)
Fixpoint split (s : string) : list string :=
  match s with
  | EmptyString => [EmptyString]
  | String c r =>
      if Ascii.eqb c "/" then EmptyString :: split r
      else match split r with
           | h :: t => String c h :: t
           | [] => [String c EmptyString]
           end
  end.

(** [parts.join('/')] *)
Definition join (parts : list string) : string := String.concat "/" parts.

(** [s.replace(/\/+$/, '')]: drop every trailing slash. *)
Fixpoint trimTrailingSlashes (s : string) : string :=
  match s with
  | EmptyString => EmptyString
  | String c r =>
      match trimTrailingSlashes r with
      | EmptyString => if Ascii.eqb c "/" then EmptyString else String c EmptyString
      | r' => String c r'
      end
  end.

(** [s.endsWith('/')] *)
Fixpoint endsWithSlash (s : string) : bool :=
  match s with
  | EmptyString => false
  | String c EmptyString => Ascii.eqb c "/"
  | String _ r => endsWithSlash r
  end.

(** ASCII lower-casing, [s.toLowerCase()] on the paths met here. *)
Definition lowerAscii (c : ascii) : ascii :=
  let n := nat_of_ascii c in
  if ((65 <=? n)%nat && (n <=? 90)%nat)%bool then ascii_of_nat (n + 32) else c.

Fixpoint toLowerCase (s : string) : string :=
  match s with
  | EmptyString => EmptyString
  | String c r => String (lowerAscii c) (toLowerCase r)
  end.

End Js.

(** ** The POSIX flavour of Node's [path] module *)

Module Path.

Definition sep : string := "/".

Definition isAbsolute (p : string) : bool := Js.startsWith p "/".

(** [normalizeString]: resolve [.] and [..] over the parts, the stack kept
    reversed.  [allowAboveRoot] keeps leading [..] of a relative path. *)
Fixpoint normalizeParts (allowAboveRoot : bool) (parts stack : list string)
  : list string :=
  match parts with
  | [] => rev stack
  | part :: rest =>
      if (part =? EmptyString) || (part =? ".") then
        normalizeParts allowAboveRoot rest stack
      else if part =? ".." then
        match stack with
        | top :: below =>
            if top =? ".." then normalizeParts allowAboveRoot rest (part :: stack)
            else normalizeParts allowAboveRoot rest below
        | [] =>
            if allowAboveRoot then normalizeParts allowAboveRoot rest [part]
            else normalizeParts allowAboveRoot rest []
        end
      else normalizeParts allowAboveRoot rest (part :: stack)
  end.

(** [path.normalize] *)
Definition normalize (p : string) : string :=
  if p =? EmptyString then "."
  else
    let abs := isAbsolute p in
    let trailing := Js.endsWithSlash p in
    let body := Js.join (normalizeParts (negb abs) (Js.split p) []) in
    if body =? EmptyString then
      (if abs then "/" else if trailing then "./" else ".")
    else
      let body' := if trailing then body +++ "/" else body in
      if abs then "/" +++ body' else body'.

(** [path.join(a, b)] *)
Definition join (a b : string) : string :=
  if a =? EmptyString then normalize b
  else if b =? EmptyString then normalize a
  else normalize (a +++ "/" +++ b).

(** [path.resolve(from, to)] for an absolute [from] (the working
    directory): an absolute [to] wins, the result has no trailing slash. *)
Definition resolve (from to : string) : string :=
  let full := if isAbsolute to then to else from +++ "/" +++ to in
  "/" +++ Js.join (normalizeParts false (Js.split full) []).

(** [path.dirname]: scan from the end, skip the trailing slashes and the
    last part, cut at the slash before it (index 0 is never looked at). *)
Fixpoint dropSlashes (l : list ascii) : list ascii :=
  match l with
  | c :: r => if Ascii.eqb c "/" then dropSlashes r else l
  | [] => []
  end.

Fixpoint dropPart (l : list ascii) : list ascii :=
  match l with
  | c :: r => if Ascii.eqb c "/" then l else dropPart r
  | [] => []
  end.

Definition dirname (p : string) : string :=
  match list_ascii_of_string p with
  | [] => "."
  | c0 :: tl =>
      let hasRoot := Ascii.eqb c0 "/" in
      match dropPart (dropSlashes (rev tl)) with
      | [] => if hasRoot then "/" else "."
      | _ :: before =>
          match before with
          | [] => if hasRoot then "//" else String c0 EmptyString
          | _ => string_of_list_ascii (c0 :: rev before)
          end
      end
  end.

End Path.

(** ** The host

    What [fs.Stats] tells the source: the kind of the entry and its size. *)

Inductive FileKind := KFile | KDirectory | KSymlink | KOther.

Record Stats := mkStats { kind : FileKind; size : N }.

Definition isFile (st : Stats) : bool :=
  match kind st with KFile => true | _ => false end.

Definition isDirectory (st : Stats) : bool :=
  match kind st with KDirectory => true | _ => false end.

Definition isSymbolicLink (st : Stats) : bool :=
  match kind st with KSymlink => true | _ => false end.

Record RipgrepConfig := mkRipgrepConfig {
  rgCommand : string;
  rgArgs : option (list string)
}.

(** Node's [fs], [os], [process], the [which] lookup, the [ripGrep] wrapper
    and [shell-quote].  A call that can throw returns an [option]; a call
    that changes the file system returns the new world. *)
Class Host (W : Type) := {
  statSync : W -> string -> option Stats;
  lstatSync : W -> string -> option Stats;
  realpathSync : W -> string -> option string;
  readdirSync : W -> string -> option (list string);
  unlinkSync : W -> string -> option W;
  rmdirSync : W -> string -> option W;
  mkdtempSync : W -> string -> option (string * W);
  cwd : W -> string;
  tmpdir : W -> string;
  whichSync : W -> string -> option string;
  ripGrep : W -> list string -> string -> RipgrepConfig -> option (list string);
  quote : list string -> string
}.

(** The two sibling modules the file imports, [sandbox-utils.js] and
    [generate-seccomp-filter.js]: their functions are taken as they are
    called. *)
Class Siblings (W : Type) := {
  normalizePathForSandbox : W -> string -> string;
  normalizeCaseForComparison : string -> string;
  isSymlinkOutsideBoundary : string -> string -> bool;
  DANGEROUS_FILES : list string;
  getDangerousDirectories : list string;
  generateProxyEnvVars : nat -> nat -> list string;
  generateSeccompFilter : W -> option string -> option string * W;
  getApplySeccompBinaryPath : W -> option string -> option string;
  cleanupSeccompFilter : W -> string -> option W
}.

(** [fs.existsSync] never throws and follows symbolic links: it answers
    [true] exactly when [stat] succeeds. *)
Definition existsSync {W} `{Host W} (w : W) (p : string) : bool :=
  match statSync w p with Some _ => true | None => false end.

(** A JavaScript [Set<string>] iterates in insertion order; [add] of a
    member changes nothing. *)
Definition setAdd (x : string) (s : list string) : list string :=
  set_add string_dec x s.

Definition setDelete (x : string) (s : list string) : list string :=
  set_remove string_dec x s.

(** [[...new Set(xs)]]: the first occurrence of every element, in order. *)
Fixpoint dedupe (seen xs : list string) : list string :=
  match xs with
  | [] => []
  | x :: r =>
      if existsb (String.eqb x) seen then dedupe seen r
      else x :: dedupe (x :: seen) r
  end.

(** A string or [null]/[undefined] used as a condition: the empty string
    is falsy too. *)
Definition truthy (o : option string) : bool :=
  match o with Some s => negb (s =? EmptyString) | None => false end.

(** [String(n)] for a natural number. *)
Definition stringOfNat (n : nat) : string :=
  DecimalString.NilEmpty.string_of_uint (Nat.to_uint n).

(** ** Process state and results *)

Record Proc (W : Type) := mkProc {
  world : W;
  bwrapMountPoints : list string;
  generatedSeccompFilters : list string;
  exitHandlerRegistered : bool
}.

Arguments mkProc {W}.
Arguments world {W}.
Arguments bwrapMountPoints {W}.
Arguments generatedSeccompFilters {W}.
Arguments exitHandlerRegistered {W}.

Definition setWorld {W} (w : W) (st : Proc W) : Proc W :=
  mkProc w (bwrapMountPoints st) (generatedSeccompFilters st) (exitHandlerRegistered st).

Inductive Error :=
| ShellNotFound (shellName : string)
| HttpBridgeSocketMissing (p : string)
| SocksBridgeSocketMissing (p : string)
| ApplySeccompNotFound
| HostFailure (call : string).

(** The three ways a call can end: a value, a thrown error, or a loop that
    never exits. *)
Inductive Result (A : Type) :=
| Ok (a : A)
| Throw (e : Error)
| Diverge.

Arguments Ok {A}.
Arguments Throw {A}.
Arguments Diverge {A}.

Definition M (W A : Type) : Type := Proc W -> Result A * Proc W.

Definition ret {W A} (a : A) : M W A := fun st => (Ok a, st).

Definition bind {W A B} (m : M W A) (k : A -> M W B) : M W B :=
  fun st =>
    match m st with
    | (Ok a, st') => k a st'
    | (Throw e, st') => (Throw e, st')
    | (Diverge, st') => (Diverge, st')
    end.

Notation "x <- m ;; k" := (bind m (fun x => k))
  (at level 61, m at next level, right associativity).

(** [try { m } catch (e) { h e }] *)
Definition tryCatch {W A} (m : M W A) (h : Error -> M W A) : M W A :=
  fun st =>
    match m st with
    | (Throw e, st') => h e st'
    | other => other
    end.

(** [for (const x of l) { f x }] *)
Fixpoint forEach {W A} (f : A -> M W unit) (l : list A) : M W unit :=
  match l with
  | [] => ret tt
  | x :: r => _ <- f x ;; forEach f r
  end.

(** A host call that either changes the file system or throws. *)
Definition hostCall {W} (call : string) (f : W -> option W) : M W unit :=
  fun st =>
    match f (world st) with
    | Some w' => (Ok tt, setWorld w' st)
    | None => (Throw (HostFailure call), st)
    end.

(** ** The argument vector of the sandbox tool *)

Inductive Directive :=
| NewSession
| DieWithParent
| UnshareNet
| UnsharePid
| UnshareAll
| ShareNet
| Bind (src dst : string)
| RoBind (src dst : string)
| Tmpfs (p : string)
| Dev (p : string)
| ProcFs (p : string)
| Setenv (k v : string)
| Seccomp (fd : string).

Definition renderDirective (d : Directive) : list string :=
  match d with
  | NewSession => ["--new-session"]
  | DieWithParent => ["--die-with-parent"]
  | UnshareNet => ["--unshare-net"]
  | UnsharePid => ["--unshare-pid"]
  | UnshareAll => ["--unshare-all"]
  | ShareNet => ["--share-net"]
  | Bind src dst => ["--bind"; src; dst]
  | RoBind src dst => ["--ro-bind"; src; dst]
  | Tmpfs p => ["--tmpfs"; p]
  | Dev p => ["--dev"; p]
  | ProcFs p => ["--proc"; p]
  | Setenv k v => ["--setenv"; k; v]
  | Seccomp fd => ["--seccomp"; fd]
  end.

Definition renderArgs (ds : list Directive) : list string :=
  flat_map renderDirective ds.

Definition isBind (d : Directive) : bool :=
  match d with Bind _ _ => true | _ => false end.

(** ** Policy records *)

Record FsReadRestrictionConfig := mkRead { denyOnly : list string }.

Record FsWriteRestrictionConfig := mkWrite {
  allowOnly : list string;
  denyWithinAllow : list string
}.

Record SeccompConfig := mkSeccompConfig {
  bpfPath : option string;
  applyPath : option string
}.

Record LinuxSandboxParams := mkParams {
  command : string;
  needsNetworkRestriction : bool;
  httpSocketPath : option string;
  socksSocketPath : option string;
  httpProxyPort : option nat;
  socksProxyPort : option nat;
  readConfig : option FsReadRestrictionConfig;
  writeConfig : option FsWriteRestrictionConfig;
  enableWeakerNestedSandbox : bool;
  allowAllUnixSockets : bool;
  binShell : option string;
  ripgrepConfig : option RipgrepConfig;
  mandatoryDenySearchDepth : option nat;
  allowGitConfig : option bool;
  seccompConfig : option SeccompConfig
}.

(** What the outer shell runs: the last element of the argument vector. *)
Inductive Payload :=
| NestedSandbox (socat : list string) (seccompFilterPath : string)
    (innerBwrapArgs : list Directive) (shellPath userCommand : string)
| BridgeOnly (socat : list string) (shellPath userCommand : string)
| ApplySeccomp (applySeccompBinary seccompFilterPath shell userCommand : string)
| DirectCommand (userCommand : string).

Record Composite := mkComposite {
  bwrapArgs : list Directive;
  shellBinary : string;
  payload : Payload
}.

(** The two shapes of the returned command. *)
Inductive Wrapped :=
| Unchanged (userCommand : string)
| Sandboxed (c : Composite).

(** ** Path walkers *)

Section Linux.

Context {W : Type} {host : Host W} {sib : Siblings W}.

(** [allowedWritePaths.some(a => p.startsWith(a + '/') || p === a)] *)
Definition isWithin (allowedWritePaths : list string) (p : string) : bool :=
  existsb (fun allowedPath =>
             Js.startsWith p (allowedPath +++ "/") || (p =? allowedPath))
          allowedWritePaths.

(** The [for (const part of parts)] loop of [findSymlinkInPath]: the first
    component that [lstat] reports as a symbolic link and that lies within
    an allowed write path; the walk stops at the first missing component. *)
Fixpoint findSymlinkInPath_loop (w : W) (allowedWritePaths parts : list string)
  (currentPath : string) : option string :=
  match parts with
  | [] => None
  | part :: rest =>
      if part =? EmptyString then findSymlinkInPath_loop w allowedWritePaths rest currentPath
      else
        let nextPath := currentPath +++ Path.sep +++ part in
        match lstatSync w nextPath with
        | Some stats =>
            if isSymbolicLink stats && isWithin allowedWritePaths nextPath
            then Some nextPath
            else findSymlinkInPath_loop w allowedWritePaths rest nextPath
        | None => None
        end
  end.

Definition findSymlinkInPath (w : W) (targetPath : string)
  (allowedWritePaths : list string) : option string :=
  findSymlinkInPath_loop w allowedWritePaths (Js.split targetPath) EmptyString.

(** [hasFileAncestor]: some existing component is reported by [stat] as a
    file (or as a symbolic link). *)
Fixpoint hasFileAncestor_loop (w : W) (parts : list string) (currentPath : string)
  : bool :=
  match parts with
  | [] => false
  | part :: rest =>
      if part =? EmptyString then hasFileAncestor_loop w rest currentPath
      else
        let nextPath := currentPath +++ Path.sep +++ part in
        match statSync w nextPath with
        | Some stat =>
            if isFile stat || isSymbolicLink stat then true
            else hasFileAncestor_loop w rest nextPath
        | None => false
        end
  end.

Definition hasFileAncestor (w : W) (targetPath : string) : bool :=
  hasFileAncestor_loop w (Js.split targetPath) EmptyString.

(** [findFirstNonExistentComponent]: [None] stands for the loop running to
    its end, where the source returns [targetPath]. *)
Fixpoint findFirstNonExistentComponent_loop (w : W) (parts : list string)
  (currentPath : string) : option string :=
  match parts with
  | [] => None
  | part :: rest =>
      if part =? EmptyString then findFirstNonExistentComponent_loop w rest currentPath
      else
        let nextPath := currentPath +++ Path.sep +++ part in
        if negb (existsSync w nextPath) then Some nextPath
        else findFirstNonExistentComponent_loop w rest nextPath
  end.

Definition findFirstNonExistentComponent (w : W) (targetPath : string) : string :=
  match findFirstNonExistentComponent_loop w (Js.split targetPath) EmptyString with
  | Some nextPath => nextPath
  | None => targetPath
  end.

(** The [while (ancestorPath !== '/' && !fs.existsSync(ancestorPath))] loop
    of the deny stage.  Every turn takes [path.dirname]; [None] is the loop
    still running when the fuel is spent. *)
Fixpoint ancestorLoop (w : W) (fuel : nat) (ancestorPath : string) : option string :=
  if (ancestorPath =? "/") || existsSync w ancestorPath then Some ancestorPath
  else
    match fuel with
    | O => None
    | S fuel' => ancestorLoop w fuel' (Path.dirname ancestorPath)
    end.

Definition nearestExistingAncestor (w : W) (normalizedPath : string) : option string :=
  ancestorLoop w (String.length normalizedPath + 2) (Path.dirname normalizedPath).

(** ** Mandatory deny paths *)

Definition DEFAULT_MANDATORY_DENY_SEARCH_DEPTH : nat := 3.

Definition defaultRipgrepConfig : RipgrepConfig := mkRipgrepConfig "rg" None.

Fixpoint findIndex {A} (f : A -> bool) (l : list A) : option nat :=
  match l with
  | [] => None
  | x :: r => if f x then Some 0 else option_map S (findIndex f r)
  end.

(** The cwd-local denies: the dangerous files and directories of the
    working directory. *)
Definition cwdDangerousPaths (w : W) : list string :=
  map (fun f => Path.resolve (cwd w) f) DANGEROUS_FILES
  ++ map (fun d => Path.resolve (cwd w) d) getDangerousDirectories.

Definition dotGitIsDirectory (w : W) : bool :=
  match statSync w (Path.resolve (cwd w) ".git") with
  | Some st => isDirectory st
  | None => false
  end.

(** The pushes guarded by [if (dotGitIsDirectory)]. *)
Definition cwdGitPaths (w : W) (allowGitConfig : bool) : list string :=
  if dotGitIsDirectory w then
    Path.resolve (cwd w) ".git/hooks"
    :: (if negb allowGitConfig then [Path.resolve (cwd w) ".git/config"] else [])
  else [].

Definition iglobArgs (allowGitConfig : bool) : list string :=
  flat_map (fun fileName => ["--iglob"; fileName]) DANGEROUS_FILES
  ++ flat_map (fun dirName => ["--iglob"; "**/" +++ dirName +++ "/**"])
       getDangerousDirectories
  ++ ["--iglob"; "**/.git/hooks/**"]
  ++ (if negb allowGitConfig then ["--iglob"; "**/.git/config"] else []).

Definition ripgrepArgs (maxDepth : nat) (allowGitConfig : bool) : list string :=
  ["--files"; "--hidden"; "--max-depth"; stringOfNat maxDepth]
  ++ iglobArgs allowGitConfig ++ ["-g"; "!**/node_modules/**"].

(** [matches]: a failed scan is caught and leaves the empty list. *)
Definition scanMatches (w : W) (ripgrepConfig : RipgrepConfig) (maxDepth : nat)
  (allowGitConfig : bool) : list string :=
  match ripGrep w (ripgrepArgs maxDepth allowGitConfig) (cwd w) ripgrepConfig with
  | Some matches => matches
  | None => []
  end.

(** The inner [for (const dirName of [...dangerousDirectories, '.git'])]
    loop on one match: [Some pushes] when a directory name was found among
    the segments ([foundDir]), [None] otherwise. *)
Fixpoint matchDirectory (dirNames : list string) (absolutePath match_ : string)
  : option (list string) :=
  match dirNames with
  | [] => None
  | dirName :: rest =>
      let normalizedDirName := normalizeCaseForComparison dirName in
      let segments := Js.split absolutePath in
      match findIndex (fun s => normalizeCaseForComparison s =? normalizedDirName)
              segments with
      | Some dirIndex =>
          if dirName =? ".git" then
            let gitDir := Js.join (firstn (dirIndex + 1) segments) in
            if Js.includes match_ ".git/hooks" then Some [Path.join gitDir "hooks"]
            else if Js.includes match_ ".git/config" then Some [Path.join gitDir "config"]
            else Some []
          else Some [Js.join (firstn (dirIndex + 1) segments)]
      | None => matchDirectory rest absolutePath match_
      end
  end.

(** What one match of the scan pushes on [denyPaths]. *)
Definition processMatch (w : W) (match_ : string) : list string :=
  let absolutePath := Path.resolve (cwd w) match_ in
  match matchDirectory (getDangerousDirectories ++ [".git"]) absolutePath match_ with
  | Some pushes => pushes
  | None => [absolutePath]
  end.

(** [denyPaths] before the final de-duplication. *)
Definition mandatoryDenyPathsRaw (w : W) (ripgrepConfig : RipgrepConfig)
  (maxDepth : nat) (allowGitConfig : bool) : list string :=
  cwdDangerousPaths w
  ++ cwdGitPaths w allowGitConfig
  ++ flat_map (processMatch w) (scanMatches w ripgrepConfig maxDepth allowGitConfig).

Definition linuxGetMandatoryDenyPaths (w : W) (ripgrepConfig : RipgrepConfig)
  (maxDepth : nat) (allowGitConfig : bool) : list string :=
  dedupe [] (mandatoryDenyPathsRaw w ripgrepConfig maxDepth allowGitConfig).

(** ** Registries and the reaper *)

(** [registerExitCleanupHandler]: installs the handler once. *)
Definition registerExitCleanupHandler (st : Proc W) : Proc W :=
  if exitHandlerRegistered st then st
  else mkProc (world st) (bwrapMountPoints st) (generatedSeccompFilters st) true.

(** [bwrapMountPoints.add(p)] *)
Definition addMountPoint (p : string) (st : Proc W) : Proc W :=
  mkProc (world st) (setAdd p (bwrapMountPoints st)) (generatedSeccompFilters st)
         (exitHandlerRegistered st).

(** [bwrapMountPoints.clear()] *)
Definition clearMountPoints : M W unit :=
  fun st =>
    (Ok tt, mkProc (world st) [] (generatedSeccompFilters st) (exitHandlerRegistered st)).

(** Body of the [try] of [cleanupBwrapMountPoints] for one mount point. *)
Definition cleanupAttempt (mountPoint : string) : M W unit :=
  fun st =>
    match statSync (world st) mountPoint with
    | None => (Throw (HostFailure "statSync"), st)
    | Some stat =>
        if isFile stat && N.eqb (size stat) 0 then
          hostCall "unlinkSync" (fun w => unlinkSync w mountPoint) st
        else if isDirectory stat then
          match readdirSync (world st) mountPoint with
          | None => (Throw (HostFailure "readdirSync"), st)
          | Some entries =>
              if Nat.eqb (List.length entries) 0 then
                hostCall "rmdirSync" (fun w => rmdirSync w mountPoint) st
              else (Ok tt, st)
          end
        else (Ok tt, st)
    end.

Definition cleanupBwrapMountPoints : M W unit :=
  fun st =>
    (_ <- forEach (fun mountPoint =>
                     tryCatch (cleanupAttempt mountPoint) (fun _ => ret tt))
                  (bwrapMountPoints st) ;;
     clearMountPoints) st.

(** The callback given to [process.on('exit', ...)]. *)
Definition exitHandler : M W unit :=
  fun st =>
    (_ <- forEach (fun filterPath =>
                     tryCatch (hostCall "cleanupSeccompFilter"
                                 (fun w => cleanupSeccompFilter w filterPath))
                              (fun _ => ret tt))
                  (generatedSeccompFilters st) ;;
     cleanupBwrapMountPoints) st.

(** Process exit: the handler runs when it was registered. *)
Definition processExit : M W unit :=
  fun st => if exitHandlerRegistered st then exitHandler st else (Ok tt, st).

(** ** [generateFilesystemArgs] *)

(** One turn of the loop over [writeConfig.allowOnly]: the accumulator is
    [args] together with [allowedWritePaths]. *)
Definition allowStep (w : W) (acc : list Directive * list string)
  (pathPattern : string) : list Directive * list string :=
  let normalizedPath := normalizePathForSandbox w pathPattern in
  if Js.startsWith normalizedPath "/dev/" then acc
  else if negb (existsSync w normalizedPath) then acc
  else
    match realpathSync w normalizedPath with
    | Some resolvedPath =>
        let normalizedForComparison := Js.trimTrailingSlashes normalizedPath in
        if negb (resolvedPath =? normalizedForComparison)
           && isSymlinkOutsideBoundary normalizedPath resolvedPath
        then acc
        else (fst acc ++ [Bind normalizedPath normalizedPath],
              snd acc ++ [normalizedPath])
    | None => acc
    end.

(** [ancestorIsWithinAllowedPath] *)
Definition ancestorIsWithinAllowedPath (allowedWritePaths : list string)
  (ancestorPath normalizedPath : string) : bool :=
  existsb (fun allowedPath =>
             Js.startsWith ancestorPath (allowedPath +++ "/")
             || (ancestorPath =? allowedPath)
             || Js.startsWith normalizedPath (allowedPath +++ "/"))
          allowedWritePaths.

(** One turn of the loop over [denyPaths]. *)
Definition denyStep (allowedWritePaths : list string) (args : list Directive)
  (pathPattern : string) : M W (list Directive) :=
  fun st =>
    let w := world st in
    let normalizedPath := normalizePathForSandbox w pathPattern in
    if Js.startsWith normalizedPath "/dev/" then (Ok args, st)
    else
      match findSymlinkInPath w normalizedPath allowedWritePaths with
      | Some symlinkInPath => (Ok (args ++ [RoBind "/dev/null" symlinkInPath]), st)
      | None =>
          if negb (existsSync w normalizedPath) then
            if hasFileAncestor w normalizedPath then (Ok args, st)
            else
              match nearestExistingAncestor w normalizedPath with
              | None => (Diverge, st)
              | Some ancestorPath =>
                  if ancestorIsWithinAllowedPath allowedWritePaths ancestorPath
                       normalizedPath
                  then
                    let firstNonExistent :=
                      findFirstNonExistentComponent w normalizedPath in
                    if negb (firstNonExistent =? normalizedPath) then
                      match mkdtempSync w (Path.join (tmpdir w) "claude-empty-") with
                      | Some (emptyDir, w') =>
                          (Ok (args ++ [RoBind emptyDir firstNonExistent]),
                           registerExitCleanupHandler
                             (addMountPoint firstNonExistent (setWorld w' st)))
                      | None => (Throw (HostFailure "mkdtempSync"), st)
                      end
                    else
                      (Ok (args ++ [RoBind "/dev/null" firstNonExistent]),
                       registerExitCleanupHandler (addMountPoint firstNonExistent st))
                  else (Ok args, st)
              end
          else if isWithin allowedWritePaths normalizedPath then
            (Ok (args ++ [RoBind normalizedPath normalizedPath]), st)
          else (Ok args, st)
      end.

Fixpoint denyLoop (allowedWritePaths denyPaths : list string)
  (args : list Directive) : M W (list Directive) :=
  match denyPaths with
  | [] => ret args
  | pathPattern :: rest =>
      args' <- denyStep allowedWritePaths args pathPattern ;;
      denyLoop allowedWritePaths rest args'
  end.

(** One turn of the loop over [readDenyPaths]. *)
Definition readStep (args : list Directive) (pathPattern : string)
  : M W (list Directive) :=
  fun st =>
    let w := world st in
    let normalizedPath := normalizePathForSandbox w pathPattern in
    if negb (existsSync w normalizedPath) then (Ok args, st)
    else
      match statSync w normalizedPath with
      | Some readDenyStat =>
          if isDirectory readDenyStat then (Ok (args ++ [Tmpfs normalizedPath]), st)
          else (Ok (args ++ [RoBind "/dev/null" normalizedPath]), st)
      | None => (Throw (HostFailure "statSync"), st)
      end.

Fixpoint readLoop (readDenyPaths : list string) (args : list Directive)
  : M W (list Directive) :=
  match readDenyPaths with
  | [] => ret args
  | pathPattern :: rest =>
      args' <- readStep args pathPattern ;;
      readLoop rest args'
  end.

Definition readDenyPathsOf (w : W) (readConfig : option FsReadRestrictionConfig)
  : list string :=
  match readConfig with Some rc => denyOnly rc | None => [] end
  ++ (if existsSync w "/etc/ssh/ssh_config.d" then ["/etc/ssh/ssh_config.d"] else []).

(** The write half: the root, the allow stage, then the deny stage.  The
    result carries [allowedWritePaths] next to [args]. *)
Definition writeStage (writeConfig : option FsWriteRestrictionConfig)
  (ripgrepConfig : RipgrepConfig) (mandatoryDenySearchDepth : nat)
  (allowGitConfig : bool) : M W (list Directive * list string) :=
  fun st =>
    match writeConfig with
    | Some wc =>
        let allowed :=
          fold_left (allowStep (world st)) (allowOnly wc) ([RoBind "/" "/"], []) in
        let denyPaths :=
          denyWithinAllow wc
          ++ linuxGetMandatoryDenyPaths (world st) ripgrepConfig
               mandatoryDenySearchDepth allowGitConfig in
        (args <- denyLoop (snd allowed) denyPaths (fst allowed) ;;
         ret (args, snd allowed)) st
    | None => (Ok ([Bind "/" "/"], []), st)
    end.

Definition generateFilesystemArgs (readConfig : option FsReadRestrictionConfig)
  (writeConfig : option FsWriteRestrictionConfig) (ripgrepConfig : RipgrepConfig)
  (mandatoryDenySearchDepth : nat) (allowGitConfig : bool)
  : M W (list Directive) :=
  written <- writeStage writeConfig ripgrepConfig mandatoryDenySearchDepth
               allowGitConfig ;;
  (fun st => readLoop (readDenyPathsOf (world st) readConfig) (fst written) st).

(** ** [buildSandboxCommand] *)

Definition dquote : string := String (ascii_of_nat 34) EmptyString.

Definition newline : string := String (ascii_of_nat 10) EmptyString.

Definition socatCommands (httpSocketPath socksSocketPath : string) : list string :=
  [ "socat TCP-LISTEN:3128,fork,reuseaddr UNIX-CONNECT:" +++ httpSocketPath
      +++ " >/dev/null 2>&1 &";
    "socat TCP-LISTEN:1080,fork,reuseaddr UNIX-CONNECT:" +++ socksSocketPath
      +++ " >/dev/null 2>&1 &";
    "trap " +++ dquote +++ "kill %1 %2 2>/dev/null; exit" +++ dquote +++ " EXIT" ].

(** The loop replicating the writable binds in the inner invocation. *)
Fixpoint innerBinds (w : W) (writablePaths : list string) : list Directive :=
  match writablePaths with
  | [] => []
  | p :: rest =>
      if Js.startsWith p "/dev/" || (p =? "/dev") then innerBinds w rest
      else if existsSync w p then Bind p p :: innerBinds w rest
      else innerBinds w rest
  end.

Definition innerBwrapDirectives (w : W) (writablePaths : option (list string))
  : list Directive :=
  [UnshareAll; ShareNet; RoBind "/" "/"]
  ++ match writablePaths with Some ps => innerBinds w ps | None => [] end
  ++ [Dev "/dev"; Seccomp "3"].

Definition buildSandboxPayload (w : W) (httpSocketPath socksSocketPath userCommand : string)
  (seccompFilterPath shell : option string) (writablePaths : option (list string))
  : Payload :=
  let shellPath := if truthy shell then match shell with Some s => s | None => "bash" end
                   else "bash" in
  let socat := socatCommands httpSocketPath socksSocketPath in
  if truthy seccompFilterPath then
    NestedSandbox socat
      (match seccompFilterPath with Some f => f | None => EmptyString end)
      (innerBwrapDirectives w writablePaths) shellPath userCommand
  else BridgeOnly socat shellPath userCommand.

Definition renderPayload (p : Payload) : string :=
  match p with
  | NestedSandbox socat seccompFilterPath innerBwrapArgs shellPath userCommand =>
      let innerBwrapCmd :=
        quote ("bwrap" :: renderArgs innerBwrapArgs
                 ++ ["--"; shellPath; "-c"; userCommand]) in
      let innerScript :=
        String.concat newline
          (socat ++ ["sleep 0.1"; "exec 3< " +++ quote [seccompFilterPath];
                     innerBwrapCmd]) in
      shellPath +++ " -c " +++ quote [innerScript]
  | BridgeOnly socat shellPath userCommand =>
      let innerScript :=
        String.concat newline (socat ++ ["eval " +++ quote [userCommand]]) in
      shellPath +++ " -c " +++ quote [innerScript]
  | ApplySeccomp applySeccompBinary seccompFilterPath shell userCommand =>
      quote [applySeccompBinary; seccompFilterPath; shell; "-c"; userCommand]
  | DirectCommand userCommand => userCommand
  end.

Definition buildSandboxCommand (w : W) (httpSocketPath socksSocketPath userCommand : string)
  (seccompFilterPath shell : option string) (writablePaths : option (list string))
  : string :=
  renderPayload (buildSandboxPayload w httpSocketPath socksSocketPath userCommand
                   seccompFilterPath shell writablePaths).

(** ** [wrapCommandWithSandboxLinux] *)

Definition hasReadRestrictions (params : LinuxSandboxParams) : bool :=
  match readConfig params with
  | Some rc => Nat.ltb 0 (List.length (denyOnly rc))
  | None => false
  end.

Definition hasWriteRestrictions (params : LinuxSandboxParams) : bool :=
  match writeConfig params with Some _ => true | None => false end.

Definition orDefault {A} (o : option A) (d : A) : A :=
  match o with Some a => a | None => d end.

(** [generatedSeccompFilters.add(p)] and [.delete(p)] *)
Definition addFilter (p : string) (st : Proc W) : Proc W :=
  mkProc (world st) (bwrapMountPoints st) (setAdd p (generatedSeccompFilters st))
         (exitHandlerRegistered st).

Definition deleteFilter (p : string) (st : Proc W) : Proc W :=
  mkProc (world st) (bwrapMountPoints st) (setDelete p (generatedSeccompFilters st))
         (exitHandlerRegistered st).

(** The seccomp block: the value is the final [seccompFilterPath]. *)
Definition seccompStage (params : LinuxSandboxParams) : M W (option string) :=
  fun st =>
    if negb (allowAllUnixSockets params) then
      let cfg := seccompConfig params in
      let generated :=
        generateSeccompFilter (world st)
          (match cfg with Some c => bpfPath c | None => None end) in
      let st1 := setWorld (snd generated) st in
      let applySeccompBinary :=
        getApplySeccompBinaryPath (world st1)
          (match cfg with Some c => applyPath c | None => None end) in
      if negb (truthy (fst generated)) || negb (truthy applySeccompBinary) then
        (Ok None, st1)
      else
        match fst generated with
        | Some seccompFilterPath =>
            if negb (Js.includes seccompFilterPath "/vendor/seccomp/") then
              (Ok (Some seccompFilterPath),
               registerExitCleanupHandler (addFilter seccompFilterPath st1))
            else (Ok (Some seccompFilterPath), st1)
        | None => (Ok None, st1)
        end
    else (Ok None, st).

(** [env.slice(0, firstEq)] and [env.slice(firstEq + 1)] around the first
    [=]; without one, [indexOf] answers [-1]. *)
Definition splitEnv (env : string) : string * string :=
  match String.index 0 "=" env with
  | Some firstEq =>
      (String.substring 0 firstEq env,
       String.substring (firstEq + 1) (String.length env - (firstEq + 1)) env)
  | None => (String.substring 0 (String.length env - 1) env, env)
  end.

Definition bridgeRequested (params : LinuxSandboxParams) : bool :=
  truthy (httpSocketPath params) && truthy (socksSocketPath params).

(** The network block. *)
Definition networkStage (params : LinuxSandboxParams) : M W (list Directive) :=
  fun st =>
    if needsNetworkRestriction params then
      if bridgeRequested params then
        let http := orDefault (httpSocketPath params) EmptyString in
        let socks := orDefault (socksSocketPath params) EmptyString in
        if negb (existsSync (world st) http) then
          (Throw (HttpBridgeSocketMissing http), st)
        else if negb (existsSync (world st) socks) then
          (Throw (SocksBridgeSocketMissing socks), st)
        else
          (Ok ([UnshareNet; Bind http http; Bind socks socks]
               ++ map (fun env => Setenv (fst (splitEnv env)) (snd (splitEnv env)))
                    (generateProxyEnvVars 3128 1080)
               ++ match httpProxyPort params with
                  | Some port =>
                      [Setenv "CLAUDE_CODE_HOST_HTTP_PROXY_PORT" (stringOfNat port)]
                  | None => []
                  end
               ++ match socksProxyPort params with
                  | Some port =>
                      [Setenv "CLAUDE_CODE_HOST_SOCKS_PROXY_PORT" (stringOfNat port)]
                  | None => []
                  end), st)
      else (Ok [UnshareNet], st)
    else (Ok [], st).

(** The command block: the payload after [--], [shell], [-c]. *)
Definition payloadStage (params : LinuxSandboxParams)
  (seccompFilterPath : option string) (shell : string) : M W Payload :=
  fun st =>
    if needsNetworkRestriction params && bridgeRequested params then
      let writablePaths :=
        filter (existsSync (world st))
          (map (normalizePathForSandbox (world st))
             (match writeConfig params with Some wc => allowOnly wc | None => [] end)) in
      (Ok (buildSandboxPayload (world st)
             (orDefault (httpSocketPath params) EmptyString)
             (orDefault (socksSocketPath params) EmptyString)
             (command params) seccompFilterPath (Some shell) (Some writablePaths)), st)
    else if truthy seccompFilterPath then
      let cfg := seccompConfig params in
      match getApplySeccompBinaryPath (world st)
              (match cfg with Some c => applyPath c | None => None end) with
      | Some applySeccompBinary =>
          if applySeccompBinary =? EmptyString then (Throw ApplySeccompNotFound, st)
          else
            (Ok (ApplySeccomp applySeccompBinary
                   (orDefault seccompFilterPath EmptyString) shell (command params)), st)
      | None => (Throw ApplySeccompNotFound, st)
      end
    else (Ok (DirectCommand (command params)), st).

(** Everything inside the [try] after the seccomp block. *)
Definition compileStages (params : LinuxSandboxParams)
  (seccompFilterPath : option string) : M W Composite :=
  netArgs <- networkStage params ;;
  fsArgs <- generateFilesystemArgs (readConfig params) (writeConfig params)
              (orDefault (ripgrepConfig params) defaultRipgrepConfig)
              (orDefault (mandatoryDenySearchDepth params)
                 DEFAULT_MANDATORY_DENY_SEARCH_DEPTH)
              (orDefault (allowGitConfig params) false) ;;
  (fun st =>
     let shellName :=
       if truthy (binShell params) then orDefault (binShell params) "bash" else "bash" in
     match whichSync (world st) shellName with
     | Some shell =>
         if shell =? EmptyString then (Throw (ShellNotFound shellName), st)
         else
           (pl <- payloadStage params seccompFilterPath shell ;;
            ret (mkComposite
                   ([NewSession; DieWithParent] ++ netArgs ++ fsArgs
                    ++ [Dev "/dev"; UnsharePid]
                    ++ (if negb (enableWeakerNestedSandbox params)
                        then [ProcFs "/proc"] else []))
                   shell pl)) st
     | None => (Throw (ShellNotFound shellName), st)
     end).

(** The [catch]: a runtime-generated filter is removed from its registry
    and cleaned up (a failing clean-up is only logged), then the error is
    thrown again. *)
Definition cleanupOnError (seccompFilterPath : option string) (e : Error)
  : M W Composite :=
  fun st =>
    match seccompFilterPath with
    | Some f =>
        if negb (f =? EmptyString) && negb (Js.includes f "/vendor/seccomp/") then
          let st1 := deleteFilter f st in
          match cleanupSeccompFilter (world st1) f with
          | Some w' => (Throw e, setWorld w' st1)
          | None => (Throw e, st1)
          end
        else (Throw e, st)
    | None => (Throw e, st)
    end.

(** The structured result of [wrapCommandWithSandboxLinux]. *)
Definition wrapCommandWithSandboxLinux_plan (params : LinuxSandboxParams)
  : M W Wrapped :=
  if negb (needsNetworkRestriction params)
     && negb (hasReadRestrictions params)
     && negb (hasWriteRestrictions params)
  then ret (Unchanged (command params))
  else
    seccompFilterPath <- seccompStage params ;;
    c <- tryCatch (compileStages params seccompFilterPath)
                  (cleanupOnError seccompFilterPath) ;;
    ret (Sandboxed c).

(** [shellquote.quote(['bwrap', ...bwrapArgs])] *)
Definition renderWrapped (r : Wrapped) : string :=
  match r with
  | Unchanged userCommand => userCommand
  | Sandboxed c =>
      quote ("bwrap" :: renderArgs (bwrapArgs c)
               ++ ["--"; shellBinary c; "-c"; renderPayload (payload c)])
  end.

Definition wrapCommandWithSandboxLinux (params : LinuxSandboxParams) : M W string :=
  r <- wrapCommandWithSandboxLinux_plan params ;;
  ret (renderWrapped r).

(** ** Reading aids for the statements

    The decision of the allow stage as a function of the normalized path,
    and the symlink test of the stage on its own. *)

Definition skippedAsWidening (w : W) (normalizedPath : string) : bool :=
  match realpathSync w normalizedPath with
  | Some resolvedPath =>
      negb (resolvedPath =? Js.trimTrailingSlashes normalizedPath)
      && isSymlinkOutsideBoundary normalizedPath resolvedPath
  | None => false
  end.

Definition allowKept (w : W) (normalizedPath : string) : bool :=
  negb (Js.startsWith normalizedPath "/dev/")
  && existsSync w normalizedPath
  && match realpathSync w normalizedPath with
     | Some _ => negb (skippedAsWidening w normalizedPath)
     | None => false
     end.



(** The repository directory of a match: the segments of its absolute path
    up to the one at [dirIndex]. *)
Definition gitDirOf (absolutePath : string) (dirIndex : nat) : string :=
  Js.join (firstn (dirIndex + 1) (Js.split absolutePath)).

(** The normalized allow paths the allow stage keeps. *)
Definition keptPaths (w : W) (allow : list string) : list string :=
  filter (allowKept w) (map (normalizePathForSandbox w) allow).

(** What a turn of the deny loop can do: nothing, one read-only bind
    (possibly with a registration), or stop the compilation. *)
Inductive DenyOutcome (args : list Directive) (st : Proc W)
  : Result (list Directive) -> Proc W -> Prop :=
| DenySkip : DenyOutcome args st (Ok args) st
| DenyBind src dst :
    DenyOutcome args st (Ok (args ++ [RoBind src dst])) st
| DenyArtifact src dst st' :
    In dst (bwrapMountPoints st') ->
    incl (bwrapMountPoints st) (bwrapMountPoints st') ->
    generatedSeccompFilters st' = generatedSeccompFilters st ->
    exitHandlerRegistered st' = true ->
    DenyOutcome args st (Ok (args ++ [RoBind src dst])) st'
| DenyDiverge : DenyOutcome args st Diverge st
| DenyThrow : DenyOutcome args st (Throw (HostFailure "mkdtempSync")) st.

Definition notBind (d : Directive) : Prop := isBind d = false.

(** The effect of the reaper on one mount point, read off the host's
    answers: [stat] follows symbolic links. *)
Definition reaped (w : W) (mountPoint : string) : W :=
  match statSync w mountPoint with
  | Some stat =>
      if isFile stat && N.eqb (size stat) 0 then orDefault (unlinkSync w mountPoint) w
      else if isDirectory stat then
        match readdirSync w mountPoint with
        | Some [] => orDefault (rmdirSync w mountPoint) w
        | _ => w
        end
      else w
  | None => w
  end.


(** The exit handler's attempt on one registered filter. *)
Definition filterCleaned (w : W) (filterPath : string) : W :=
  orDefault (cleanupSeccompFilter w filterPath) w.

End Linux.

(** ** A concrete host for the examples

    A small POSIX-like file system: a table from canonical absolute paths
    to nodes, the root being a directory.  Resolution walks the components,
    follows symbolic links (a bounded number of times) and refuses to walk
    through a regular file. *)

Module Posix.

Inductive Node :=
| File (sz : N)
| Dir
| Symlink (target : string).

Record World := mkWorld {
  nodes : list (string * Node);
  workdir : string;
  tmp : string;
  temps : nat;
  binaries : list (string * string);
  scan : option (list string);
  filter_ : option string;
  applyBinary : option string
}.

Fixpoint lookup {A} (k : string) (l : list (string * A)) : option A :=
  match l with
  | [] => None
  | (k', v) :: r => if k =? k' then Some v else lookup k r
  end.

Definition remove (k : string) (l : list (string * Node)) : list (string * Node) :=
  filter (fun kv => negb (fst kv =? k)) l.

Definition pathOf (comps : list string) : string := "/" +++ Js.join comps.

Definition components (p : string) : list string :=
  filter (fun c => negb (c =? EmptyString)) (Js.split p).

(** [walk] returns the canonical components reached and the node there. *)
Fixpoint walk (tbl : list (string * Node)) (fuel : nat) (followLast : bool)
  (cur : list string) (curNode : Node) (rest : list string)
  : option (list string * Node) :=
  match fuel with
  | O => None
  | S fuel' =>
      match rest with
      | [] => Some (cur, curNode)
      | c :: rest' =>
          if c =? "." then walk tbl fuel' followLast cur curNode rest'
          else if c =? ".." then
            walk tbl fuel' followLast (removelast cur) Dir rest'
          else
            let nxt := cur ++ [c] in
            match lookup (pathOf nxt) tbl with
            | None => None
            | Some (Symlink t) =>
                match rest', followLast with
                | [], false => Some (nxt, Symlink t)
                | _, _ =>
                    walk tbl fuel' followLast
                      (if Path.isAbsolute t then [] else cur) Dir
                      (components t ++ rest')
                end
            | Some Dir => walk tbl fuel' followLast nxt Dir rest'
            | Some (File sz) =>
                match rest' with
                | [] => Some (nxt, File sz)
                | _ => None
                end
            end
      end
  end.

Definition resolve (w : World) (followLast : bool) (p : string)
  : option (list string * Node) :=
  if p =? EmptyString then None
  else
    let full := if Path.isAbsolute p then p else workdir w +++ "/" +++ p in
    let trailing := Js.endsWithSlash p in
    match walk (nodes w) 64 (followLast || trailing) [] Dir (components full) with
    | Some (cur, Dir) => Some (cur, Dir)
    | Some (cur, n) => if trailing then None else Some (cur, n)
    | None => None
    end.

Definition statsOf (n : Node) : Stats :=
  match n with
  | File sz => mkStats KFile sz
  | Dir => mkStats KDirectory 4096
  | Symlink t => mkStats KSymlink (N.of_nat (String.length t))
  end.

Definition stat (w : World) (p : string) : option Stats :=
  option_map (fun r => statsOf (snd r)) (resolve w true p).

Definition lstat (w : World) (p : string) : option Stats :=
  option_map (fun r => statsOf (snd r)) (resolve w false p).

Definition realpath (w : World) (p : string) : option string :=
  option_map (fun r => pathOf (fst r)) (resolve w true p).

Definition childrenOf (tbl : list (string * Node)) (dir : list string) : list string :=
  flat_map (fun kv =>
              let cs := components (fst kv) in
              if list_eq_dec string_dec (removelast cs) dir
              then match cs with [] => [] | _ => [last cs EmptyString] end
              else [])
           tbl.

Definition readdir (w : World) (p : string) : option (list string) :=
  match resolve w true p with
  | Some (cur, Dir) => Some (childrenOf (nodes w) cur)
  | _ => None
  end.

Definition setNodes (tbl : list (string * Node)) (w : World) : World :=
  mkWorld tbl (workdir w) (tmp w) (temps w) (binaries w) (scan w) (filter_ w)
          (applyBinary w).

Definition unlink (w : World) (p : string) : option World :=
  match resolve w false p with
  | Some (cur, File _) | Some (cur, Symlink _) =>
      Some (setNodes (remove (pathOf cur) (nodes w)) w)
  | _ => None
  end.

Definition rmdir (w : World) (p : string) : option World :=
  match resolve w false p with
  | Some (cur, Dir) =>
      match cur, childrenOf (nodes w) cur with
      | _ :: _, [] => Some (setNodes (remove (pathOf cur) (nodes w)) w)
      | _, _ => None
      end
  | _ => None
  end.

(** [mkdtemp]: a fresh directory named after the prefix and a counter. *)
Definition mkdtemp (w : World) (prefix : string) : option (string * World) :=
  let name := prefix +++ "T" +++ stringOfNat (temps w) in
  match resolve w true (Path.dirname name), lookup name (nodes w) with
  | Some (_, Dir), None =>
      Some (name,
            mkWorld (nodes w ++ [(name, Dir)]) (workdir w) (tmp w) (S (temps w))
                    (binaries w) (scan w) (filter_ w) (applyBinary w))
  | _, _ => None
  end.

(** A quoting primitive for the examples: an argument with a blank, a
    newline or a quote character is put between single quotes. *)
Definition needsQuoting (c : ascii) : bool :=
  let n := nat_of_ascii c in
  Nat.eqb n 32 || Nat.eqb n 10 || Nat.eqb n 9 || Nat.eqb n 34 || Nat.eqb n 39.

Definition quoteArg (s : string) : string :=
  if (s =? EmptyString) || existsb needsQuoting (list_ascii_of_string s)
  then "'" +++ s +++ "'" else s.

Definition quoteArgs (l : list string) : string :=
  String.concat " " (map quoteArg l).

#[global] Instance host : Host World := {
  statSync := stat;
  lstatSync := lstat;
  realpathSync := realpath;
  readdirSync := readdir;
  unlinkSync := unlink;
  rmdirSync := rmdir;
  mkdtempSync := mkdtemp;
  cwd := workdir;
  tmpdir := tmp;
  whichSync := fun w name => lookup name (binaries w);
  ripGrep := fun w _ _ _ => scan w;
  quote := quoteArgs
}.

(** A path without [.], [..] and trailing slashes, the root staying [/]. *)
Definition cleanPath (p : string) : string :=
  let t := Js.trimTrailingSlashes (Path.normalize p) in
  if t =? EmptyString then "/" else t.

(** The host aliases [/tmp] = [/private/tmp] and [/var] = [/private/var]. *)
Definition canonicalAlias (p : string) : string :=
  if (p =? "/tmp") || Js.startsWith p "/tmp/"
     || (p =? "/var") || Js.startsWith p "/var/"
  then "/private" +++ p else p.

(** Modelled from the spec: [isSymlinkOutsideBoundary] of [sandbox-utils.js],
    which is not part of the sources at hand (its unit tests are).  The
    resolution widens the scope when it is [/], an ancestor of the input, at
    most four characters long, or outside the input's subtree, unless the
    two paths are the same up to the host aliases; a deeper resolution is
    allowed. *)
Definition symlinkWidens (input resolved : string) : bool :=
  let i := canonicalAlias (cleanPath input) in
  let r := canonicalAlias (cleanPath resolved) in
  if r =? i then false
  else
    (cleanPath resolved =? "/")
    || Js.startsWith i (r +++ "/")
    || Nat.leb (String.length (cleanPath resolved)) 4
    || negb (Js.startsWith r (i +++ "/")).

(** Modelled from the spec: the fixed lists of [sandbox-utils.js]. *)
Definition dangerousFiles : list string :=
  [".bashrc"; ".bash_profile"; ".zshrc"; ".zprofile"; ".profile";
   ".gitconfig"; ".gitmodules"; ".ripgreprc"; ".mcp.json"].

Definition dangerousDirectories : list string :=
  [".vscode"; ".idea"; ".claude/commands"; ".claude/agents"].

(** Modelled from the spec: the proxy variables point at the in-sandbox
    forwarders. *)
Definition proxyEnvVars (httpPort socksPort : nat) : list string :=
  ["HTTP_PROXY=http://localhost:" +++ stringOfNat httpPort;
   "ALL_PROXY=socks5h://localhost:" +++ stringOfNat socksPort].

(** A normalizer that makes a relative path absolute against the working
    directory and keeps an absolute path as it is written, its trailing
    slash included: the source says of the normalized path that it "may
    have one" where it trims it before the symlink comparison. *)
Definition keepSlashNormalizer (w : World) (p : string) : string :=
  if Path.isAbsolute p then p else Path.resolve (workdir w) p.

(** Modelled from the spec: [normalize] makes the path absolute against the
    working directory, collapses [.] and [..] and strips trailing slashes. *)
Definition stripSlashNormalizer (w : World) (p : string) : string :=
  Path.resolve (workdir w) p.

Definition removeFilter (w : World) (f : string) : option World :=
  match unlink w f with
  | Some w' => Some w'
  | None => Some w
  end.

Definition siblingsWith (normalizer : World -> string -> string) : Siblings World := {|
  normalizePathForSandbox := normalizer;
  normalizeCaseForComparison := Js.toLowerCase;
  isSymlinkOutsideBoundary := symlinkWidens;
  DANGEROUS_FILES := dangerousFiles;
  getDangerousDirectories := dangerousDirectories;
  generateProxyEnvVars := proxyEnvVars;
  generateSeccompFilter := fun w _ => (filter_ w, w);
  getApplySeccompBinaryPath := fun w _ => applyBinary w;
  cleanupSeccompFilter := removeFilter
|}.

#[global] Instance siblings : Siblings World := siblingsWith keepSlashNormalizer.

Definition strictSiblings : Siblings World := siblingsWith stripSlashNormalizer.

End Posix.

(** The user command a payload wraps. *)
Definition payloadCommand (p : Payload) : string :=
  match p with
  | NestedSandbox _ _ _ _ userCommand => userCommand
  | BridgeOnly _ _ userCommand => userCommand
  | ApplySeccomp _ _ _ userCommand => userCommand
  | DirectCommand userCommand => userCommand
  end.

(** No restriction at all: no network restriction, no read-deny entry, no
    write policy. *)
Definition noRestrictions (params : LinuxSandboxParams) : Prop :=
  needsNetworkRestriction params = false
  /\ match readConfig params with Some rc => denyOnly rc = [] | None => True end
  /\ writeConfig params = None.

(** [binShell || 'bash'] *)
Definition shellNameOf (params : LinuxSandboxParams) : string :=
  if truthy (binShell params) then orDefault (binShell params) "bash" else "bash".

(** The writable binds of the outer stage and of the inner stage of a
    compiled command. *)
Definition outerBinds (r : Wrapped) : list Directive :=
  match r with
  | Sandboxed c => filter isBind (bwrapArgs c)
  | Unchanged _ => []
  end.

Definition innerBindsOf (r : Wrapped) : list Directive :=
  match r with
  | Sandboxed c =>
      match payload c with
      | NestedSandbox _ _ innerBwrapArgs _ _ => filter isBind innerBwrapArgs
      | _ => []
      end
  | Unchanged _ => []
  end.

(** A policy list with [p] spelled [p/]. *)
Definition withSlash (p : string) (l : list string) : list string :=
  map (fun x => if x =? p then p +++ "/" else x) l.

Definition readWithSlash (p : string) (rc : option FsReadRestrictionConfig)
  : option FsReadRestrictionConfig :=
  option_map (fun c => mkRead (withSlash p (denyOnly c))) rc.

Definition writeWithSlash (p : string) (wc : option FsWriteRestrictionConfig)
  : option FsWriteRestrictionConfig :=
  option_map (fun c => mkWrite (withSlash p (allowOnly c))
                               (withSlash p (denyWithinAllow c))) wc.

(** The value of a successful compilation, the unchanged empty command
    standing for the other outcomes. *)
Definition orDefaultWrapped (r : Result Wrapped) : Wrapped :=
  match r with
  | Ok v => v
  | _ => Unchanged EmptyString
  end.

(** ** The macOS profile: read denies

    Modelled from the spec: the macOS policy compiler
    ([macos-sandbox-utils.ts]) is not part of the sources at hand; only its
    tests are.  For a read-denied path the profile holds a [file-read*] deny
    rule (literal or glob form) and [file-write-unlink] deny rules on the
    path itself and on every ancestor directory up to [/]; a glob pattern
    contributes the ancestors of its literal base, the longest prefix
    without a wildcard. *)

Module MacOS.

Inductive PathFilter :=
| Literal (p : string)
| Subpath (p : string)
| Regex (pattern : string).

Inductive Rule :=
| Deny (operation : string) (target : PathFilter)
| Allow (operation : string) (target : PathFilter).

Definition isWildcard (c : ascii) : bool :=
  Ascii.eqb c "*" || Ascii.eqb c "?".

Definition containsGlobChars (p : string) : bool :=
  existsb isWildcard (list_ascii_of_string p).

(** The literal base: the longest prefix without a wildcard. *)
Fixpoint literalBase (p : string) : string :=
  match p with
  | EmptyString => EmptyString
  | String c r => if isWildcard c then EmptyString else String c (literalBase r)
  end.

(** The directory a glob lives in: the base itself when it ends with a
    slash, its parent directory otherwise. *)
Definition globBaseDirectory (p : string) : string :=
  let base := literalBase p in
  if Js.endsWithSlash base then base else Path.dirname base.

Definition components (p : string) : list string :=
  filter (fun c => negb (c =? EmptyString)) (Js.split p).

Definition pathOf (comps : list string) : string := "/" +++ Js.join comps.

(** The chain of directories above a path, nearest first, the root last;
    the components are taken innermost first. *)
Fixpoint ancestorChainRev (rcomps : list string) : list string :=
  match rcomps with
  | [] => []
  | _ :: parents => pathOf (rev parents) :: ancestorChainRev parents
  end.

Definition ancestorDirectories (p : string) : list string :=
  ancestorChainRev (rev (components p)).

Definition unlinkDeny (target : PathFilter) : Rule := Deny "file-write-unlink" target.

Section Profile.

Variable normalize : string -> string.
Variable globToRegex : string -> string.

(** Modelled from the spec: the rules one read-denied entry contributes in
    the profile that [wrapCommandWithSandboxMacOS] of [macos-sandbox-utils.ts]
    (not part of the sources at hand) generates: the [file-read*] deny, the
    [file-write-unlink] deny on the entry, and one on every ancestor. *)
Definition readDenyRules (pathPattern : string) : list Rule :=
  let p := normalize pathPattern in
  if containsGlobChars p then
    let baseDir := globBaseDirectory p in
    [Deny "file-read*" (Regex (globToRegex p)); unlinkDeny (Regex (globToRegex p))]
    ++ unlinkDeny (Literal (pathOf (components baseDir)))
    :: map (fun a => unlinkDeny (Literal a)) (ancestorDirectories baseDir)
  else
    [Deny "file-read*" (Subpath p); unlinkDeny (Subpath p)]
    ++ map (fun a => unlinkDeny (Literal a)) (ancestorDirectories p).

(** Modelled from the spec: the read-deny family of the profile, one group
    of rules per entry of [denyOnly]. *)
Definition readRules (readConfig : option FsReadRestrictionConfig) : list Rule :=
  match readConfig with
  | Some rc => flat_map readDenyRules (denyOnly rc)
  | None => []
  end.

End Profile.

End MacOS.

(** ** Scenarios

    Concrete hosts for the end-to-end scenarios of the specification and
    of the tests. *)

Module Scenario.

Import Posix.

Definition baseNodes : list (string * Node) :=
  [("/tmp", Dir); ("/usr", Dir); ("/usr/bin", Dir); ("/usr/bin/bash", File 1024)].

Definition mkHost (extra : list (string * Node)) (dir : string)
  (matches : option (list string)) : World :=
  mkWorld (baseNodes ++ extra) dir "/tmp" 0 [("bash", "/usr/bin/bash")] matches None None.

Definition fresh (w : World) : Proc World := mkProc w [] [] false.

(** S2: [/tmp/T/user_area/evil] is a symbolic link to [/tmp/T/protected]. *)
Definition evilHost : World :=
  mkHost [("/tmp/T", Dir); ("/tmp/T/user_area", Dir); ("/tmp/T/protected", Dir);
          ("/tmp/T/protected/secret.txt", File 11);
          ("/tmp/T/user_area/evil", Symlink "/tmp/T/protected")]
         "/tmp/T" (Some []).

Definition evilPolicy : FsWriteRestrictionConfig :=
  mkWrite ["/tmp/T/user_area"; "/tmp/T/user_area/evil"] [].

(** A deny path below a symbolic link that lies inside the allowed root. *)
Definition linkHost : World :=
  mkHost [("/srv", Dir); ("/w", Dir); ("/w/real", Dir); ("/w/link", Symlink "/w/real")]
         "/srv" (Some []).

Definition linkPolicy : FsWriteRestrictionConfig :=
  mkWrite ["/w"] ["/w/link/new"].

(** Deny paths that do not exist yet: a leaf and a path two levels down. *)
Definition ghostHost : World :=
  mkHost [("/srv", Dir); ("/w", Dir)] "/srv" (Some []).

Definition ghostPolicy : FsWriteRestrictionConfig :=
  mkWrite ["/w"] ["/w/settings.json"; "/w/a/b"].

(** A registered mount point that another actor has replaced by a symbolic
    link to an empty file. *)
Definition relinkedHost : World :=
  mkHost [("/w", Dir); ("/w/empty", File 0); ("/w/.bashrc", Symlink "/w/empty")]
         "/w" (Some []).

Definition relinked : Proc World := mkProc relinkedHost ["/w/.bashrc"] [] true.

(** No seccomp tooling on the host, Unix sockets not allowed. *)
Definition noSeccompParams : LinuxSandboxParams :=
  mkParams "echo hello" false None None None None None
           (Some (mkWrite ["/w"] [])) false false None None None None None.

(** A shell that is not installed. *)
Definition zshParams : LinuxSandboxParams :=
  mkParams "echo hello" false None None None None None
           (Some (mkWrite ["/w"] [])) false true (Some "zsh") None None None None.

(** No restriction at all. *)
Definition freeParams : LinuxSandboxParams :=
  mkParams "echo hello" false None None None None (Some (mkRead [])) None
           false true None None None None None.

(** S6 with the link of S2: network bridge, seccomp filter, and a write
    policy that lists the scope-widening link. *)
Definition bridgeHost : World :=
  mkWorld (baseNodes
           ++ [("/tmp/T", Dir); ("/tmp/T/user_area", Dir); ("/tmp/T/protected", Dir);
               ("/tmp/T/protected/secret.txt", File 11);
               ("/tmp/T/user_area/evil", Symlink "/tmp/T/protected");
               ("/tmp/http.sock", File 0); ("/tmp/socks.sock", File 0)])
          "/tmp/T" "/tmp" 0 [("bash", "/usr/bin/bash")] (Some [])
          (Some "/opt/srt/vendor/seccomp/x64/unix-block.bpf")
          (Some "/opt/srt/vendor/seccomp/x64/apply-seccomp").

Definition bridgeParams : LinuxSandboxParams :=
  mkParams "touch /tmp/T/user_area/ok" true (Some "/tmp/http.sock")
           (Some "/tmp/socks.sock") (Some 3129) (Some 1081) None (Some evilPolicy)
           false false None None None None None.

(** A nested repository whose [.git] directory holds a [config] file and no
    hook file: the scan reports the former only. *)
Definition nestedHost : World :=
  mkHost [("/proj", Dir); ("/proj/sub", Dir); ("/proj/sub/.git", Dir);
          ("/proj/sub/.git/config", File 92)]
         "/proj" (Some ["sub/.git/config"]).

(** A working directory that is a repository; a worktree, where [.git] is a
    file. *)
Definition repoHost : World :=
  mkHost [("/proj", Dir); ("/proj/.git", Dir)] "/proj" (Some []).

Definition worktreeHost : World :=
  mkHost [("/proj", Dir); ("/proj/.git", File 48)] "/proj" (Some []).

End Scenario.

(** ** Reading aids for the rest of the file

    The paths the three walkers examine, in order: one per non-empty part. *)

Fixpoint prefixPaths (parts : list string) (currentPath : string) : list string :=
  match parts with
  | [] => []
  | part :: rest =>
      if part =? EmptyString then prefixPaths rest currentPath
      else (currentPath +++ Path.sep +++ part)
           :: prefixPaths rest (currentPath +++ Path.sep +++ part)
  end.

Definition isRoBind (d : Directive) : bool :=
  match d with RoBind _ _ => true | _ => false end.

(** The two directives of the read stage. *)
Definition isReadDeny (d : Directive) : bool :=
  match d with
  | Tmpfs _ => true
  | RoBind src _ => src =? "/dev/null"
  | _ => false
  end.

(** The directives that isolate devices, processes and [/proc]. *)
Definition isIsolation (d : Directive) : bool :=
  match d with
  | Dev _ | UnsharePid | ProcFs _ => true
  | _ => false
  end.

Definition isNetwork (d : Directive) : bool :=
  match d with
  | UnshareNet | Setenv _ _ => true
  | _ => false
  end.

(** Every registered resource has its teardown at exit scheduled. *)
Definition registriesCovered {W} (st : Proc W) : Prop :=
  (bwrapMountPoints st = [] /\ generatedSeccompFilters st = [])
  \/ exitHandlerRegistered st = true.

(** Whether a payload runs the user command under the seccomp filter. *)
Definition appliesSeccomp (p : Payload) : bool :=
  match p with
  | NestedSandbox _ _ _ _ _ | ApplySeccomp _ _ _ _ => true
  | _ => false
  end.

Definition usesBridge (p : Payload) : bool :=
  match p with
  | NestedSandbox _ _ _ _ _ | BridgeOnly _ _ _ => true
  | _ => false
  end.

(** The directive of the read stage for one pattern, as a function of what
    [stat] answers for its normalized path. *)
Definition readDirective {W} `{Host W} `{Siblings W} (w : W) (pathPattern : string)
  : list Directive :=
  let normalizedPath := normalizePathForSandbox w pathPattern in
  match statSync w normalizedPath with
  | Some readDenyStat =>
      [if isDirectory readDenyStat then Tmpfs normalizedPath
       else RoBind "/dev/null" normalizedPath]
  | None => []
  end.

(** Between two states of the process: the exit handler stays installed,
    and the registries change only once it is. *)
Definition handlerKept {W} (st st' : Proc W) : Prop :=
  (exitHandlerRegistered st = true -> exitHandlerRegistered st' = true)
  /\ (exitHandlerRegistered st' = true
      \/ (bwrapMountPoints st' = bwrapMountPoints st
          /\ generatedSeccompFilters st' = generatedSeccompFilters st)).

(** ** More JavaScript primitives: [trim] and [parseInt]

    Strings are byte strings here, so the white space is the ASCII part of
    what ECMAScript strips: tab, line feed, vertical tab, form feed,
    carriage return and space. *)

Module JsText.

Definition isWhiteSpace (c : ascii) : bool :=
  let n := nat_of_ascii c in
  ((n =? 32)%nat || ((9 <=? n)%nat && (n <=? 13)%nat))%bool.

Fixpoint trimStart (s : string) : string :=
  match s with
  | EmptyString => EmptyString
  | String c r => if isWhiteSpace c then trimStart r else s
  end.

Fixpoint trimEnd (s : string) : string :=
  match s with
  | EmptyString => EmptyString
  | String c r =>
      match trimEnd r with
      | EmptyString => if isWhiteSpace c then EmptyString else String c EmptyString
      | r' => String c r'
      end
  end.

(** [s.trim()] *)
Definition trim (s : string) : string := trimEnd (trimStart s).

Definition isDigit (c : ascii) : bool :=
  let n := nat_of_ascii c in ((48 <=? n)%nat && (n <=? 57)%nat)%bool.

(** The longest prefix of decimal digits. *)
Fixpoint takeDigits (s : string) : string :=
  match s with
  | EmptyString => EmptyString
  | String c r => if isDigit c then String c (takeDigits r) else EmptyString
  end.

Fixpoint digitsValue (acc : Z) (digits : string) : Z :=
  match digits with
  | EmptyString => acc
  | String c r => digitsValue (10 * acc + Z.of_nat (nat_of_ascii c - 48)) r
  end.

(** [parseInt(s, 10)]: leading white space, an optional sign, then the
    longest run of digits; [None] is [NaN].  The value is exact, as it is
    in JavaScript below 2^53. *)
Definition parseInt10 (s : string) : option Z :=
  let body := trimStart s in
  let signed :=
    match body with
    | String c r =>
        if Ascii.eqb c "-" then ((-1)%Z, r)
        else if Ascii.eqb c "+" then (1%Z, r)
        else (1%Z, body)
    | EmptyString => (1%Z, body)
    end in
  let digits := takeDigits (snd signed) in
  if digits =? EmptyString then None
  else Some (fst signed * digitsValue 0 digits)%Z.

End JsText.

(** ** Dependencies and the network bridge

    The process table, the shell and the random source of the host, and
    the lookup of the pre-generated filter (a sibling module). *)

Inductive Signal := SIG0 | SIGTERM.

Class Processes (W : Type) := {
  (** [execSync(cmd, { shell: '/bin/sh', encoding: 'utf8' })]: the standard
      output, or [None] for a throw *)
  execSync : W -> string -> option (string * W);
  (** [process.kill(pid, signal)], [None] for a throw *)
  processKill : W -> Z -> Signal -> option W;
  (** [randomBytes(n).toString('hex')] *)
  randomBytesHex : W -> nat -> string * W;
  (** the host once [setTimeout(resolve, ms)] has fired *)
  sleep : W -> nat -> W;
  (** [getPreGeneratedBpfPath] of [generate-seccomp-filter.js] *)
  getPreGeneratedBpfPath : W -> option string -> option string
}.

Record LinuxNetworkBridgeContext := mkBridge {
  bridgeHttpSocketPath : string;
  bridgeSocksSocketPath : string;
  httpBridgePid : Z;
  socksBridgePid : Z;
  bridgeHttpProxyPort : nat;
  bridgeSocksProxyPort : nat
}.

Record LinuxDependencyStatus := mkStatus {
  hasBwrap : bool;
  hasSocat : bool;
  hasSeccompBpf : bool;
  hasSeccompApply : bool
}.

Record SandboxDependencyCheck := mkCheck {
  warnings : list string;
  errors : list string
}.

Inductive BridgeError :=
| HttpBridgeStartFailed
| SocksBridgeStartFailed
| BridgeDied
| BridgeSocketsTimeout.

Inductive BridgeResult :=
| BridgeReady (context : LinuxNetworkBridgeContext)
| BridgeFailed (e : BridgeError).

Section Bridge.

Context {W : Type} {host : Host W} {sib : Siblings W} {procs : Processes W}.

(** [x !== null] *)
Definition notNull (o : option string) : bool :=
  match o with Some _ => true | None => false end.

Definition bpfPathOf (seccompConfig : option SeccompConfig) : option string :=
  match seccompConfig with Some c => bpfPath c | None => None end.

Definition applyPathOf (seccompConfig : option SeccompConfig) : option string :=
  match seccompConfig with Some c => applyPath c | None => None end.

Definition getLinuxDependencyStatus (w : W) (seccompConfig : option SeccompConfig)
  : LinuxDependencyStatus :=
  mkStatus (notNull (whichSync w "bwrap"))
           (notNull (whichSync w "socat"))
           (notNull (getPreGeneratedBpfPath w (bpfPathOf seccompConfig)))
           (notNull (getApplySeccompBinaryPath w (applyPathOf seccompConfig))).

Definition checkLinuxDependencies (w : W) (seccompConfig : option SeccompConfig)
  : SandboxDependencyCheck :=
  let errors0 :=
    if negb (notNull (whichSync w "bwrap"))
    then ["bubblewrap (bwrap) not installed"] else [] in
  let errors1 :=
    if negb (notNull (whichSync w "socat"))
    then errors0 ++ ["socat not installed"] else errors0 in
  let hasBpf := notNull (getPreGeneratedBpfPath w (bpfPathOf seccompConfig)) in
  let hasApply := notNull (getApplySeccompBinaryPath w (applyPathOf seccompConfig)) in
  let warnings0 :=
    if negb hasBpf || negb hasApply
    then ["seccomp not available - unix socket access not restricted"] else [] in
  mkCheck warnings0 errors1.

(** [isProcessAlive]: signal 0 probes the process and changes nothing. *)
Definition isProcessAlive (w : W) (pid : Z) : bool :=
  match processKill w pid SIG0 with Some _ => true | None => false end.

(** [spawnDetachedSocat]: [None] for either throw, with the host as the
    shell left it. *)
Definition spawnDetachedSocat (w : W) (socatArgs : list string) : option Z * W :=
  let quotedArgs := quote ("socat" :: socatArgs) in
  let cmd := quotedArgs +++ " &" +++ newline +++ "echo $!" in
  match execSync w cmd with
  | Some (stdout, w') =>
      let output := JsText.trim stdout in
      match JsText.parseInt10 output with
      | Some pid => if (pid <=? 0)%Z then (None, w') else (Some pid, w')
      | None => (None, w')
      end
  | None => (None, w)
  end.

(** [try { process.kill(pid, 'SIGTERM') } catch { }] *)
Definition killQuietly (pid : Z) (w : W) : W :=
  match processKill w pid SIGTERM with Some w' => w' | None => w end.

Definition maxAttempts : nat := 10.

Definition socatArgsFor (socketPath : string) (proxyPort : nat) : list string :=
  [ "UNIX-LISTEN:" +++ socketPath +++ ",fork,reuseaddr";
    "TCP:localhost:" +++ stringOfNat proxyPort
      +++ ",keepalive,keepidle=10,keepintvl=5,keepcnt=3" ].

(** The [for (let i = 0; i < maxAttempts; i++)] loop, [remaining] being
    [maxAttempts - i]; [None] is the loop left without a throw. *)
Fixpoint waitForSockets (remaining i : nat) (httpSocketPath socksSocketPath : string)
  (httpPid socksPid : Z) (w : W) : option BridgeError * W :=
  match remaining with
  | O => (None, w)
  | S remaining' =>
      if negb (isProcessAlive w httpPid) || negb (isProcessAlive w socksPid) then
        (Some BridgeDied, w)
      else if existsSync w httpSocketPath && existsSync w socksSocketPath then
        (None, w)
      else if (i =? maxAttempts - 1)%nat then
        (Some BridgeSocketsTimeout, killQuietly socksPid (killQuietly httpPid w))
      else
        waitForSockets remaining' (S i) httpSocketPath socksSocketPath httpPid socksPid
          (sleep w (100 + i * 100))
  end.

Definition initializeLinuxNetworkBridge (w : W) (httpProxyPort socksProxyPort : nat)
  : BridgeResult * W :=
  let (socketId, w0) := randomBytesHex w 8 in
  let httpSocketPath :=
    Path.join (tmpdir w0) ("claude-http-" +++ socketId +++ ".sock") in
  let socksSocketPath :=
    Path.join (tmpdir w0) ("claude-socks-" +++ socketId +++ ".sock") in
  match spawnDetachedSocat w0 (socatArgsFor httpSocketPath httpProxyPort) with
  | (None, w1) => (BridgeFailed HttpBridgeStartFailed, w1)
  | (Some httpPid, w1) =>
      match spawnDetachedSocat w1 (socatArgsFor socksSocketPath socksProxyPort) with
      | (None, w2) => (BridgeFailed SocksBridgeStartFailed, killQuietly httpPid w2)
      | (Some socksPid, w2) =>
          match waitForSockets maxAttempts 0 httpSocketPath socksSocketPath
                  httpPid socksPid w2 with
          | (Some e, w3) => (BridgeFailed e, w3)
          | (None, w3) =>
              (BridgeReady (mkBridge httpSocketPath socksSocketPath httpPid socksPid
                              httpProxyPort socksProxyPort), w3)
          end
      end
  end.

(** The host after the first [k] waits of the loop, counted from turn [i]. *)
Fixpoint afterWaits (w : W) (i k : nat) : W :=
  match k with
  | O => w
  | S k' => afterWaits (sleep w (100 + i * 100)) (S i) k'
  end.

(** The milliseconds spent in those waits. *)
Fixpoint waited (i k : nat) : nat :=
  match k with
  | O => 0
  | S k' => (100 + i * 100) + waited (S i) k'
  end.

End Bridge.

(** The directives of the filesystem stage. *)
Definition isMount (d : Directive) : bool :=
  match d with
  | Bind _ _ | RoBind _ _ | Tmpfs _ => true
  | _ => false
  end.

(** What the deny stage may mount over: a path within an allowed write
    root, or a mount point recorded for the reaper. *)
Definition denyTarget {W} `{Host W} `{Siblings W} (roots : list string)
  (st' : Proc W) (d : Directive) : Prop :=
  exists src dst,
    d = RoBind src dst
    /\ (isWithin roots dst = true \/ In dst (bwrapMountPoints st')).

Definition isSetenv (d : Directive) : bool :=
  match d with Setenv _ _ => true | _ => false end.

(** What the stages inside the [try] keep: the exit handler as in
    [handlerKept], the filter registry, and every recorded mount point. *)
Definition compileKeeps {W} (st st' : Proc W) : Prop :=
  handlerKept st st'
  /\ generatedSeccompFilters st' = generatedSeccompFilters st
  /\ incl (bwrapMountPoints st) (bwrapMountPoints st').

(** [writeConfig?.allowOnly || []] *)
Definition allowOnlyOf (params : LinuxSandboxParams) : list string :=
  match writeConfig params with Some wc => allowOnly wc | None => [] end.

(** ** A concrete host with processes

    The file system of [Posix] together with a process table, the lines
    the shell will print, and the nodes that appear on the disk during the
    successive waits. *)

Module Machine.

Record State := mkState {
  disk : Posix.World;
  running : list Z;
  shellOutputs : list (option string);
  arriving : list (list (string * Posix.Node))
}.

Definition setDisk (d : Posix.World) (s : State) : State :=
  mkState d (running s) (shellOutputs s) (arriving s).

#[global] Instance host : Host State := {
  statSync := fun s => Posix.stat (disk s);
  lstatSync := fun s => Posix.lstat (disk s);
  realpathSync := fun s => Posix.realpath (disk s);
  readdirSync := fun s => Posix.readdir (disk s);
  unlinkSync := fun s p => option_map (fun d => setDisk d s) (Posix.unlink (disk s) p);
  rmdirSync := fun s p => option_map (fun d => setDisk d s) (Posix.rmdir (disk s) p);
  mkdtempSync := fun s p =>
    option_map (fun r => (fst r, setDisk (snd r) s)) (Posix.mkdtemp (disk s) p);
  cwd := fun s => Posix.workdir (disk s);
  tmpdir := fun s => Posix.tmp (disk s);
  whichSync := fun s name => Posix.lookup name (Posix.binaries (disk s));
  ripGrep := fun s _ _ _ => Posix.scan (disk s);
  quote := Posix.quoteArgs
}.

Definition isRunning (s : State) (pid : Z) : bool := existsb (Z.eqb pid) (running s).

Definition kill (s : State) (pid : Z) (signal : Signal) : option State :=
  if isRunning s pid then
    match signal with
    | SIG0 => Some s
    | SIGTERM =>
        Some (mkState (disk s) (filter (fun q => negb (Z.eqb pid q)) (running s))
                      (shellOutputs s) (arriving s))
    end
  else None.

Definition exec (s : State) (cmd : string) : option (string * State) :=
  match shellOutputs s with
  | Some stdout :: rest => Some (stdout, mkState (disk s) (running s) rest (arriving s))
  | _ => None
  end.

Definition wait (s : State) (ms : nat) : State :=
  match arriving s with
  | now :: later =>
      mkState (Posix.setNodes (Posix.nodes (disk s) ++ now) (disk s)) (running s)
              (shellOutputs s) later
  | [] => s
  end.

#[global] Instance processes : Processes State := {
  execSync := exec;
  processKill := kill;
  randomBytesHex := fun s _ => ("0f1e2d3c4b5a6978", s);
  sleep := wait;
  getPreGeneratedBpfPath := fun s _ => Posix.filter_ (disk s)
}.

Definition httpSocket : string := "/tmp/claude-http-0f1e2d3c4b5a6978.sock".

Definition socksSocket : string := "/tmp/claude-socks-0f1e2d3c4b5a6978.sock".

Definition plainDisk : Posix.World :=
  Posix.mkWorld [("/tmp", Posix.Dir)] "/tmp" "/tmp" 0 [] (Some []) None None.

(** Both relays start and their sockets appear during the first wait. *)
Definition ready : State :=
  mkState plainDisk [4242%Z; 4243%Z]
          [Some ("4242" +++ newline); Some ("4243" +++ newline)]
          [[(httpSocket, Posix.File 0); (socksSocket, Posix.File 0)]].

(** The second shell call fails. *)
Definition socksFails : State :=
  mkState plainDisk [4242%Z] [Some ("4242" +++ newline); None] [].

(** Both relays run, the sockets never appear. *)
Definition stuck : State :=
  mkState plainDisk [4242%Z; 4243%Z]
          [Some ("4242" +++ newline); Some ("4243" +++ newline)] [].

(** The second relay is gone by the first check. *)
Definition halfDead : State :=
  mkState plainDisk [4242%Z]
          [Some ("4242" +++ newline); Some ("4243" +++ newline)] [].

#[global] Instance siblings : Siblings State := {
  normalizePathForSandbox := fun s p => Posix.keepSlashNormalizer (disk s) p;
  normalizeCaseForComparison := Js.toLowerCase;
  isSymlinkOutsideBoundary := Posix.symlinkWidens;
  DANGEROUS_FILES := Posix.dangerousFiles;
  getDangerousDirectories := Posix.dangerousDirectories;
  generateProxyEnvVars := Posix.proxyEnvVars;
  generateSeccompFilter := fun s _ => (Posix.filter_ (disk s), s);
  getApplySeccompBinaryPath := fun s _ => Posix.applyBinary (disk s);
  cleanupSeccompFilter := fun s f =>
    option_map (fun d => setDisk d s) (Posix.removeFilter (disk s) f)
}.

(** The compiler called with the sockets of the bridge just started. *)
Definition bridgedParams : LinuxSandboxParams :=
  mkParams "curl example.com" true (Some httpSocket) (Some socksSocket)
           (Some 3129) (Some 1081) None None false true None None None None None.

End Machine.

(** ** Runs of the compiler on the concrete hosts *)

Module Cases.

Definition valueOr {A} (d : A) (r : Result A) : A :=
  match r with Ok a => a | _ => d end.

Definition compositeOf (r : Result Wrapped) : Composite :=
  match r with
  | Ok (Sandboxed c) => c
  | _ => mkComposite [] EmptyString (DirectCommand EmptyString)
  end.

(** The deny artifacts of [ghostPolicy], with a read policy naming a
    directory, a file and a path that does not exist. *)
Definition readPolicy : FsReadRestrictionConfig :=
  mkRead ["/usr/bin"; "/usr/bin/bash"; "/nowhere"].

Definition ghostRun : Result (list Directive) * Proc Posix.World :=
  generateFilesystemArgs (Some readPolicy) (Some Scenario.ghostPolicy)
    defaultRipgrepConfig 3 false (Scenario.fresh Scenario.ghostHost).

(** The scope-widening link as the only allow entry. *)
Definition onlyEvil : FsWriteRestrictionConfig :=
  mkWrite ["/tmp/T/user_area/evil"] ["/tmp/T/user_area/evil/x"].

Definition evilRun : Result (list Directive) * Proc Posix.World :=
  generateFilesystemArgs None (Some Scenario.evilPolicy)
    defaultRipgrepConfig 3 false (Scenario.fresh Scenario.evilHost).

Definition bridgeRun : Result Wrapped * Proc Posix.World :=
  wrapCommandWithSandboxLinux_plan Scenario.bridgeParams
    (Scenario.fresh Scenario.bridgeHost).

(** A filter generated at run time on a host without the shell asked
    for. *)
Definition runtimeFilterHost : Posix.World :=
  Posix.mkWorld (Scenario.baseNodes ++ [("/w", Posix.Dir); ("/tmp/gen.bpf", Posix.File 64)])
    "/w" "/tmp" 0 [("bash", "/usr/bin/bash")] (Some [])
    (Some "/tmp/gen.bpf") (Some "/opt/srt/apply-seccomp").

Definition runtimeFilterParams : LinuxSandboxParams :=
  mkParams "echo hello" false None None None None None
           (Some (mkWrite ["/w"] ["/w/.env"])) false false (Some "zsh") None None None None.

Definition runtimeFilterRun : Result string * Proc Posix.World :=
  wrapCommandWithSandboxLinux runtimeFilterParams (Scenario.fresh runtimeFilterHost).

(** A normalizer whose results are all absolute. *)
Definition rootedSiblings : Siblings Posix.World :=
  Posix.siblingsWith (fun _ p => if Path.isAbsolute p then p else "/").

End Cases.

(** * Properties *)

(** ** Path primitives on examples *)

Example split_abs : Js.split "/a/b" = [EmptyString; "a"; "b"].
Proof. reflexivity. Qed.

Example trim_slashes : Js.trimTrailingSlashes "/tmp/T/user_area//" = "/tmp/T/user_area".
Proof. reflexivity. Qed.

Example dirname_plain : Path.dirname "/a/b/c.txt" = "/a/b".
Proof. reflexivity. Qed.

Example dirname_top : Path.dirname "/a" = "/".
Proof. reflexivity. Qed.

Example dirname_double : Path.dirname "/a//b" = "/a/".
Proof. reflexivity. Qed.

Example dirname_trailing : Path.dirname "/a/b/" = "/a".
Proof. reflexivity. Qed.

Example dirname_dot : Path.dirname "." = ".".
Proof. reflexivity. Qed.

Example resolve_rel : Path.resolve "/home/u/proj" ".git/hooks" = "/home/u/proj/.git/hooks".
Proof. reflexivity. Qed.

Example resolve_dot : Path.resolve "/home/u/proj" "." = "/home/u/proj".
Proof. reflexivity. Qed.

Example join_hooks : Path.join "/home/u/proj/sub/.git" "hooks" = "/home/u/proj/sub/.git/hooks".
Proof. reflexivity. Qed.

(** ** The ancestor loop terminates or runs for ever *)

Lemma dropSlashes_length l : List.length (Path.dropSlashes l) <= List.length l.
Proof.
  induction l as [| c l IH]; cbn; [lia |]. destruct (Ascii.eqb c "/"); cbn; lia.
Qed.

Lemma dropPart_length l : List.length (Path.dropPart l) <= List.length l.
Proof.
  induction l as [| c l IH]; cbn; [lia |]. destruct (Ascii.eqb c "/"); cbn; lia.
Qed.

Lemma length_of_list l : String.length (string_of_list_ascii l) = List.length l.
Proof. induction l as [| c l IH]; cbn; [reflexivity | now rewrite IH]. Qed.

Lemma length_list_of s : List.length (list_ascii_of_string s) = String.length s.
Proof. induction s as [| c s IH]; cbn; [reflexivity | now rewrite IH]. Qed.

(** [path.dirname] ends at [/], [.] or [//], or shortens the path. *)
Lemma dirname_shrinks p :
  Path.dirname p = "/" \/ Path.dirname p = "." \/ Path.dirname p = "//"
  \/ String.length (Path.dirname p) < String.length p.
Proof.
  unfold Path.dirname. rewrite <- (length_list_of p).
  destruct (list_ascii_of_string p) as [| c0 tl]; [now right; left |].
  pose proof (dropPart_length (Path.dropSlashes (rev tl))) as H1.
  pose proof (dropSlashes_length (rev tl)) as H2. rewrite length_rev in H2.
  destruct (Path.dropPart (Path.dropSlashes (rev tl))) as [| s before].
  - destruct (Ascii.eqb c0 "/"); [now left | now right; left].
  - cbn [List.length] in H1. destruct before as [| b before'].
    + destruct (Ascii.eqb c0 "/"); [now right; right; left |].
      right. right. right. cbn. lia.
    + right. right. right. rewrite length_of_list. cbn [List.length] in *.
      rewrite length_rev. cbn [List.length]. lia.
Qed.

Lemma isAbsolute_cons c s :
  Path.isAbsolute (String c s) = true <-> c = "/"%char.
Proof.
  unfold Path.isAbsolute, Js.startsWith. cbn [String.prefix].
  destruct (ascii_dec "/" c) as [E | Hne].
  - split; [intros _; now symmetry | intros _; now destruct s].
  - split; [discriminate |]. intro E. now contradiction Hne.
Qed.

Lemma dirname_absolute p :
  Path.isAbsolute p = true -> Path.isAbsolute (Path.dirname p) = true.
Proof.
  destruct p as [| c0 tl]; [discriminate |].
  intro H. apply isAbsolute_cons in H. subst c0.
  unfold Path.dirname. cbn [list_ascii_of_string].
  destruct (Path.dropPart _) as [| s [| b before]]; try reflexivity.
  cbn [string_of_list_ascii]. now apply isAbsolute_cons.
Qed.

Section AncestorLoop.

Context {W : Type} {host : Host W}.

Lemma ancestorLoop_more (w : W) fuel : forall a r,
  ancestorLoop w fuel a = Some r -> ancestorLoop w (S fuel) a = Some r.
Proof.
  induction fuel as [| fuel IH]; intros a r; cbn [ancestorLoop].
  - destruct ((a =? "/") || existsSync w a); [auto | discriminate].
  - destruct ((a =? "/") || existsSync w a); [auto |]. apply IH.
Qed.

Lemma ancestorLoop_here (w : W) fuel a :
  existsSync w a = true -> ancestorLoop w fuel a = Some a.
Proof. intro H. destruct fuel; cbn [ancestorLoop]; now rewrite H, orb_true_r. Qed.

Lemma ancestorLoop_root (w : W) fuel : ancestorLoop w fuel "/" = Some "/".
Proof. destruct fuel; reflexivity. Qed.

Lemma ancestorLoop_step (w : W) fuel a :
  (a =? "/") || existsSync w a = false ->
  ancestorLoop w (S fuel) a = ancestorLoop w fuel (Path.dirname a).
Proof. intro H. cbn [ancestorLoop]. now rewrite H. Qed.

Lemma ancestorLoop_out (w : W) a :
  (a =? "/") || existsSync w a = false -> ancestorLoop w 0 a = None.
Proof. intro H. cbn [ancestorLoop]. now rewrite H. Qed.

Lemma ancestorLoop_dot (w : W) :
  existsSync w "." = false -> forall fuel, ancestorLoop w fuel "." = None.
Proof.
  intros Hdot fuel.
  assert (H : ("." =? "/") || existsSync w "." = false) by now rewrite Hdot.
  induction fuel as [| fuel IH]; [now apply ancestorLoop_out |].
  rewrite (ancestorLoop_step _ _ _ H). exact IH.
Qed.

(** A path the loop has to leave: either its parent decides, or nothing
    ever does. *)
Lemma ancestorLoop_parent (w : W) fuel a :
  (a =? "/") || existsSync w a = false ->
  ((exists r, ancestorLoop w fuel (Path.dirname a) = Some r)
   \/ (forall f, ancestorLoop w f (Path.dirname a) = None)) ->
  (exists r, ancestorLoop w (S fuel) a = Some r)
  \/ (forall f, ancestorLoop w f a = None).
Proof.
  intros E [[r Hr] | Hn].
  - left. exists r. now rewrite (ancestorLoop_step _ _ _ E).
  - right. intros [| f]; [now apply ancestorLoop_out |].
    rewrite (ancestorLoop_step _ _ _ E). apply Hn.
Qed.

Lemma ancestorLoop_at_dot (w : W) fuel :
  (exists r, ancestorLoop w fuel "." = Some r)
  \/ (forall f, ancestorLoop w f "." = None).
Proof.
  destruct (existsSync w ".") eqn:Ed.
  - left. exists ".". now apply ancestorLoop_here.
  - right. now apply ancestorLoop_dot.
Qed.

(** With fuel for the length of the path and two more turns, the loop has
    either found its answer or entered the cycle at a missing [.], where no
    amount of fuel helps. *)
Lemma ancestorLoop_decided (w : W) n : forall a,
  String.length a <= n ->
  (exists r, ancestorLoop w (n + 2) a = Some r)
  \/ (forall fuel, ancestorLoop w fuel a = None).
Proof.
  induction n as [| n IH]; intros a Hlen;
    (destruct ((a =? "/") || existsSync w a) eqn:E;
     [ left; exists a; apply orb_true_iff in E as [E | E];
       [ apply String.eqb_eq in E; subst a; apply ancestorLoop_root
       | now apply ancestorLoop_here ]
     | ]).
  - destruct a; [| cbn in Hlen; lia].
    change (0 + 2) with (S 1). apply ancestorLoop_parent; [exact E |].
    change (Path.dirname EmptyString) with ".". apply ancestorLoop_at_dot.
  - replace (S n + 2) with (S (n + 2)) by lia.
    apply ancestorLoop_parent; [exact E |].
    destruct (dirname_shrinks a) as [Hd | [Hd | [Hd | Hd]]].
    + left. rewrite Hd. exists "/". apply ancestorLoop_root.
    + rewrite Hd. apply ancestorLoop_at_dot.
    + rewrite Hd. replace (n + 2) with (S (n + 1)) by lia.
      destruct (("//" =? "/") || existsSync w "//") eqn:E2.
      * left. exists "//". apply ancestorLoop_here.
        apply orb_true_iff in E2 as [E2 | E2]; [discriminate | exact E2].
      * apply ancestorLoop_parent; [exact E2 |].
        left. exists "/". change (Path.dirname "//") with "/". apply ancestorLoop_root.
    + apply IH. lia.
Qed.

(** The fuel [nearestExistingAncestor] gives the loop is enough: [None]
    means the loop of the source never exits. *)
Lemma nearestExistingAncestor_diverges (w : W) p :
  nearestExistingAncestor w p = None ->
  forall fuel, ancestorLoop w fuel (Path.dirname p) = None.
Proof.
  unfold nearestExistingAncestor. intro H.
  destruct (dirname_shrinks p) as [Hd | [Hd | [Hd | Hd]]].
  - rewrite Hd, ancestorLoop_root in H. discriminate.
  - rewrite Hd in *. destruct (ancestorLoop_at_dot w (String.length p + 2)) as [[r Hr] | Hn];
      [congruence | exact Hn].
  - rewrite Hd in *.
    destruct (ancestorLoop_decided w 2 "//") as [[r Hr] | Hn]; [cbn; lia | | exact Hn].
    exfalso. clear Hr.
    replace (String.length p + 2) with (S (S (String.length p))) in H by lia.
    destruct (("//" =? "/") || existsSync w "//") eqn:E2.
    + apply orb_true_iff in E2 as [E2 | E2]; [discriminate |].
      rewrite (ancestorLoop_here _ _ _ E2) in H. discriminate.
    + rewrite (ancestorLoop_step _ _ _ E2) in H.
      change (Path.dirname "//") with "/" in H. rewrite ancestorLoop_root in H.
      discriminate.
  - destruct (ancestorLoop_decided w (String.length p) (Path.dirname p)) as [[r Hr] | Hn];
      [lia | congruence | exact Hn].
Qed.

(** For an absolute path the loop always ends. *)
Lemma ancestorLoop_absolute (w : W) n : forall a,
  String.length a <= n ->
  Path.isAbsolute a = true ->
  exists r, ancestorLoop w (n + 2) a = Some r.
Proof.
  intros a Hlen Habs.
  destruct (ancestorLoop_decided w n a Hlen) as [H | Hnone]; [exact H | exfalso].
  revert a Hlen Habs Hnone. induction n as [| n IH]; intros a Hlen Habs Hnone.
  - destruct a; [discriminate | cbn in Hlen; lia].
  - destruct ((a =? "/") || existsSync w a) eqn:E.
    + specialize (Hnone 0). cbn [ancestorLoop] in Hnone. rewrite E in Hnone. discriminate.
    + assert (Hp : forall f, ancestorLoop w f (Path.dirname a) = None).
      { intro f. rewrite <- (ancestorLoop_step _ _ _ E). apply Hnone. }
      pose proof (dirname_absolute a Habs) as Hda.
      destruct (dirname_shrinks a) as [Hd | [Hd | [Hd | Hd]]].
      * rewrite Hd in Hp. specialize (Hp 0). discriminate.
      * rewrite Hd in Hda. discriminate.
      * rewrite Hd in Hp. specialize (Hp 1). cbn [ancestorLoop] in Hp.
        destruct (("//" =? "/") || existsSync w "//"); discriminate.
      * apply (IH (Path.dirname a)); [lia | exact Hda | exact Hp].
Qed.

Lemma nearestExistingAncestor_absolute (w : W) p :
  Path.isAbsolute p = true ->
  exists a, nearestExistingAncestor w p = Some a.
Proof.
  intro Habs. unfold nearestExistingAncestor.
  destruct (dirname_shrinks p) as [Hd | [Hd | [Hd | Hd]]].
  - rewrite Hd, ancestorLoop_root. eauto.
  - pose proof (dirname_absolute p Habs) as H. rewrite Hd in H. discriminate.
  - rewrite Hd. replace (String.length p + 2) with (S (S (String.length p))) by lia.
    destruct (("//" =? "/") || existsSync w "//") eqn:E2.
    + apply orb_true_iff in E2 as [E2 | E2]; [discriminate |].
      exists "//". now apply ancestorLoop_here.
    + rewrite (ancestorLoop_step _ _ _ E2). change (Path.dirname "//") with "/".
      rewrite ancestorLoop_root. eauto.
  - apply ancestorLoop_absolute; [lia | now apply dirname_absolute].
Qed.

End AncestorLoop.

(** ** The monad *)

Section Facts.

Context {W : Type} {host : Host W} {sib : Siblings W}.

Lemma bind_ok {A B} (m : M W A) (k : A -> M W B) st b st' :
  bind m k st = (Ok b, st') ->
  exists a st1, m st = (Ok a, st1) /\ k a st1 = (Ok b, st').
Proof.
  unfold bind. destruct (m st) as [[a | e |] st1]; intro H; try discriminate.
  exists a, st1. split; [reflexivity | exact H].
Qed.

Lemma bind_throw {A B} (m : M W A) (k : A -> M W B) st e st' :
  bind m k st = (Throw e, st') ->
  m st = (Throw e, st')
  \/ exists a st1, m st = (Ok a, st1) /\ k a st1 = (Throw e, st').
Proof.
  unfold bind. destruct (m st) as [[a | e0 |] st1]; intro H; try discriminate.
  - right. exists a, st1. split; [reflexivity | exact H].
  - left. injection H as -> ->. reflexivity.
Qed.

(** ** The allow stage *)

Lemma allowStep_spec (w : W) acc pathPattern :
  allowStep w acc pathPattern
  = let n := normalizePathForSandbox w pathPattern in
    if allowKept w n then (fst acc ++ [Bind n n], snd acc ++ [n]) else acc.
Proof.
  unfold allowStep, allowKept, skippedAsWidening. cbv zeta.
  destruct (Js.startsWith _ "/dev/"); [reflexivity |].
  destruct (existsSync w _); [| reflexivity]. cbn [negb andb].
  destruct (realpathSync w _) as [r |]; [| reflexivity].
  destruct (negb (r =? _) && _); reflexivity.
Qed.

Lemma allow_fold (w : W) allow acc :
  fold_left (allowStep w) allow acc
  = (fst acc ++ map (fun n => Bind n n) (keptPaths w allow),
     snd acc ++ keptPaths w allow).
Proof.
  revert acc. induction allow as [| a allow IH]; intros [args roots].
  - cbn. now rewrite !app_nil_r.
  - cbn [fold_left]. rewrite IH, allowStep_spec. unfold keptPaths. cbn [map filter].
    cbv zeta. destruct (allowKept w (normalizePathForSandbox w a)); cbn [fst snd map].
    + now rewrite <- !app_assoc.
    + reflexivity.
Qed.

(** ** Registries *)

Lemma setAdd_in x s : In x (setAdd x s).
Proof. apply set_add_intro2. reflexivity. Qed.

Lemma setAdd_keeps x y s : In y s -> In y (setAdd x s).
Proof. apply set_add_intro1. Qed.

Lemma register_mountPoints (st : Proc W) :
  bwrapMountPoints (registerExitCleanupHandler st) = bwrapMountPoints st.
Proof. unfold registerExitCleanupHandler. now destruct (exitHandlerRegistered st). Qed.

Lemma register_filters (st : Proc W) :
  generatedSeccompFilters (registerExitCleanupHandler st) = generatedSeccompFilters st.
Proof. unfold registerExitCleanupHandler. now destruct (exitHandlerRegistered st). Qed.

Lemma register_world (st : Proc W) :
  world (registerExitCleanupHandler st) = world st.
Proof. unfold registerExitCleanupHandler. now destruct (exitHandlerRegistered st). Qed.

Lemma register_flag (st : Proc W) :
  exitHandlerRegistered (registerExitCleanupHandler st) = true.
Proof.
  unfold registerExitCleanupHandler.
  destruct (exitHandlerRegistered st) eqn:E; [exact E | reflexivity].
Qed.

(** ** The deny stage, one path *)

Ltac registration :=
  cbn [fst snd]; apply DenyArtifact;
  [ rewrite register_mountPoints; apply setAdd_in
  | rewrite register_mountPoints; intros ? ?; now apply setAdd_keeps
  | now rewrite register_filters
  | apply register_flag ].

Lemma denyStep_outcome roots args p (st : Proc W) :
  DenyOutcome args st (fst (denyStep roots args p st)) (snd (denyStep roots args p st)).
Proof.
  unfold denyStep. cbv zeta.
  destruct (Js.startsWith _ "/dev/"); [constructor |].
  destruct (findSymlinkInPath _ _ _); [constructor |].
  destruct (negb (existsSync _ _)).
  2:{ destruct (isWithin _ _); constructor. }
  destruct (hasFileAncestor _ _); [constructor |].
  destruct (nearestExistingAncestor _ _); [| constructor].
  destruct (ancestorIsWithinAllowedPath _ _ _); [| constructor].
  destruct (negb (_ =? _)).
  - destruct (mkdtempSync _ _) as [[d w'] |]; [registration | constructor].
  - registration.
Qed.

(** What the deny loop adds: read-only binds after the ones it was given;
    the registries only grow. *)
Lemma denyLoop_ok roots denyPaths : forall args (st : Proc W) args' st',
  denyLoop roots denyPaths args st = (Ok args', st') ->
  exists extra,
    args' = args ++ extra /\ Forall notBind extra
    /\ incl (bwrapMountPoints st) (bwrapMountPoints st')
    /\ generatedSeccompFilters st' = generatedSeccompFilters st.
Proof.
  induction denyPaths as [| p rest IH]; intros args st args' st' H.
  - cbn in H. injection H as <- <-. exists []. rewrite app_nil_r.
    repeat split; auto using incl_refl.
  - cbn [denyLoop] in H. apply bind_ok in H as (a1 & st1 & H1 & H2).
    pose proof (denyStep_outcome roots args p st) as O. rewrite H1 in O. cbn in O.
    apply IH in H2 as (extra & -> & Hnb & Hincl & Hf).
    inversion O; subst.
    + exists extra. repeat split; auto.
    + exists (RoBind src dst :: extra). rewrite <- app_assoc. repeat split; auto.
      constructor; [reflexivity | exact Hnb].
    + exists (RoBind src dst :: extra). rewrite <- app_assoc. repeat split; auto.
      * constructor; [reflexivity | exact Hnb].
      * eapply incl_tran; eassumption.
      * congruence.
Qed.

(** The deny loop stops only as one of its turns does. *)
Lemma denyLoop_throw roots denyPaths : forall args (st : Proc W) e st',
  denyLoop roots denyPaths args st = (Throw e, st') ->
  e = HostFailure "mkdtempSync".
Proof.
  induction denyPaths as [| p rest IH]; intros args st e st' H.
  - discriminate.
  - cbn [denyLoop] in H. apply bind_throw in H as [H | (a1 & st1 & H1 & H2)].
    + pose proof (denyStep_outcome roots args p st) as O. rewrite H in O. cbn in O.
      inversion O. reflexivity.
    + eapply IH; eassumption.
Qed.

(** ** The read stage *)

Lemma readStep_cases args p (st : Proc W) :
  readStep args p st = (Ok args, st)
  \/ (exists n, readStep args p st = (Ok (args ++ [Tmpfs n]), st))
  \/ (exists n, readStep args p st = (Ok (args ++ [RoBind "/dev/null" n]), st)).
Proof.
  unfold readStep, existsSync. cbv zeta.
  destruct (statSync _ _) as [s |]; cbn [negb]; [| now left].
  destruct (isDirectory s); [right; left | right; right]; eexists; reflexivity.
Qed.

Lemma readLoop_ok paths : forall args (st : Proc W),
  exists extra,
    readLoop paths args st = (Ok (args ++ extra), st) /\ Forall notBind extra.
Proof.
  induction paths as [| p rest IH]; intros args st.
  - exists []. cbn. now rewrite app_nil_r.
  - cbn [readLoop]. unfold bind.
    destruct (readStep_cases args p st) as [H | [[n H] | [n H]]]; rewrite H.
    + apply IH.
    + destruct (IH (args ++ [Tmpfs n]) st) as (extra & -> & Hnb).
      exists (Tmpfs n :: extra). rewrite <- app_assoc. split; [reflexivity |].
      constructor; [reflexivity | exact Hnb].
    + destruct (IH (args ++ [RoBind "/dev/null" n]) st) as (extra & -> & Hnb).
      exists (RoBind "/dev/null" n :: extra). rewrite <- app_assoc. split; [reflexivity |].
      constructor; [reflexivity | exact Hnb].
Qed.

(** ** [generateFilesystemArgs] as a whole *)

Lemma writeStage_ok wc rg depth git (st : Proc W) args roots st' :
  writeStage (Some wc) rg depth git st = (Ok (args, roots), st') ->
  roots = keptPaths (world st) (allowOnly wc)
  /\ exists extra,
       args = (RoBind "/" "/" :: map (fun n => Bind n n) roots) ++ extra
       /\ Forall notBind extra.
Proof.
  unfold writeStage. rewrite allow_fold. cbn [fst snd app].
  intro H. apply bind_ok in H as (a1 & st1 & H1 & H2).
  injection H2 as <- <- <-.
  apply denyLoop_ok in H1 as (extra & -> & Hnb & _).
  split; [reflexivity |]. now exists extra.
Qed.

Lemma generateFilesystemArgs_ok rc wc rg depth git (st : Proc W) args st' :
  generateFilesystemArgs rc (Some wc) rg depth git st = (Ok args, st') ->
  exists extra,
    args = (RoBind "/" "/"
            :: map (fun n => Bind n n) (keptPaths (world st) (allowOnly wc))) ++ extra
    /\ Forall notBind extra.
Proof.
  unfold generateFilesystemArgs. intro H.
  apply bind_ok in H as ([a1 roots] & st1 & H1 & H2).
  apply writeStage_ok in H1 as (-> & extra & -> & Hnb). cbn [fst] in H2.
  destruct (readLoop_ok (readDenyPathsOf (world st1) rc)
              ((RoBind "/" "/"
                :: map (fun n => Bind n n) (keptPaths (world st) (allowOnly wc))) ++ extra)
              st1) as (extra2 & E & Hnb2).
  rewrite E in H2. injection H2 as <- <-.
  exists (extra ++ extra2). rewrite app_assoc. split; [reflexivity |].
  apply Forall_app. now split.
Qed.

Lemma bind_in_compiled rc wc rg depth git (st : Proc W) args st' src dst :
  generateFilesystemArgs rc (Some wc) rg depth git st = (Ok args, st') ->
  In (Bind src dst) args <->
  src = dst /\ In src (keptPaths (world st) (allowOnly wc)).
Proof.
  intro H. apply generateFilesystemArgs_ok in H as (extra & -> & Hnb). split.
  - intro Hin. apply in_app_or in Hin as [Hin | Hin].
    + destruct Hin as [Hin | Hin]; [discriminate |].
      apply in_map_iff in Hin as (n & E & Hn). injection E as <- <-. now split.
    + rewrite Forall_forall in Hnb. apply Hnb in Hin. discriminate.
  - intros [<- Hin]. apply in_or_app. left. right.
    apply in_map_iff. now exists src.
Qed.




(** ** Deny paths that do not exist *)

Lemma denyLoop_keeps roots rest args (st : Proc W) argsF stF d m :
  denyLoop roots rest args st = (Ok argsF, stF) ->
  (In d args -> In d argsF)
  /\ (In m (bwrapMountPoints st) -> In m (bwrapMountPoints stF)).
Proof.
  intro H. apply denyLoop_ok in H as (extra & -> & _ & Hincl & _). split.
  - intro Hd. apply in_or_app. now left.
  - apply Hincl.
Qed.

(** C3 (as amended). For a deny path that is outside [/dev/], has no
    symbolic-link component inside an allowed root and does not exist: when
    no existing component is a file and the nearest existing ancestor is
    within an allowed root (or the path is textually under one), the turn
    emits [--ro-bind /dev/null c] if the first missing component [c] is the
    path itself, and [--ro-bind d c] for the directory [d] that [mkdtemp]
    has just created if it is not; in both cases [c] joins the mount-point
    registry and the exit handler is installed, and the rest of the loop
    keeps both the directive and the registration.  With a file ancestor,
    or with the ancestor outside every allowed root, the turn emits nothing
    and changes nothing. *)
Theorem nonexistent_deny_path_artifact
  roots args (st : Proc W) (p n : string) :
  normalizePathForSandbox (world st) p = n ->
  Js.startsWith n "/dev/" = false ->
  findSymlinkInPath (world st) n roots = None ->
  existsSync (world st) n = false ->
  (hasFileAncestor (world st) n = false ->
   forall anc,
     nearestExistingAncestor (world st) n = Some anc ->
     ancestorIsWithinAllowedPath roots anc n = true ->
     (findFirstNonExistentComponent (world st) n = n ->
      exists st',
        denyStep roots args p st = (Ok (args ++ [RoBind "/dev/null" n]), st')
        /\ world st' = world st
        /\ In n (bwrapMountPoints st')
        /\ exitHandlerRegistered st' = true
        /\ forall rest argsF stF,
             denyLoop roots rest (args ++ [RoBind "/dev/null" n]) st' = (Ok argsF, stF) ->
             In (RoBind "/dev/null" n) argsF /\ In n (bwrapMountPoints stF))
     /\ (findFirstNonExistentComponent (world st) n <> n ->
         forall d w',
           mkdtempSync (world st) (Path.join (tmpdir (world st)) "claude-empty-")
           = Some (d, w') ->
           exists st',
             denyStep roots args p st
             = (Ok (args ++ [RoBind d (findFirstNonExistentComponent (world st) n)]), st')
             /\ world st' = w'
             /\ In (findFirstNonExistentComponent (world st) n) (bwrapMountPoints st')
             /\ exitHandlerRegistered st' = true
             /\ forall rest argsF stF,
                  denyLoop roots rest
                    (args ++ [RoBind d (findFirstNonExistentComponent (world st) n)]) st'
                  = (Ok argsF, stF) ->
                  In (RoBind d (findFirstNonExistentComponent (world st) n)) argsF
                  /\ In (findFirstNonExistentComponent (world st) n)
                        (bwrapMountPoints stF)))
  /\ (hasFileAncestor (world st) n = true ->
      denyStep roots args p st = (Ok args, st))
  /\ (hasFileAncestor (world st) n = false ->
      forall anc,
        nearestExistingAncestor (world st) n = Some anc ->
        ancestorIsWithinAllowedPath roots anc n = false ->
        denyStep roots args p st = (Ok args, st)).
Proof.
  intros Hn Hdev Hsym Hex. split; [| split].
  - intros Hfile anc Hanc Hwithin. split.
    + intro Hc.
      eexists. split; [| split; [| split; [| split]]].
      * unfold denyStep. cbv zeta.
        rewrite Hn, Hdev, Hsym, Hex, Hfile, Hanc, Hwithin, Hc, String.eqb_refl.
        cbn [negb]. reflexivity.
      * now rewrite register_world.
      * rewrite register_mountPoints. apply setAdd_in.
      * apply register_flag.
      * intros rest argsF stF H.
        eapply denyLoop_keeps in H. destruct H as [Hd Hm]. split.
        -- apply Hd. apply in_or_app. right. now left.
        -- apply Hm. rewrite register_mountPoints. apply setAdd_in.
    + intros Hc d w' Hmk.
      eexists. split; [| split; [| split; [| split]]].
      * unfold denyStep. cbv zeta.
        rewrite Hn, Hdev, Hsym, Hex, Hfile, Hanc, Hwithin.
        apply String.eqb_neq in Hc. rewrite Hc. cbn [negb]. rewrite Hmk. reflexivity.
      * now rewrite register_world.
      * rewrite register_mountPoints. apply setAdd_in.
      * apply register_flag.
      * intros rest argsF stF H.
        eapply denyLoop_keeps in H. destruct H as [Hd Hm]. split.
        -- apply Hd. apply in_or_app. right. now left.
        -- apply Hm. rewrite register_mountPoints. apply setAdd_in.
  - intro Hfile. unfold denyStep. cbv zeta.
    now rewrite Hn, Hdev, Hsym, Hex, Hfile.
  - intros Hfile anc Hanc Hout. unfold denyStep. cbv zeta.
    now rewrite Hn, Hdev, Hsym, Hex, Hfile, Hanc, Hout.
Qed.

(** ** The reaper *)

Lemma cleanup_turn (mountPoint : string) (st : Proc W) :
  tryCatch (cleanupAttempt mountPoint) (fun _ => ret tt) st
  = (Ok tt, setWorld (reaped (world st) mountPoint) st).
Proof.
  assert (Hsame : setWorld (world st) st = st) by now destruct st.
  unfold tryCatch, cleanupAttempt, reaped, hostCall, ret, orDefault.
  destruct (statSync _ _) as [s |]; cbn; [| now rewrite Hsame].
  destruct (isFile s && _).
  - destruct (unlinkSync _ _); cbn; now rewrite ?Hsame.
  - destruct (isDirectory s); [| now rewrite Hsame].
    destruct (readdirSync _ _) as [[| x l] |]; cbn; try now rewrite Hsame.
    destruct (rmdirSync _ _); cbn; now rewrite ?Hsame.
Qed.

Lemma cleanup_loop mountPoints : forall (st : Proc W),
  forEach (fun mountPoint => tryCatch (cleanupAttempt mountPoint) (fun _ => ret tt))
          mountPoints st
  = (Ok tt, setWorld (fold_left reaped mountPoints (world st)) st).
Proof.
  induction mountPoints as [| m rest IH]; intro st.
  - cbn. now destruct st.
  - cbn [forEach fold_left]. unfold bind. rewrite cleanup_turn, IH. reflexivity.
Qed.

Lemma cleanupBwrapMountPoints_spec (st : Proc W) :
  cleanupBwrapMountPoints st
  = (Ok tt, mkProc (fold_left reaped (bwrapMountPoints st) (world st)) []
                   (generatedSeccompFilters st) (exitHandlerRegistered st)).
Proof.
  unfold cleanupBwrapMountPoints, bind. rewrite cleanup_loop. reflexivity.
Qed.


(** ** Registry discipline *)

Lemma exit_loop filters : forall (st : Proc W),
  forEach (fun filterPath =>
             tryCatch (hostCall "cleanupSeccompFilter"
                         (fun w => cleanupSeccompFilter w filterPath))
                      (fun _ => ret tt))
          filters st
  = (Ok tt, setWorld (fold_left filterCleaned filters (world st)) st).
Proof.
  induction filters as [| f rest IH]; intro st.
  - cbn. now destruct st.
  - cbn [forEach fold_left]. unfold bind.
    assert (E : tryCatch (hostCall "cleanupSeccompFilter"
                            (fun w => cleanupSeccompFilter w f)) (fun _ => ret tt) st
                = (Ok tt, setWorld (filterCleaned (world st) f) st)).
    { unfold tryCatch, hostCall, filterCleaned, orDefault, ret.
      destruct (cleanupSeccompFilter _ _); [reflexivity | now destruct st]. }
    rewrite E, IH. reflexivity.
Qed.

Lemma exitHandler_spec (st : Proc W) :
  exitHandler st
  = (Ok tt,
     mkProc (fold_left reaped (bwrapMountPoints st)
               (fold_left filterCleaned (generatedSeccompFilters st) (world st)))
            [] (generatedSeccompFilters st) (exitHandlerRegistered st)).
Proof.
  unfold exitHandler, bind. rewrite exit_loop, cleanupBwrapMountPoints_spec. reflexivity.
Qed.

Lemma denyStep_world roots args p (st : Proc W) :
  world (snd (denyStep roots args p st)) <> world st ->
  exists d,
    mkdtempSync (world st) (Path.join (tmpdir (world st)) "claude-empty-")
    = Some (d, world (snd (denyStep roots args p st)))
    /\ fst (denyStep roots args p st)
       = Ok (args ++ [RoBind d (findFirstNonExistentComponent (world st)
                                  (normalizePathForSandbox (world st) p))])
    /\ In (findFirstNonExistentComponent (world st)
             (normalizePathForSandbox (world st) p))
          (bwrapMountPoints (snd (denyStep roots args p st)))
    /\ exitHandlerRegistered (snd (denyStep roots args p st)) = true.
Proof.
  unfold denyStep. cbv zeta.
  destruct (Js.startsWith _ "/dev/"); [intro H; now contradiction H |].
  destruct (findSymlinkInPath _ _ _); [intro H; now contradiction H |].
  destruct (negb (existsSync _ _)).
  2:{ destruct (isWithin _ _); intro H; now contradiction H. }
  destruct (hasFileAncestor _ _); [intro H; now contradiction H |].
  destruct (nearestExistingAncestor _ _); [| intro H; now contradiction H].
  destruct (ancestorIsWithinAllowedPath _ _ _); [| intro H; now contradiction H].
  destruct (negb (_ =? _)).
  - destruct (mkdtempSync _ _) as [[d w'] |] eqn:E; [| intro H; now contradiction H].
    intros _. exists d. cbn [fst snd]. rewrite register_world. cbn [world setWorld addMountPoint].
    repeat split.
    + rewrite register_mountPoints. apply setAdd_in.
    + apply register_flag.
  - cbn [snd]. rewrite register_world. intro H. now contradiction H.
Qed.

Lemma seccompStage_ok params (st : Proc W) :
  exists o st1,
    seccompStage params st = (Ok o, st1)
    /\ bwrapMountPoints st1 = bwrapMountPoints st
    /\ (forall f, o = Some f -> Js.includes f "/vendor/seccomp/" = false ->
                  In f (generatedSeccompFilters st1) /\ exitHandlerRegistered st1 = true)
    /\ (allowAllUnixSockets params = true -> o = None)
    /\ (forall f, o = Some f ->
          truthy (getApplySeccompBinaryPath (world st1)
                    (match seccompConfig params with
                     | Some c => applyPath c
                     | None => None
                     end)) = true).
Proof.
  unfold seccompStage. destruct (allowAllUnixSockets params); cbn [negb].
  { exists None, st. repeat split; intros; discriminate. }
  destruct (generateSeccompFilter _ _) as [g w1]. cbn [fst snd].
  destruct (truthy g) eqn:Eg; cbn [negb orb].
  2:{ eexists _, _. split; [reflexivity |]. repeat split; intros; discriminate. }
  destruct (truthy (getApplySeccompBinaryPath _ _)) eqn:Ea; cbn [negb].
  2:{ eexists _, _. split; [reflexivity |]. repeat split; intros; discriminate. }
  destruct g as [f |]; [| discriminate].
  destruct (Js.includes f "/vendor/seccomp/") eqn:Ev; cbn [negb].
  - eexists _, _. split; [reflexivity |]. split; [reflexivity |]. split; [| split].
    + intros f' E Hv. injection E as <-. congruence.
    + discriminate.
    + intros f' _. exact Ea.
  - eexists _, _. split; [reflexivity |]. split; [| split; [| split]].
    + now rewrite register_mountPoints.
    + intros f' E _. injection E as <-. split.
      * rewrite register_filters. apply setAdd_in.
      * apply register_flag.
    + discriminate.
    + intros f' _. rewrite register_world. exact Ea.
Qed.

(** C8 (as amended). When a turn of the deny loop acquires a temporary
    directory (the only way it changes the file system), it registers the
    mount point [c] the directory is bound over, not the directory, and
    installs the exit handler; a runtime-generated seccomp filter (one
    outside [/vendor/seccomp/]) is added to the filter registry and the
    exit handler is installed.  The reaper tears down the registered mount
    points only and leaves the filter registry alone; the exit handler
    attempts the clean-up of every registered filter and then runs the
    reaper.  Nothing removes the temporary directory itself. *)
Theorem registry_discipline :
  (forall roots args p (st : Proc W),
      world (snd (denyStep roots args p st)) <> world st ->
      exists d,
        mkdtempSync (world st) (Path.join (tmpdir (world st)) "claude-empty-")
        = Some (d, world (snd (denyStep roots args p st)))
        /\ fst (denyStep roots args p st)
           = Ok (args ++ [RoBind d (findFirstNonExistentComponent (world st)
                                      (normalizePathForSandbox (world st) p))])
        /\ In (findFirstNonExistentComponent (world st)
                 (normalizePathForSandbox (world st) p))
              (bwrapMountPoints (snd (denyStep roots args p st)))
        /\ exitHandlerRegistered (snd (denyStep roots args p st)) = true)
  /\ (forall params (st : Proc W) f st1,
        seccompStage params st = (Ok (Some f), st1) ->
        Js.includes f "/vendor/seccomp/" = false ->
        In f (generatedSeccompFilters st1) /\ exitHandlerRegistered st1 = true)
  /\ (forall st : Proc W,
        cleanupBwrapMountPoints st
        = (Ok tt, mkProc (fold_left reaped (bwrapMountPoints st) (world st)) []
                         (generatedSeccompFilters st) (exitHandlerRegistered st)))
  /\ (forall st : Proc W,
        exitHandlerRegistered st = true ->
        processExit st
        = (Ok tt,
           mkProc (fold_left reaped (bwrapMountPoints st)
                     (fold_left filterCleaned (generatedSeccompFilters st) (world st)))
                  [] (generatedSeccompFilters st) true)).
Proof.
  split; [exact denyStep_world |]. split; [| split].
  - intros params st f st1 H Hv.
    destruct (seccompStage_ok params st) as (o & st1' & E & _ & Hreg & _).
    rewrite E in H. injection H as -> ->. now apply Hreg.
  - exact cleanupBwrapMountPoints_spec.
  - intros st Hflag. unfold processExit. rewrite Hflag, exitHandler_spec, Hflag.
    reflexivity.
Qed.

(** ** Failures of the compilation *)

Lemma generateFilesystemArgs_throw rc wc rg depth git (st : Proc W) e st' :
  generateFilesystemArgs rc wc rg depth git st = (Throw e, st') ->
  e = HostFailure "mkdtempSync".
Proof.
  unfold generateFilesystemArgs. intro H.
  apply bind_throw in H as [H | ([a roots] & st1 & _ & H2)].
  - unfold writeStage in H. destruct wc as [wc |]; [| discriminate].
    apply bind_throw in H as [H | (a1 & st1 & _ & H2)]; [| discriminate].
    eapply denyLoop_throw; eassumption.
  - cbn [fst] in H2.
    destruct (readLoop_ok (readDenyPathsOf (world st1) rc) a st1) as (extra & E & _).
    rewrite E in H2. discriminate.
Qed.

Lemma networkStage_throw params (st : Proc W) e st' :
  networkStage params st = (Throw e, st') ->
  needsNetworkRestriction params = true
  /\ bridgeRequested params = true
  /\ ((e = HttpBridgeSocketMissing (orDefault (httpSocketPath params) EmptyString)
       /\ existsSync (world st) (orDefault (httpSocketPath params) EmptyString) = false)
      \/ (e = SocksBridgeSocketMissing (orDefault (socksSocketPath params) EmptyString)
          /\ existsSync (world st) (orDefault (socksSocketPath params) EmptyString)
             = false)).
Proof.
  unfold networkStage.
  destruct (needsNetworkRestriction params); [| discriminate].
  destruct (bridgeRequested params); [| discriminate].
  destruct (existsSync _ (orDefault (httpSocketPath params) _)) eqn:Eh; cbn [negb].
  - destruct (existsSync _ (orDefault (socksSocketPath params) _)) eqn:Es; cbn [negb];
      [discriminate |].
    intro H. injection H as <- <-. repeat split. right. now split.
  - intro H. injection H as <- <-. repeat split. left. now split.
Qed.

Lemma payloadStage_cases params o shell (st : Proc W) :
  (exists pl, payloadStage params o shell st = (Ok pl, st)
              /\ payloadCommand pl = command params)
  \/ (payloadStage params o shell st = (Throw ApplySeccompNotFound, st)
      /\ truthy o = true).
Proof.
  unfold payloadStage.
  destruct (needsNetworkRestriction params && bridgeRequested params).
  { left. eexists. split; [reflexivity |].
    unfold buildSandboxPayload. now destruct (truthy o). }
  destruct (truthy o) eqn:Eo.
  - destruct (getApplySeccompBinaryPath _ _) as [b |]; [| now right].
    destruct (b =? EmptyString); [now right |].
    left. eexists. split; reflexivity.
  - left. eexists. split; reflexivity.
Qed.

Lemma compileStages_throw params o (st : Proc W) e st' :
  compileStages params o st = (Throw e, st') ->
  (e = ShellNotFound (shellNameOf params)
   /\ exists w, truthy (whichSync w (shellNameOf params)) = false)
  \/ (needsNetworkRestriction params = true
      /\ bridgeRequested params = true
      /\ ((e = HttpBridgeSocketMissing (orDefault (httpSocketPath params) EmptyString)
           /\ existsSync (world st) (orDefault (httpSocketPath params) EmptyString)
              = false)
          \/ (e = SocksBridgeSocketMissing (orDefault (socksSocketPath params) EmptyString)
              /\ existsSync (world st) (orDefault (socksSocketPath params) EmptyString)
                 = false)))
  \/ e = HostFailure "mkdtempSync"
  \/ (e = ApplySeccompNotFound /\ truthy o = true).
Proof.
  unfold compileStages. intro H.
  apply bind_throw in H as [H | (netArgs & st1 & _ & H)].
  { right. left. now apply networkStage_throw in H. }
  apply bind_throw in H as [H | (fsArgs & st2 & _ & H)].
  { right. right. left. now apply generateFilesystemArgs_throw in H. }
  fold (shellNameOf params) in H.
  destruct (whichSync (world st2) (shellNameOf params)) as [shell |] eqn:Ew.
  - destruct (shell =? EmptyString) eqn:Ee.
    + injection H as <- <-. left. split; [reflexivity |].
      exists (world st2). rewrite Ew. cbn. now rewrite Ee.
    + apply bind_throw in H as [H | (pl & st3 & _ & H)]; [| discriminate].
      destruct (payloadStage_cases params o shell st2) as [(pl & E & _) | [E Ho]];
        rewrite E in H; [discriminate |].
      injection H as <- <-. right. right. right. now split.
  - injection H as <- <-. left. split; [reflexivity |].
    exists (world st2). now rewrite Ew.
Qed.

Lemma cleanupOnError_rethrows o e (st : Proc W) :
  fst (cleanupOnError o e st) = Throw e.
Proof.
  unfold cleanupOnError. destruct o as [f |]; [| reflexivity].
  destruct (negb _ && negb _); [| reflexivity].
  now destruct (cleanupSeccompFilter _ _).
Qed.

(** C5 (as amended). [wrapCommandWithSandboxLinux] throws only when the
    shell is not found in [PATH], when a requested bridge socket does not
    exist, when [mkdtemp] fails for an intermediate deny mount point, or
    when the [apply-seccomp] binary, found when the filter was set up, is
    not found again for the payload.  Missing seccomp tooling is never an
    error, whatever [allowAllUnixSockets] says: the seccomp block always
    completes, and without a filter the payload is built without a
    throw. *)
Theorem compile_failures params (st : Proc W) e st' :
  wrapCommandWithSandboxLinux params st = (Throw e, st') ->
  ((e = ShellNotFound (shellNameOf params)
    /\ exists w, truthy (whichSync w (shellNameOf params)) = false)
   \/ (needsNetworkRestriction params = true
       /\ bridgeRequested params = true
       /\ exists w,
           (e = HttpBridgeSocketMissing (orDefault (httpSocketPath params) EmptyString)
            /\ existsSync w (orDefault (httpSocketPath params) EmptyString) = false)
           \/ (e = SocksBridgeSocketMissing (orDefault (socksSocketPath params) EmptyString)
               /\ existsSync w (orDefault (socksSocketPath params) EmptyString) = false))
   \/ e = HostFailure "mkdtempSync"
   \/ (e = ApplySeccompNotFound
       /\ allowAllUnixSockets params = false
       /\ exists f st1, seccompStage params st = (Ok (Some f), st1)))
  /\ (exists o st1, seccompStage params st = (Ok o, st1))
  /\ (forall shell (st2 : Proc W),
        exists pl, payloadStage params None shell st2 = (Ok pl, st2)).
Proof.
  intro H. split; [| split].
  - unfold wrapCommandWithSandboxLinux in H.
    apply bind_throw in H as [H | (r & st1 & _ & H)]; [| discriminate].
    unfold wrapCommandWithSandboxLinux_plan in H.
    destruct (negb _ && negb _ && negb _); [discriminate |].
    destruct (seccompStage_ok params st) as (o & st1 & Es & _ & _ & Hall & _).
    apply bind_throw in H as [H | (o' & st1' & Es' & H)]; [congruence |].
    rewrite Es in Es'. injection Es' as <- <-.
    apply bind_throw in H as [H | (c & st2 & _ & H)]; [| discriminate].
    unfold tryCatch in H.
    destruct (compileStages params o st1) as [[c | e0 |] st2] eqn:Ec; try discriminate.
    pose proof (cleanupOnError_rethrows o e0 st2) as Hre. rewrite H in Hre.
    cbn in Hre. injection Hre as <-.
    apply compileStages_throw in Ec as [Hs | [Hn | [Hm | [Ha Ho]]]].
    + now left.
    + right. left. destruct Hn as (Hn & Hb & Hc). repeat split; auto.
      exists (world st1). exact Hc.
    + right. right. now left.
    + right. right. right. split; [exact Ha |]. split.
      * destruct (allowAllUnixSockets params); [| reflexivity].
        rewrite (Hall eq_refl) in Ho. discriminate.
      * destruct o as [f |]; [| discriminate]. now exists f, st1.
  - destruct (seccompStage_ok params st) as (o & st1 & Es & _). now exists o, st1.
  - intros shell st2.
    destruct (payloadStage_cases params None shell st2) as [(pl & E & _) | [_ Ho]];
      [now exists pl | discriminate].
Qed.

(** ** The short-circuit *)

Lemma length_append (a b : string) :
  String.length (a +++ b) = String.length a + String.length b.
Proof. induction a as [| c a IH]; cbn; [reflexivity | now rewrite IH]. Qed.

Lemma concat_long sep x l :
  In x l -> String.length x <= String.length (String.concat sep l).
Proof.
  induction l as [| y l IH]; [intros [] |].
  intros [-> | Hin].
  - destruct l; cbn; [lia |]. rewrite length_append. lia.
  - specialize (IH Hin). destruct l as [| z l]; [destruct Hin |].
    cbn [String.concat] in *. rewrite !length_append. lia.
Qed.

Section Quoting.

(** The quoting primitive never shortens: the quoted vector is at least as
    long as its arguments together. *)
Hypothesis quote_long :
  forall l : list string, list_sum (map String.length l) <= String.length (quote l).

Lemma quote_last l x : String.length x <= String.length (quote (l ++ [x])).
Proof.
  pose proof (quote_long (l ++ [x])) as H.
  rewrite map_app, list_sum_app in H. cbn in H. lia.
Qed.

Lemma renderPayload_long pl :
  String.length (payloadCommand pl) <= String.length (renderPayload pl).
Proof.
  destruct pl as [socat f inner sh cmd | socat sh cmd | b f sh cmd | cmd];
    cbn [payloadCommand renderPayload].
  - set (inner_cmd := quote ("bwrap" :: renderArgs inner ++ ["--"; sh; "-c"; cmd])).
    set (script := String.concat newline
                     (socat ++ ["sleep 0.1"; "exec 3< " +++ quote [f]; inner_cmd])).
    rewrite !length_append.
    pose proof (quote_last [] script) as H1. cbn [app] in H1.
    assert (H2 : String.length inner_cmd <= String.length script).
    { apply concat_long. apply in_or_app. right. cbn. auto. }
    assert (H3 : String.length cmd <= String.length inner_cmd).
    { unfold inner_cmd.
      replace ("bwrap" :: renderArgs inner ++ ["--"; sh; "-c"; cmd])
        with (("bwrap" :: renderArgs inner ++ ["--"; sh; "-c"]) ++ [cmd])
        by (cbn [app]; now rewrite <- app_assoc).
      apply quote_last. }
    lia.
  - set (script := String.concat newline (socat ++ ["eval " +++ quote [cmd]])).
    rewrite !length_append.
    pose proof (quote_last [] script) as H1. cbn [app] in H1.
    assert (H2 : String.length ("eval " +++ quote [cmd]) <= String.length script).
    { apply concat_long. apply in_or_app. right. cbn. auto. }
    rewrite length_append in H2.
    pose proof (quote_last [] cmd) as H3. cbn [app] in H3. lia.
  - apply (quote_last [b; f; sh; "-c"] cmd).
  - lia.
Qed.

Lemma renderWrapped_longer c :
  String.length (payloadCommand (payload c))
  < String.length (renderWrapped (Sandboxed c)).
Proof.
  cbn [renderWrapped].
  pose proof (quote_long ("bwrap" :: renderArgs (bwrapArgs c)
                            ++ ["--"; shellBinary c; "-c"; renderPayload (payload c)])) as H.
  cbn [map list_sum fold_right] in H. change (fold_right Nat.add 0) with list_sum in H.
  rewrite map_app, list_sum_app in H. cbn in H.
  pose proof (renderPayload_long (payload c)). lia.
Qed.

Lemma guard_noRestrictions params :
  negb (needsNetworkRestriction params) && negb (hasReadRestrictions params)
  && negb (hasWriteRestrictions params) = true
  <-> noRestrictions params.
Proof.
  unfold noRestrictions, hasReadRestrictions, hasWriteRestrictions.
  destruct (needsNetworkRestriction params); cbn.
  { split; [discriminate | intros [H _]; discriminate]. }
  destruct (writeConfig params) as [wc |].
  { rewrite andb_false_r. split; [discriminate | intros (_ & _ & H); discriminate]. }
  rewrite andb_true_r.
  destruct (readConfig params) as [[deny] |]; cbn.
  - destruct deny; cbn; split; auto; try discriminate.
    intros (_ & H & _). discriminate.
  - split; auto.
Qed.

Lemma plan_sandboxed params (st : Proc W) c st' :
  wrapCommandWithSandboxLinux_plan params st = (Ok (Sandboxed c), st') ->
  payloadCommand (payload c) = command params.
Proof.
  unfold wrapCommandWithSandboxLinux_plan.
  destruct (negb _ && negb _ && negb _); [discriminate |].
  intro H. apply bind_ok in H as (o & st1 & _ & H).
  apply bind_ok in H as (c' & st2 & H & E). injection E as -> <-.
  unfold tryCatch in H.
  destruct (compileStages params o st1) as [[c0 | e0 |] st3] eqn:Ec.
  - injection H as -> <-. unfold compileStages in Ec.
    apply bind_ok in Ec as (netArgs & s1 & _ & Ec).
    apply bind_ok in Ec as (fsArgs & s2 & _ & Ec).
    destruct (whichSync _ _) as [shell |]; [| discriminate].
    destruct (shell =? EmptyString); [discriminate |].
    apply bind_ok in Ec as (pl & s3 & Hp & E). injection E as <- <-. cbn [payload].
    destruct (payloadStage_cases params o shell s2) as [(pl' & E & Hc) | [E _]];
      rewrite E in Hp; [| discriminate].
    injection Hp as <- <-. exact Hc.
  - pose proof (cleanupOnError_rethrows o e0 st3) as Hre. rewrite H in Hre. discriminate.
  - discriminate.
Qed.

(** C9. Without any restriction (no network restriction, no read-deny
    entry, no write policy) [wrapCommandWithSandboxLinux] returns the user
    command unchanged and changes nothing; with any restriction, whatever
    it returns is the quoted vector of a [bwrap] invocation, and it is not
    the user command. *)
Theorem short_circuit params (st : Proc W) :
  (noRestrictions params ->
   wrapCommandWithSandboxLinux params st = (Ok (command params), st))
  /\ (~ noRestrictions params ->
      forall r st',
        wrapCommandWithSandboxLinux params st = (Ok r, st') ->
        (exists c,
            r = quote ("bwrap" :: renderArgs (bwrapArgs c)
                         ++ ["--"; shellBinary c; "-c"; renderPayload (payload c)]))
        /\ r <> command params).
Proof.
  split.
  - intro Hno. apply guard_noRestrictions in Hno.
    unfold wrapCommandWithSandboxLinux, wrapCommandWithSandboxLinux_plan, bind, ret.
    now rewrite Hno.
  - intros Hsome r st' H.
    unfold wrapCommandWithSandboxLinux in H.
    apply bind_ok in H as (pl & st1 & Hplan & E). injection E as <- <-.
    destruct pl as [cmd | c].
    + exfalso. apply Hsome. apply guard_noRestrictions.
      unfold wrapCommandWithSandboxLinux_plan in Hplan.
      destruct (negb _ && negb _ && negb _); [reflexivity |].
      apply bind_ok in Hplan as (o & s1 & _ & Hplan).
      apply bind_ok in Hplan as (c & s2 & _ & E). discriminate.
    + split; [now exists c |].
      intro Heq. pose proof (renderWrapped_longer c) as Hlt.
      rewrite (plan_sandboxed _ _ _ _ Hplan), Heq in Hlt. lia.
Qed.

End Quoting.

(** ** The inner stage *)

Lemma innerBinds_spec (w : W) paths src dst :
  In (Bind src dst) (innerBinds w paths) <->
  src = dst /\ In src paths /\ existsSync w src = true
  /\ Js.startsWith src "/dev/" = false /\ src <> "/dev".
Proof.
  induction paths as [| p rest IH]; cbn [innerBinds In].
  - split; [intros [] | intros (_ & [] & _)].
  - destruct (Js.startsWith p "/dev/") eqn:Ed; cbn [orb].
    { rewrite IH. split.
      - intros (E & Hin & H). auto.
      - intros (E & [-> | Hin] & Hex & Hdev & Hne); [congruence | auto]. }
    destruct (p =? "/dev") eqn:Ep.
    { apply String.eqb_eq in Ep. rewrite IH. split.
      - intros (E & Hin & H). auto.
      - intros (E & [<- | Hin] & Hex & Hdev & Hne); [congruence | auto]. }
    apply String.eqb_neq in Ep.
    destruct (existsSync w p) eqn:Ex.
    + cbn [In]. rewrite IH. split.
      * intros [E | (E & Hin & H)]; [injection E as <- <-; auto | auto].
      * intros (E & [-> | Hin] & Hex & Hdev & Hne); [left; now subst | right; auto].
    + rewrite IH. split.
      * intros (E & Hin & H). auto.
      * intros (E & [-> | Hin] & Hex & Hdev & Hne); [congruence | auto].
Qed.

(** The sound half of the replay: in one and the same world, every root the
    allow stage keeps, [/dev] apart, is bound again by the inner stage. *)
Lemma outer_roots_replayed (w : W) allow n :
  In n (keptPaths w allow) ->
  n <> "/dev" ->
  In (Bind n n)
     (innerBinds w (filter (existsSync w) (map (normalizePathForSandbox w) allow))).
Proof.
  unfold keptPaths. intros Hin Hne. apply filter_In in Hin as [Hin Hk].
  unfold allowKept in Hk.
  apply andb_true_iff in Hk as [Hk _]. apply andb_true_iff in Hk as [Hdev Hex].
  apply negb_true_iff in Hdev.
  apply innerBinds_spec. repeat split; auto.
  apply filter_In. now split.
Qed.

(** ** Trailing slashes *)

Lemma allowStep_respelled (f : string -> string) (w : W) :
  (forall x, normalizePathForSandbox w (f x) = normalizePathForSandbox w x) ->
  forall l acc, fold_left (allowStep w) (map f l) acc = fold_left (allowStep w) l acc.
Proof.
  intros Hf l. induction l as [| a l IH]; intro acc; [reflexivity |].
  cbn [map fold_left]. rewrite IH. f_equal. unfold allowStep. now rewrite Hf.
Qed.

Lemma denyStep_respelled (f : string -> string) :
  (forall (w : W) x, normalizePathForSandbox w (f x) = normalizePathForSandbox w x) ->
  forall roots args x (st : Proc W),
    denyStep roots args (f x) st = denyStep roots args x st.
Proof. intros Hf roots args x st. unfold denyStep. now rewrite Hf. Qed.

Lemma denyLoop_respelled (f : string -> string) :
  (forall (w : W) x, normalizePathForSandbox w (f x) = normalizePathForSandbox w x) ->
  forall roots l tail args (st : Proc W),
    denyLoop roots (map f l ++ tail) args st = denyLoop roots (l ++ tail) args st.
Proof.
  intros Hf roots l tail. induction l as [| a l IH]; intros args st; [reflexivity |].
  cbn [map app denyLoop]. unfold bind. rewrite (denyStep_respelled f Hf).
  destruct (denyStep roots args a st) as [[a1 | e |] st1]; auto.
Qed.

Lemma readLoop_respelled (f : string -> string) :
  (forall (w : W) x, normalizePathForSandbox w (f x) = normalizePathForSandbox w x) ->
  forall l tail args (st : Proc W),
    readLoop (map f l ++ tail) args st = readLoop (l ++ tail) args st.
Proof.
  intros Hf l tail. induction l as [| a l IH]; intros args st; [reflexivity |].
  cbn [map app readLoop]. unfold bind.
  assert (E : readStep args (f a) st = readStep args a st)
    by (unfold readStep; now rewrite Hf).
  rewrite E. destruct (readStep args a st) as [[a1 | e |] st1]; auto.
Qed.

(** C10 (as amended). When the normalizer maps [p] and [p/] to the same
    normalized path, the policy with [p/] in place of [p] compiles to the
    same directive vector and the same process state.  When it keeps the
    slash, the directive carries the operand as normalized, and the allow
    stage does not take the path for a symbolic link: a normalized allow
    path outside [/dev/] that exists and whose canonical resolution is the
    path with its trailing slashes trimmed is bound and recorded as it is
    spelled. *)
Theorem trailing_slash_allow (p : string) :
  ((forall (w : W), normalizePathForSandbox w (p +++ "/") = normalizePathForSandbox w p) ->
   forall rc wc rg depth git (st : Proc W),
     generateFilesystemArgs (readWithSlash p rc) (writeWithSlash p wc) rg depth git st
     = generateFilesystemArgs rc wc rg depth git st)
  /\ (forall (w : W) acc n,
        normalizePathForSandbox w p = n ->
        Js.startsWith n "/dev/" = false ->
        existsSync w n = true ->
        realpathSync w n = Some (Js.trimTrailingSlashes n) ->
        allowStep w acc p = (fst acc ++ [Bind n n], snd acc ++ [n])).
Proof.
  split.
  - intros Hp rc wc rg depth git st.
    assert (Hf : forall (w : W) x,
               normalizePathForSandbox w (if x =? p then p +++ "/" else x)
               = normalizePathForSandbox w x).
    { intros w x. destruct (x =? p) eqn:E; [| reflexivity].
      apply String.eqb_eq in E. subst x. apply Hp. }
    unfold generateFilesystemArgs, bind.
    assert (Ew : writeStage (writeWithSlash p wc) rg depth git st
                 = writeStage wc rg depth git st).
    { unfold writeStage, writeWithSlash, withSlash. destruct wc as [wc |]; [| reflexivity].
      cbn [option_map allowOnly denyWithinAllow].
      rewrite (allowStep_respelled _ (world st) (Hf (world st))).
      unfold bind. now rewrite (denyLoop_respelled _ Hf). }
    rewrite Ew. destruct (writeStage wc rg depth git st) as [[[a roots] | e |] st1]; auto.
    unfold readDenyPathsOf, readWithSlash, withSlash. destruct rc as [rc |]; [| reflexivity].
    cbn [option_map denyOnly]. apply (readLoop_respelled _ Hf).
  - intros w acc n Hn Hdev Hex Hreal. unfold allowStep. cbv zeta.
    rewrite Hn, Hdev, Hex, Hreal, String.eqb_refl. reflexivity.
Qed.

(** ** Mandatory denies and the layout of [.git] *)

Lemma dedupe_in x xs : forall seen,
  In x (dedupe seen xs) <-> In x xs /\ ~ In x seen.
Proof.
  induction xs as [| y xs IH]; intro seen; cbn [dedupe In].
  - tauto.
  - destruct (existsb (String.eqb y) seen) eqn:E.
    + apply existsb_exists in E as (z & Hz & Ez). apply String.eqb_eq in Ez. subst z.
      rewrite IH. split.
      * intros [H1 H2]. auto.
      * intros [[-> | H1] H2]; [contradiction | auto].
    + assert (Hy : ~ In y seen).
      { intro Hy. assert (existsb (String.eqb y) seen = true).
        { apply existsb_exists. exists y. split; [exact Hy | apply String.eqb_refl]. }
        congruence. }
      cbn [In]. rewrite IH. cbn [In]. split.
      * intros [<- | [H1 H2]]; [auto |]. split; [auto | tauto].
      * intros [[<- | H1] H2]; [auto |].
        destruct (string_dec y x) as [-> | Hne]; [auto | right; split; [auto | tauto]].
Qed.

Lemma findIndex_some {A} (f : A -> bool) l i :
  findIndex f l = Some i -> exists x, nth_error l i = Some x /\ f x = true.
Proof.
  revert i. induction l as [| y l IH]; intros i; cbn [findIndex]; [discriminate |].
  destruct (f y) eqn:E.
  - intro H. injection H as <-. now exists y.
  - destruct (findIndex f l) as [j |]; [| discriminate].
    intro H. injection H as <-. apply (IH j eq_refl).
Qed.

(** What a match can push: the directory of a dangerous-directory
    segment, or [hooks]/[config] under the directory of a [.git]
    segment. *)
Lemma matchDirectory_pushes dirNames absolutePath match_ pushes q :
  matchDirectory dirNames absolutePath match_ = Some pushes ->
  In q pushes ->
  exists dirName i seg,
    In dirName dirNames
    /\ nth_error (Js.split absolutePath) i = Some seg
    /\ normalizeCaseForComparison seg = normalizeCaseForComparison dirName
    /\ ((dirName <> ".git" /\ q = gitDirOf absolutePath i)
        \/ (dirName = ".git" /\ Js.includes match_ ".git/hooks" = true
            /\ q = Path.join (gitDirOf absolutePath i) "hooks")
        \/ (dirName = ".git" /\ Js.includes match_ ".git/hooks" = false
            /\ Js.includes match_ ".git/config" = true
            /\ q = Path.join (gitDirOf absolutePath i) "config")).
Proof.
  induction dirNames as [| d rest IH]; cbn [matchDirectory]; [discriminate |].
  destruct (findIndex _ _) as [i |] eqn:Ei.
  - apply findIndex_some in Ei as (seg & Hseg & Hf). apply String.eqb_eq in Hf.
    intros H Hq. exists d, i, seg. split; [now left |]. split; [exact Hseg |].
    split; [exact Hf |].
    destruct (d =? ".git") eqn:Ed.
    + apply String.eqb_eq in Ed.
      destruct (Js.includes match_ ".git/hooks") eqn:Eh.
      * injection H as <-. destruct Hq as [<- | []]. right. left. auto.
      * destruct (Js.includes match_ ".git/config") eqn:Ec.
        -- injection H as <-. destruct Hq as [<- | []]. right. right. auto.
        -- injection H as <-. destruct Hq.
    + apply String.eqb_neq in Ed. injection H as <-. destruct Hq as [<- | []].
      left. auto.
  - intros H Hq. destruct (IH H Hq) as (dn & i & seg & Hin & Hrest).
    exists dn, i, seg. split; [now right | exact Hrest].
Qed.

(** C4 (as amended). In the working directory, [.git/hooks] is denied
    whenever [.git] is a directory, and [.git/config] with it unless
    [allowGitConfig] is set; every entry of the list is a dangerous file or
    directory of the working directory, one of these two when [.git] is a
    directory ([config] only with [allowGitConfig] unset), or comes from a
    match of the scan.  A match contributes [hooks] (resp. [config]) under
    a repository only if one of its segments is [.git] up to case and the
    match contains [.git/hooks] (resp. [.git/config] and not
    [.git/hooks]); nothing else under a [.git] segment is added. *)
Theorem git_layout_denies (w : W) rg depth (allowGit : bool) :
  (dotGitIsDirectory w = true ->
   In (Path.resolve (cwd w) ".git/hooks")
      (linuxGetMandatoryDenyPaths w rg depth allowGit)
   /\ (allowGit = false ->
       In (Path.resolve (cwd w) ".git/config")
          (linuxGetMandatoryDenyPaths w rg depth allowGit)))
  /\ (forall q,
        In q (linuxGetMandatoryDenyPaths w rg depth allowGit) ->
        In q (cwdDangerousPaths w)
        \/ (dotGitIsDirectory w = true
            /\ (q = Path.resolve (cwd w) ".git/hooks"
                \/ (allowGit = false /\ q = Path.resolve (cwd w) ".git/config")))
        \/ exists m, In m (scanMatches w rg depth allowGit) /\ In q (processMatch w m))
  /\ (forall m q,
        In q (processMatch w m) ->
        q = Path.resolve (cwd w) m
        \/ exists dirName i seg,
            In dirName (getDangerousDirectories ++ [".git"])
            /\ nth_error (Js.split (Path.resolve (cwd w) m)) i = Some seg
            /\ normalizeCaseForComparison seg = normalizeCaseForComparison dirName
            /\ ((dirName <> ".git" /\ q = gitDirOf (Path.resolve (cwd w) m) i)
                \/ (dirName = ".git" /\ Js.includes m ".git/hooks" = true
                    /\ q = Path.join (gitDirOf (Path.resolve (cwd w) m) i) "hooks")
                \/ (dirName = ".git" /\ Js.includes m ".git/hooks" = false
                    /\ Js.includes m ".git/config" = true
                    /\ q = Path.join (gitDirOf (Path.resolve (cwd w) m) i) "config"))).
Proof.
  unfold linuxGetMandatoryDenyPaths, mandatoryDenyPathsRaw. split; [| split].
  - intro Hdir. unfold cwdGitPaths. rewrite Hdir. split.
    + apply dedupe_in. split; [| tauto].
      apply in_or_app. right. apply in_or_app. left. now left.
    + intros ->. apply dedupe_in. split; [| tauto].
      apply in_or_app. right. apply in_or_app. left. right. now left.
  - intros q Hq. apply dedupe_in in Hq as [Hq _].
    apply in_app_or in Hq as [Hq | Hq]; [now left |].
    apply in_app_or in Hq as [Hq | Hq].
    + right. left. unfold cwdGitPaths in Hq.
      destruct (dotGitIsDirectory w); [| destruct Hq]. split; [reflexivity |].
      destruct Hq as [<- | Hq]; [now left |].
      destruct allowGit; cbn in Hq; [destruct Hq |].
      destruct Hq as [<- | []]. right. now split.
    + right. right. apply in_flat_map in Hq as (m & Hm & Hq). now exists m.
  - intros m q Hq. unfold processMatch in Hq.
    destruct (matchDirectory _ _ _) as [pushes |] eqn:E.
    + right. eapply matchDirectory_pushes; eassumption.
    + destruct Hq as [<- | []]. now left.
Qed.

End Facts.

(** ** Scenario S2 *)


Example s2_compiled :
  fst (generateFilesystemArgs (Some (mkRead [])) (Some Scenario.evilPolicy)
         defaultRipgrepConfig 3 false (Scenario.fresh Scenario.evilHost))
  = Ok [RoBind "/" "/"; Bind "/tmp/T/user_area" "/tmp/T/user_area"].
Proof. vm_compute. reflexivity. Qed.

(** ** Deny artifacts on examples *)

Lemma nonexistent_deny_path_artifact_witness :
  exists st',
    denyStep ["/w"] [RoBind "/" "/"; Bind "/w" "/w"] "/w/settings.json"
      (Scenario.fresh Scenario.ghostHost)
    = (Ok ([RoBind "/" "/"; Bind "/w" "/w"] ++ [RoBind "/dev/null" "/w/settings.json"]), st')
    /\ In "/w/settings.json" (bwrapMountPoints st').
Proof.
  assert (Hn : normalizePathForSandbox (world (Scenario.fresh Scenario.ghostHost))
                 "/w/settings.json" = "/w/settings.json") by (vm_compute; reflexivity).
  assert (Hdev : Js.startsWith "/w/settings.json" "/dev/" = false)
    by (vm_compute; reflexivity).
  assert (Hsym : findSymlinkInPath (world (Scenario.fresh Scenario.ghostHost))
                   "/w/settings.json" ["/w"] = None) by (vm_compute; reflexivity).
  assert (Hex : existsSync (world (Scenario.fresh Scenario.ghostHost))
                  "/w/settings.json" = false) by (vm_compute; reflexivity).
  destruct (nonexistent_deny_path_artifact ["/w"] [RoBind "/" "/"; Bind "/w" "/w"]
              (Scenario.fresh Scenario.ghostHost) "/w/settings.json" "/w/settings.json"
              Hn Hdev Hsym Hex) as [Hpos _].
  assert (Hfile : hasFileAncestor (world (Scenario.fresh Scenario.ghostHost))
                    "/w/settings.json" = false) by (vm_compute; reflexivity).
  assert (Hanc : nearestExistingAncestor (world (Scenario.fresh Scenario.ghostHost))
                   "/w/settings.json" = Some "/w") by (vm_compute; reflexivity).
  assert (Hin : ancestorIsWithinAllowedPath ["/w"] "/w" "/w/settings.json" = true)
    by (vm_compute; reflexivity).
  destruct (Hpos Hfile "/w" Hanc Hin) as [Hleaf _].
  assert (Hc : findFirstNonExistentComponent (world (Scenario.fresh Scenario.ghostHost))
                 "/w/settings.json" = "/w/settings.json") by (vm_compute; reflexivity).
  destruct (Hleaf Hc) as (st' & Hstep & _ & Hreg & _).
  exists st'. split; [exact Hstep | exact Hreg].
Defined.

Example ghost_compiled :
  generateFilesystemArgs None (Some Scenario.ghostPolicy) defaultRipgrepConfig 3 false
    (Scenario.fresh Scenario.ghostHost)
  = (Ok [RoBind "/" "/"; Bind "/w" "/w";
         RoBind "/dev/null" "/w/settings.json";
         RoBind "/tmp/claude-empty-T0" "/w/a"],
     mkProc (Posix.mkWorld (Scenario.baseNodes
                              ++ [("/srv", Posix.Dir); ("/w", Posix.Dir);
                                  ("/tmp/claude-empty-T0", Posix.Dir)])
               "/srv" "/tmp" 1 [("bash", "/usr/bin/bash")] (Some []) None None)
            ["/w/settings.json"; "/w/a"] [] true).
Proof. vm_compute. reflexivity. Qed.

(** The specification's wording does not hold below a symbolic link: the
    deny path [/w/link/new] does not exist, no existing component is a
    file, its nearest existing ancestor [/w/link] is within the allowed
    root [/w] and its first missing component is the path itself; yet the
    compiler mounts [/dev/null] over the link, not over the path, and
    registers nothing. *)
Lemma deny_below_symlink_counterexample :
  existsSync Scenario.linkHost "/w/link/new" = false
  /\ hasFileAncestor Scenario.linkHost "/w/link/new" = false
  /\ nearestExistingAncestor Scenario.linkHost "/w/link/new" = Some "/w/link"
  /\ isWithin ["/w"] "/w/link" = true
  /\ findFirstNonExistentComponent Scenario.linkHost "/w/link/new" = "/w/link/new"
  /\ generateFilesystemArgs None (Some Scenario.linkPolicy) defaultRipgrepConfig 3 false
       (Scenario.fresh Scenario.linkHost)
     = (Ok [RoBind "/" "/"; Bind "/w" "/w"; RoBind "/dev/null" "/w/link"],
        Scenario.fresh Scenario.linkHost).
Proof. vm_compute. repeat split; reflexivity. Qed.

(** ** The reaper on a replaced mount point *)


(** ** The reaper and the exit handler on examples *)


Lemma registry_discipline_witness :
  processExit Scenario.relinked
  = (Ok tt, mkProc (Scenario.mkHost [("/w", Posix.Dir); ("/w/empty", Posix.File 0)]
                      "/w" (Some []))
                   [] [] true).
Proof.
  rewrite (proj2 (proj2 (proj2 registry_discipline)) Scenario.relinked eq_refl).
  vm_compute. reflexivity.
Defined.

(** ** Temporary directories outlive every teardown *)

(** The specification's wording does not hold: compiling the policy of
    [ghostPolicy] acquires [/tmp/claude-empty-T0] for the intermediate
    mount point [/w/a]; the registry receives the mount points, not the
    directory, and after the reaper and the exit handler have run the
    directory is still there. *)
Lemma tempdir_leak_counterexample :
  bwrapMountPoints
    (snd (generateFilesystemArgs None (Some Scenario.ghostPolicy) defaultRipgrepConfig
            3 false (Scenario.fresh Scenario.ghostHost)))
  = ["/w/settings.json"; "/w/a"]
  /\ existsSync
       (world (snd (processExit
                      (snd (cleanupBwrapMountPoints
                              (snd (generateFilesystemArgs None (Some Scenario.ghostPolicy)
                                      defaultRipgrepConfig 3 false
                                      (Scenario.fresh Scenario.ghostHost))))))))
       "/tmp/claude-empty-T0"
     = true.
Proof. vm_compute. split; reflexivity. Qed.

(** ** Failures on examples *)

Lemma compile_failures_witness :
  exists w : Posix.World, truthy (whichSync w "zsh") = false.
Proof.
  assert (H : wrapCommandWithSandboxLinux Scenario.zshParams
                (Scenario.fresh Scenario.ghostHost)
              = (Throw (ShellNotFound "zsh"), Scenario.fresh Scenario.ghostHost))
    by (vm_compute; reflexivity).
  destruct (compile_failures _ _ _ _ H) as [[[_ Hw] | [Hn | [Hm | [Ha _]]]] _].
  - exact Hw.
  - destruct Hn as [Hn _]. vm_compute in Hn. discriminate Hn.
  - discriminate Hm.
  - discriminate Ha.
Defined.

(** The specification's wording does not hold: with [allowAllUnixSockets]
    unset and no seccomp tooling on the host, the compilation does not
    fail; it returns the composite command without a filter. *)
Lemma missing_seccomp_counterexample :
  allowAllUnixSockets Scenario.noSeccompParams = false
  /\ generateSeccompFilter Scenario.ghostHost None = (None, Scenario.ghostHost)
  /\ getApplySeccompBinaryPath Scenario.ghostHost None = None
  /\ wrapCommandWithSandboxLinux Scenario.noSeccompParams
       (Scenario.fresh Scenario.ghostHost)
     = (Ok ("bwrap --new-session --die-with-parent --ro-bind / / --bind /w /w "
            +++ "--dev /dev --unshare-pid --proc /proc -- /usr/bin/bash -c 'echo hello'"),
        Scenario.fresh Scenario.ghostHost).
Proof. vm_compute. repeat split; reflexivity. Qed.

(** ** The short-circuit on an example *)

Lemma quoteArg_long s : String.length s <= String.length (Posix.quoteArg s).
Proof.
  unfold Posix.quoteArg. destruct (_ || _); [| lia].
  rewrite !length_append. cbn. lia.
Qed.

Lemma quoteArgs_long (l : list string) :
  list_sum (map String.length l) <= String.length (Posix.quoteArgs l).
Proof.
  unfold Posix.quoteArgs. induction l as [| x l IH]; [cbn; lia |].
  pose proof (quoteArg_long x) as Hx.
  destruct l as [| y l]; [cbn in *; lia |].
  change (String.concat " " (map Posix.quoteArg (x :: y :: l)))
    with (Posix.quoteArg x +++ " " +++ String.concat " " (map Posix.quoteArg (y :: l))).
  rewrite !length_append.
  change (list_sum (map String.length (x :: y :: l)))
    with (String.length x + list_sum (map String.length (y :: l))).
  lia.
Qed.

Lemma short_circuit_witness :
  wrapCommandWithSandboxLinux Scenario.freeParams (Scenario.fresh Scenario.ghostHost)
  = (Ok "echo hello", Scenario.fresh Scenario.ghostHost).
Proof.
  apply (proj1 (short_circuit
                  (quoteArgs_long
                   : forall l, list_sum (map String.length l)
                               <= String.length (@quote _ Posix.host l))
                  Scenario.freeParams (Scenario.fresh Scenario.ghostHost))).
  vm_compute. auto.
Defined.

(** ** The nested sandbox replays a bind the outer stage refused *)

(** C6 (the source at the failing input). With a bridge and a seccomp
    filter, the outer stage refuses the scope-widening link
    [/tmp/T/user_area/evil]: its writable binds are the two sockets and
    [/tmp/T/user_area].  The inner stage binds the link writable all the
    same, because [writablePaths] is the allow list filtered by existence
    only. *)
Lemma nested_replay_of_refused_link :
  outerBinds (orDefaultWrapped
                (fst (wrapCommandWithSandboxLinux_plan Scenario.bridgeParams
                        (Scenario.fresh Scenario.bridgeHost))))
  = [Bind "/tmp/http.sock" "/tmp/http.sock"; Bind "/tmp/socks.sock" "/tmp/socks.sock";
     Bind "/tmp/T/user_area" "/tmp/T/user_area"]
  /\ innerBindsOf (orDefaultWrapped
                     (fst (wrapCommandWithSandboxLinux_plan Scenario.bridgeParams
                             (Scenario.fresh Scenario.bridgeHost))))
     = [Bind "/tmp/T/user_area" "/tmp/T/user_area";
        Bind "/tmp/T/user_area/evil" "/tmp/T/user_area/evil"].
Proof. vm_compute. split; reflexivity. Qed.

(** ** Trailing slashes on examples *)

Lemma trailing_slash_allow_witness :
  allowStep Scenario.evilHost ([RoBind "/" "/"], []) "/tmp/T/user_area/"
  = ([RoBind "/" "/"; Bind "/tmp/T/user_area/" "/tmp/T/user_area/"],
     ["/tmp/T/user_area/"])
  /\ generateFilesystemArgs (sib := Posix.strictSiblings)
       (readWithSlash "/tmp/T/user_area" None)
       (writeWithSlash "/tmp/T/user_area" (Some (mkWrite ["/tmp/T/user_area"] [])))
       defaultRipgrepConfig 3 false (Scenario.fresh Scenario.evilHost)
     = generateFilesystemArgs (sib := Posix.strictSiblings) None
         (Some (mkWrite ["/tmp/T/user_area"] []))
         defaultRipgrepConfig 3 false (Scenario.fresh Scenario.evilHost).
Proof.
  split.
  - apply (proj2 (trailing_slash_allow "/tmp/T/user_area/")
             Scenario.evilHost ([RoBind "/" "/"], []) "/tmp/T/user_area/");
      vm_compute; reflexivity.
  - apply (proj1 (trailing_slash_allow (sib := Posix.strictSiblings) "/tmp/T/user_area")).
    intro w. vm_compute. reflexivity.
Defined.

(** The specification's wording does not hold: the normalizer may keep the
    trailing slash (the source trims it for the symlink comparison only),
    and then the two spellings compile to directives with different
    operands. *)
Lemma trailing_slash_counterexample :
  fst (generateFilesystemArgs None (Some (mkWrite ["/tmp/T/user_area"] []))
         defaultRipgrepConfig 3 false (Scenario.fresh Scenario.evilHost))
  = Ok [RoBind "/" "/"; Bind "/tmp/T/user_area" "/tmp/T/user_area"]
  /\ fst (generateFilesystemArgs None (Some (mkWrite ["/tmp/T/user_area" +++ "/"] []))
            defaultRipgrepConfig 3 false (Scenario.fresh Scenario.evilHost))
     = Ok [RoBind "/" "/"; Bind "/tmp/T/user_area/" "/tmp/T/user_area/"].
Proof. vm_compute. split; reflexivity. Qed.

Example trailing_slash_deny :
  fst (generateFilesystemArgs None (Some (mkWrite ["/w"] ["/w/settings.json/"]))
         defaultRipgrepConfig 3 false (Scenario.fresh Scenario.ghostHost))
  = Ok [RoBind "/" "/"; Bind "/w" "/w";
        RoBind "/tmp/claude-empty-T0" "/w/settings.json"].
Proof. vm_compute. reflexivity. Qed.

(** ** Mandatory denies on examples *)

Example repo_denies :
  linuxGetMandatoryDenyPaths Scenario.repoHost defaultRipgrepConfig 3 false
  = map (fun n => "/proj/" +++ n) (Posix.dangerousFiles ++ Posix.dangerousDirectories)
    ++ ["/proj/.git/hooks"; "/proj/.git/config"].
Proof. vm_compute. reflexivity. Qed.

Example repo_denies_allowGitConfig :
  linuxGetMandatoryDenyPaths Scenario.repoHost defaultRipgrepConfig 3 true
  = map (fun n => "/proj/" +++ n) (Posix.dangerousFiles ++ Posix.dangerousDirectories)
    ++ ["/proj/.git/hooks"].
Proof. vm_compute. reflexivity. Qed.

Example worktree_denies :
  linuxGetMandatoryDenyPaths Scenario.worktreeHost defaultRipgrepConfig 3 false
  = map (fun n => "/proj/" +++ n) (Posix.dangerousFiles ++ Posix.dangerousDirectories).
Proof. vm_compute. reflexivity. Qed.

Lemma git_layout_denies_witness :
  In "/proj/.git/hooks"
     (linuxGetMandatoryDenyPaths Scenario.repoHost defaultRipgrepConfig 3 false)
  /\ In "/proj/.git/config"
        (linuxGetMandatoryDenyPaths Scenario.repoHost defaultRipgrepConfig 3 false).
Proof.
  destruct (proj1 (git_layout_denies Scenario.repoHost defaultRipgrepConfig 3 false))
    as [Hhooks Hconfig].
  - vm_compute. reflexivity.
  - split; [exact Hhooks | apply Hconfig; reflexivity].
Defined.

(** The specification's wording does not hold for a nested repository: the
    scan lists files, so a repository whose [.git] is a directory with a
    [config] file and no hook file gets its [config] denied and its
    [hooks] not. *)
Lemma nested_hooks_counterexample :
  option_map isDirectory (statSync Scenario.nestedHost "/proj/sub/.git") = Some true
  /\ In "/proj/sub/.git/config"
        (linuxGetMandatoryDenyPaths Scenario.nestedHost defaultRipgrepConfig 3 false)
  /\ ~ In "/proj/sub/.git/hooks"
         (linuxGetMandatoryDenyPaths Scenario.nestedHost defaultRipgrepConfig 3 false).
Proof.
  vm_compute. split; [reflexivity |]. split.
  - repeat (try (left; reflexivity); right).
  - intro H. repeat (destruct H as [H | H]; [discriminate H |]). exact H.
Qed.

(** ** The macOS profile *)

Lemma ancestorChainRev_prefixes comps k :
  k < List.length comps ->
  In (MacOS.pathOf (firstn k comps)) (MacOS.ancestorChainRev (rev comps)).
Proof.
  induction comps as [| x comps IH] using rev_ind; intros Hk; [cbn in Hk; lia |].
  rewrite rev_app_distr. cbn [rev app MacOS.ancestorChainRev]. rewrite rev_involutive.
  rewrite length_app in Hk. cbn in Hk.
  destruct (Nat.eq_dec k (List.length comps)) as [-> | Hne].
  - left. now rewrite firstn_app, Nat.sub_diag, firstn_all, app_nil_r.
  - right. rewrite firstn_app.
    replace (k - List.length comps) with 0 by lia. cbn [firstn]. rewrite app_nil_r.
    apply IH. lia.
Qed.

(** C2. For every entry of the macOS read [denyOnly] list, the profile
    denies [file-read*] on the entry and [file-write-unlink] on the entry
    and on every one of its ancestor directories, the root included: for a
    literal path the directories named by the proper prefixes of its
    components, for a glob pattern the directory of its literal base and
    the directories above it. *)
Theorem read_deny_blocks_rename
  (normalize globToRegex : string -> string) (rc : FsReadRestrictionConfig)
  (d : string) :
  In d (denyOnly rc) ->
  (MacOS.containsGlobChars (normalize d) = false ->
   In (MacOS.Deny "file-read*" (MacOS.Subpath (normalize d)))
      (MacOS.readRules normalize globToRegex (Some rc))
   /\ In (MacOS.Deny "file-write-unlink" (MacOS.Subpath (normalize d)))
         (MacOS.readRules normalize globToRegex (Some rc))
   /\ forall k,
        k < List.length (MacOS.components (normalize d)) ->
        In (MacOS.Deny "file-write-unlink"
              (MacOS.Literal (MacOS.pathOf (firstn k (MacOS.components (normalize d))))))
           (MacOS.readRules normalize globToRegex (Some rc)))
  /\ (MacOS.containsGlobChars (normalize d) = true ->
      In (MacOS.Deny "file-read*" (MacOS.Regex (globToRegex (normalize d))))
         (MacOS.readRules normalize globToRegex (Some rc))
      /\ In (MacOS.Deny "file-write-unlink" (MacOS.Regex (globToRegex (normalize d))))
            (MacOS.readRules normalize globToRegex (Some rc))
      /\ forall k,
           k <= List.length (MacOS.components (MacOS.globBaseDirectory (normalize d))) ->
           In (MacOS.Deny "file-write-unlink"
                 (MacOS.Literal
                    (MacOS.pathOf
                       (firstn k (MacOS.components
                                    (MacOS.globBaseDirectory (normalize d)))))))
              (MacOS.readRules normalize globToRegex (Some rc))).
Proof.
  intro Hd. unfold MacOS.readRules.
  assert (Hin : forall r, In r (MacOS.readDenyRules normalize globToRegex d) ->
                          In r (flat_map (MacOS.readDenyRules normalize globToRegex)
                                         (denyOnly rc))).
  { intros r Hr. apply in_flat_map. now exists d. }
  split; intro Hglob; (split; [| split]).
  - apply Hin. unfold MacOS.readDenyRules. rewrite Hglob. now left.
  - apply Hin. unfold MacOS.readDenyRules. rewrite Hglob. right. now left.
  - intros k Hk. apply Hin. unfold MacOS.readDenyRules. rewrite Hglob.
    right. right. apply in_map_iff.
    exists (MacOS.pathOf (firstn k (MacOS.components (normalize d)))).
    split; [reflexivity |]. now apply ancestorChainRev_prefixes.
  - apply Hin. unfold MacOS.readDenyRules. rewrite Hglob. now left.
  - apply Hin. unfold MacOS.readDenyRules. rewrite Hglob. right. now left.
  - intros k Hk. apply Hin. unfold MacOS.readDenyRules. rewrite Hglob.
    right. right.
    destruct (Nat.eq_dec k (List.length (MacOS.components
                                           (MacOS.globBaseDirectory (normalize d)))))
      as [-> | Hne].
    + left. now rewrite firstn_all.
    + right. apply in_map_iff.
      exists (MacOS.pathOf (firstn k (MacOS.components
                                        (MacOS.globBaseDirectory (normalize d))))).
      split; [reflexivity |]. apply ancestorChainRev_prefixes. lia.
Qed.

Lemma read_deny_blocks_rename_witness :
  In (MacOS.Deny "file-write-unlink" (MacOS.Literal "/tmp/T"))
     (MacOS.readRules (fun p => p) (fun p => p) (Some (mkRead ["/tmp/T/denied"]))).
Proof.
  apply (proj2 (proj2 (proj1 (read_deny_blocks_rename (fun p => p) (fun p => p)
                                (mkRead ["/tmp/T/denied"]) "/tmp/T/denied"
                                (or_introl eq_refl)) eq_refl)) 2).
  vm_compute. lia.
Defined.

Example s3_profile :
  MacOS.readRules (fun p => p) (fun p => p) (Some (mkRead ["/tmp/T/denied"]))
  = [MacOS.Deny "file-read*" (MacOS.Subpath "/tmp/T/denied");
     MacOS.Deny "file-write-unlink" (MacOS.Subpath "/tmp/T/denied");
     MacOS.Deny "file-write-unlink" (MacOS.Literal "/tmp/T");
     MacOS.Deny "file-write-unlink" (MacOS.Literal "/tmp");
     MacOS.Deny "file-write-unlink" (MacOS.Literal "/")].
Proof. vm_compute. reflexivity. Qed.

Example glob_profile :
  MacOS.readRules (fun p => p) (fun p => p) (Some (mkRead ["/tmp/T/glob-test/*.txt"]))
  = [MacOS.Deny "file-read*" (MacOS.Regex "/tmp/T/glob-test/*.txt");
     MacOS.Deny "file-write-unlink" (MacOS.Regex "/tmp/T/glob-test/*.txt");
     MacOS.Deny "file-write-unlink" (MacOS.Literal "/tmp/T/glob-test");
     MacOS.Deny "file-write-unlink" (MacOS.Literal "/tmp/T");
     MacOS.Deny "file-write-unlink" (MacOS.Literal "/tmp");
     MacOS.Deny "file-write-unlink" (MacOS.Literal "/")].
Proof. vm_compute. reflexivity. Qed.

(** ** The boundary test on the cases of its unit tests *)

Example widens_to_root :
  map (fun i => Posix.symlinkWidens i "/") ["/tmp/claude"; "/private/tmp/claude";
                                             "/home/user/data"; "/tmp/claude/"]
  = [true; true; true; true].
Proof. vm_compute. reflexivity. Qed.

Example widens_to_ancestor :
  [Posix.symlinkWidens "/tmp/claude/data" "/tmp";
   Posix.symlinkWidens "/tmp/claude/data" "/tmp/claude";
   Posix.symlinkWidens "/home/user/project/src" "/home";
   Posix.symlinkWidens "/home/user/project/src" "/home/user";
   Posix.symlinkWidens "/var/data" "/var";
   Posix.symlinkWidens "/usr/local/bin" "/usr"]
  = [true; true; true; true; true; true].
Proof. vm_compute. reflexivity. Qed.

Example widens_to_unrelated :
  [Posix.symlinkWidens "/tmp/claude" "/Users/dworken";
   Posix.symlinkWidens "/tmp/claude" "/home/user";
   Posix.symlinkWidens "/tmp/claude" "/etc";
   Posix.symlinkWidens "/tmp/claude" "/opt/data";
   Posix.symlinkWidens "/var/data" "/Users/someone/data"]
  = [true; true; true; true; true].
Proof. vm_compute. reflexivity. Qed.

Example valid_resolutions :
  [Posix.symlinkWidens "/tmp/claude" "/tmp/claude";
   Posix.symlinkWidens "/home/user" "/home/user";
   Posix.symlinkWidens "/tmp/claude" "/private/tmp/claude";
   Posix.symlinkWidens "/tmp/claude/data" "/private/tmp/claude/data";
   Posix.symlinkWidens "/var/folders/xx/yy" "/private/var/folders/xx/yy";
   Posix.symlinkWidens "/tmp/claude" "/tmp/claude/actual";
   Posix.symlinkWidens "/home/user" "/home/user/real";
   Posix.symlinkWidens "/private/tmp/claude" "/private/tmp/claude";
   Posix.symlinkWidens "/private/var/data" "/private/var/data"]
  = [false; false; false; false; false; false; false; false; false].
Proof. vm_compute. reflexivity. Qed.

(** * Further properties of the Linux compiler *)

Section Walkers.

Context {W : Type} {host : Host W}.

Lemma findFirst_as_find (w : W) parts : forall currentPath,
  findFirstNonExistentComponent_loop w parts currentPath
  = find (fun q => negb (existsSync w q)) (prefixPaths parts currentPath).
Proof.
  induction parts as [| part rest IH]; intro cur; cbn [findFirstNonExistentComponent_loop prefixPaths];
    [reflexivity |].
  destruct (part =? EmptyString); [apply IH |].
  cbn [find]. destruct (negb (existsSync w _)); [reflexivity | apply IH].
Qed.

Lemma find_first {A} (f : A -> bool) l x :
  find f l = Some x ->
  exists before after,
    l = before ++ x :: after /\ f x = true /\ forall y, In y before -> f y = false.
Proof.
  induction l as [| a l IH]; cbn [find]; [discriminate |].
  destruct (f a) eqn:E.
  - intro H. injection H as <-. exists [], l. repeat split; auto. intros y [].
  - intro H. destruct (IH H) as (before & after & -> & Hx & Hb).
    exists (a :: before), after. repeat split; auto.
    intros y [<- | Hy]; auto.
Qed.

(** X1. [findFirstNonExistentComponent] answers the target itself when
    every component exists; otherwise it answers a component path that does
    not exist while every component path before it does. *)
Theorem first_missing_component (w : W) (targetPath : string) :
  (findFirstNonExistentComponent w targetPath = targetPath
   /\ forall q, In q (prefixPaths (Js.split targetPath) EmptyString) ->
                existsSync w q = true)
  \/ (existsSync w (findFirstNonExistentComponent w targetPath) = false
      /\ exists before after,
          prefixPaths (Js.split targetPath) EmptyString
          = before ++ findFirstNonExistentComponent w targetPath :: after
          /\ forall q, In q before -> existsSync w q = true).
Proof.
  unfold findFirstNonExistentComponent. rewrite findFirst_as_find.
  destruct (find _ _) as [c |] eqn:E.
  - right. apply find_first in E as (before & after & Hl & Hc & Hb).
    split; [now apply negb_true_iff in Hc |].
    exists before, after. split; [exact Hl |].
    intros q Hq. apply Hb in Hq. now apply negb_false_iff in Hq.
  - left. split; [reflexivity |].
    intros q Hq. pose proof (find_none _ _ E q Hq) as H. now apply negb_false_iff in H.
Qed.

(** The walk of [findSymlinkInPath] over the component paths. *)
Lemma findSymlink_loop_sound (w : W) roots parts : forall currentPath s,
  findSymlinkInPath_loop w roots parts currentPath = Some s ->
  exists before after st,
    prefixPaths parts currentPath = before ++ s :: after
    /\ lstatSync w s = Some st /\ isSymbolicLink st = true
    /\ isWithin roots s = true
    /\ forall q, In q before -> exists sq, lstatSync w q = Some sq
                                /\ isSymbolicLink sq && isWithin roots q = false.
Proof.
  induction parts as [| part rest IH]; intros cur s;
    cbn [findSymlinkInPath_loop prefixPaths]; [discriminate |].
  destruct (part =? EmptyString); [apply IH |].
  destruct (lstatSync w (cur +++ Path.sep +++ part)) as [st |] eqn:El; [| discriminate].
  destruct (isSymbolicLink st && isWithin roots _) eqn:E.
  - intro H. injection H as <-. apply andb_true_iff in E as [E1 E2].
    exists [], (prefixPaths rest (cur +++ Path.sep +++ part)), st.
    repeat split; auto. intros q [].
  - intro H. destruct (IH _ _ H) as (before & after & st' & -> & Hl & Hs & Hw & Hb).
    exists ((cur +++ Path.sep +++ part) :: before), after, st'.
    repeat split; auto.
    intros q [<- | Hq]; [now exists st | now apply Hb].
Qed.

Lemma findSymlink_loop_no_roots (w : W) parts : forall currentPath,
  findSymlinkInPath_loop w [] parts currentPath = None.
Proof.
  induction parts as [| part rest IH]; intro cur; cbn [findSymlinkInPath_loop];
    [reflexivity |].
  destruct (part =? EmptyString); [apply IH |].
  destruct (lstatSync w _) as [st |]; [| reflexivity].
  cbn [isWithin existsb]. rewrite andb_false_r. apply IH.
Qed.

(** X2. What [findSymlinkInPath] answers is a component path of the
    target that [lstat] reports as a symbolic link and that lies within an
    allowed write path; every component path before it exists and is not
    such a link.  Without allowed write paths it answers nothing. *)
Theorem symlink_component_found (w : W) (targetPath : string) (roots : list string) :
  (forall s,
      findSymlinkInPath w targetPath roots = Some s ->
      exists before after st,
        prefixPaths (Js.split targetPath) EmptyString = before ++ s :: after
        /\ lstatSync w s = Some st /\ isSymbolicLink st = true
        /\ isWithin roots s = true
        /\ forall q, In q before ->
                     exists sq, lstatSync w q = Some sq
                                /\ isSymbolicLink sq && isWithin roots q = false)
  /\ findSymlinkInPath w targetPath [] = None.
Proof.
  split.
  - intros s H. now apply findSymlink_loop_sound.
  - apply findSymlink_loop_no_roots.
Qed.

Lemma hasFileAncestor_false (w : W) parts : forall currentPath,
  hasFileAncestor_loop w parts currentPath = false ->
  forall c before after,
    prefixPaths parts currentPath = before ++ c :: after ->
    (forall q, In q before -> existsSync w q = true) ->
    forall q, In q before ->
              exists st, statSync w q = Some st
                         /\ isFile st = false /\ isSymbolicLink st = false.
Proof.
  induction parts as [| part rest IH]; intros cur Hfalse c before after Hl Hex q Hq;
    cbn [hasFileAncestor_loop prefixPaths] in *.
  - destruct before; discriminate.
  - destruct (part =? EmptyString); [eapply IH; eassumption |].
    destruct before as [| b before]; [destruct Hq |].
    cbn [app] in Hl. injection Hl as Hb Hl. subst b.
    assert (Hhere : existsSync w (cur +++ Path.sep +++ part) = true)
      by (apply Hex; now left).
    unfold existsSync in Hhere.
    destruct (statSync w (cur +++ Path.sep +++ part)) as [st |] eqn:Es; [| discriminate].
    destruct (isFile st || isSymbolicLink st) eqn:Ef; [discriminate |].
    apply orb_false_iff in Ef as [Ef1 Ef2].
    destruct Hq as [<- | Hq].
    + exists st. repeat split; assumption.
    + eapply IH; try eassumption. intros q' Hq'. apply Hex. now right.
Qed.

(** X3. Where the deny stage plans an artifact (the path has no file
    ancestor and a missing component), every component path above the
    mount point exists and is neither a regular file nor a link: no mount
    point is ever planned under a file. *)
Theorem artifact_never_under_file (w : W) (targetPath c : string) :
  hasFileAncestor w targetPath = false ->
  findFirstNonExistentComponent_loop w (Js.split targetPath) EmptyString = Some c ->
  existsSync w c = false
  /\ exists before after,
      prefixPaths (Js.split targetPath) EmptyString = before ++ c :: after
      /\ forall q, In q before ->
                   exists st, statSync w q = Some st
                              /\ isFile st = false /\ isSymbolicLink st = false.
Proof.
  intros Hfile Hc. rewrite findFirst_as_find in Hc.
  apply find_first in Hc as (before & after & Hl & Hmiss & Hb).
  split; [now apply negb_true_iff in Hmiss |].
  exists before, after. split; [exact Hl |].
  apply (hasFileAncestor_false w _ _ Hfile c before after Hl).
  intros q Hq. apply Hb in Hq. now apply negb_false_iff in Hq.
Qed.

End Walkers.

Section Compiler.

Context {W : Type} {host : Host W} {sib : Siblings W}.

(** ** Mandatory deny paths *)

Lemma dedupe_NoDup xs : forall seen, NoDup (dedupe seen xs).
Proof.
  induction xs as [| x r IH]; intro seen; cbn [dedupe]; [constructor |].
  destruct (existsb (String.eqb x) seen); [apply IH |].
  constructor; [| apply IH].
  intro Hin. apply dedupe_in in Hin as [_ Hn]. apply Hn. now left.
Qed.

(** X4. [linuxGetMandatoryDenyPaths] lists no path twice; the dangerous
    files and directories of the working directory are listed whatever the
    scan answers; and when the scan fails, the list holds the paths local
    to the working directory and nothing else. *)
Theorem mandatory_denies_best_effort (w : W) rg depth (allowGit : bool) :
  NoDup (linuxGetMandatoryDenyPaths w rg depth allowGit)
  /\ (forall f, In f DANGEROUS_FILES ->
                In (Path.resolve (cwd w) f)
                   (linuxGetMandatoryDenyPaths w rg depth allowGit))
  /\ (forall d, In d getDangerousDirectories ->
                In (Path.resolve (cwd w) d)
                   (linuxGetMandatoryDenyPaths w rg depth allowGit))
  /\ (ripGrep w (ripgrepArgs depth allowGit) (cwd w) rg = None ->
      linuxGetMandatoryDenyPaths w rg depth allowGit
      = dedupe [] (cwdDangerousPaths w ++ cwdGitPaths w allowGit)).
Proof.
  unfold linuxGetMandatoryDenyPaths, mandatoryDenyPathsRaw.
  split; [apply dedupe_NoDup |].
  split; [| split].
  - intros f Hf. apply dedupe_in. split; [| intros []].
    apply in_or_app. left. unfold cwdDangerousPaths. apply in_or_app. left.
    apply in_map_iff. now exists f.
  - intros d Hd. apply dedupe_in. split; [| intros []].
    apply in_or_app. left. unfold cwdDangerousPaths. apply in_or_app. right.
    apply in_map_iff. now exists d.
  - intro Hscan. unfold scanMatches. rewrite Hscan. cbn [flat_map].
    now rewrite app_nil_r.
Qed.

(** ** The stages of [generateFilesystemArgs] *)

Lemma readLoop_spec paths : forall args (st : Proc W),
  readLoop paths args st
  = (Ok (args ++ flat_map (readDirective (world st)) paths), st).
Proof.
  induction paths as [| p rest IH]; intros args st; cbn [readLoop flat_map].
  - unfold ret. now rewrite app_nil_r.
  - unfold bind, readStep, readDirective, existsSync. cbv zeta.
    destruct (statSync (world st) (normalizePathForSandbox (world st) p)) as [s |];
      cbn [negb].
    + destruct (isDirectory s); rewrite IH, <- app_assoc; reflexivity.
    + rewrite IH. reflexivity.
Qed.

Lemma readDirective_kinds (w : W) paths :
  Forall (fun d => isReadDeny d = true) (flat_map (readDirective w) paths).
Proof.
  apply Forall_forall. intros d Hd. apply in_flat_map in Hd as (p & _ & Hd).
  unfold readDirective in Hd. cbv zeta in Hd.
  destruct (statSync w _) as [s |]; [| destruct Hd].
  destruct Hd as [<- | []]. now destruct (isDirectory s).
Qed.

Lemma firstNonExistent_missing (w : W) n :
  findFirstNonExistentComponent w n <> n ->
  existsSync w (findFirstNonExistentComponent w n) = false.
Proof.
  unfold findFirstNonExistentComponent. rewrite findFirst_as_find.
  destruct (find _ _) as [c |] eqn:E; [| congruence].
  intros _. apply find_some in E as [_ E]. now apply negb_true_iff in E.
Qed.

(** One turn of the deny loop: nothing, a stop that leaves the process as
    it was, or one read-only bind over a permitted target. *)
Lemma denyStep_targets roots args p (st : Proc W) :
  (snd (denyStep roots args p st) = st
   /\ (fst (denyStep roots args p st) = Ok args
       \/ fst (denyStep roots args p st) = Diverge
       \/ fst (denyStep roots args p st) = Throw (HostFailure "mkdtempSync")))
  \/ exists src dst,
       fst (denyStep roots args p st) = Ok (args ++ [RoBind src dst])
       /\ ((snd (denyStep roots args p st) = st /\ isWithin roots dst = true)
           \/ (In dst (bwrapMountPoints (snd (denyStep roots args p st)))
               /\ existsSync (world st) dst = false)).
Proof.
  unfold denyStep. cbv zeta.
  destruct (Js.startsWith _ "/dev/"); [left; cbn; auto |].
  destruct (findSymlinkInPath _ _ _) as [s |] eqn:Es.
  { right. exists "/dev/null", s. split; [reflexivity |]. left. split; [reflexivity |].
    apply findSymlink_loop_sound in Es as (? & ? & ? & _ & _ & _ & Hw & _). exact Hw. }
  destruct (existsSync _ _) eqn:Ex; cbn [negb].
  { destruct (isWithin _ _) eqn:Ew; [| left; cbn; auto].
    right. eexists _, _. split; [reflexivity |]. left. now split. }
  destruct (hasFileAncestor _ _); [left; cbn; auto |].
  destruct (nearestExistingAncestor _ _); [| left; cbn; auto].
  destruct (ancestorIsWithinAllowedPath _ _ _); [| left; cbn; auto].
  destruct (negb (_ =? _)) eqn:En.
  - destruct (mkdtempSync _ _) as [[d w'] |]; [| left; cbn; auto].
    right. eexists _, _. split; [reflexivity |]. right. cbn [fst snd]. split.
    + rewrite register_mountPoints. apply setAdd_in.
    + apply firstNonExistent_missing. apply negb_true_iff in En.
      now apply String.eqb_neq in En.
  - right. eexists _, _. split; [reflexivity |]. right. cbn [fst snd]. split.
    + rewrite register_mountPoints. apply setAdd_in.
    + apply negb_false_iff in En. apply String.eqb_eq in En. now rewrite En.
Qed.

Lemma denyLoop_targets roots denyPaths : forall args (st : Proc W) args' st',
  denyLoop roots denyPaths args st = (Ok args', st') ->
  exists denies, args' = args ++ denies /\ Forall (denyTarget roots st') denies.
Proof.
  induction denyPaths as [| p rest IH]; intros args st args' st' H.
  - cbn in H. injection H as <- <-. exists []. now rewrite app_nil_r.
  - cbn [denyLoop] in H. apply bind_ok in H as (a1 & st1 & H1 & H2).
    pose proof (denyLoop_ok _ _ _ _ _ _ H2) as (_ & _ & _ & Hincl & _).
    apply IH in H2 as (denies & -> & Hd).
    destruct (denyStep_targets roots args p st) as [[Hst Hr] | (src & dst & Hr & Hk)];
      rewrite H1 in *; cbn [fst snd] in *.
    + destruct Hr as [Hr | [Hr | Hr]]; try discriminate.
      injection Hr as ->. now exists denies.
    + injection Hr as ->. exists (RoBind src dst :: denies).
      rewrite <- app_assoc. split; [reflexivity |].
      constructor; [| exact Hd]. exists src, dst. split; [reflexivity |].
      destruct Hk as [[_ Hw] | [Hm _]]; [now left | right; now apply Hincl].
Qed.

Lemma generateFilesystemArgs_shape rc wc rg depth git (st : Proc W) args st' :
  generateFilesystemArgs rc (Some wc) rg depth git st = (Ok args, st') ->
  exists denies,
    args = RoBind "/" "/"
           :: map (fun n => Bind n n) (keptPaths (world st) (allowOnly wc))
           ++ denies
           ++ flat_map (readDirective (world st')) (readDenyPathsOf (world st') rc)
    /\ Forall (denyTarget (keptPaths (world st) (allowOnly wc)) st') denies.
Proof.
  unfold generateFilesystemArgs. intro H.
  apply bind_ok in H as ([a1 roots] & st1 & H1 & H2).
  rewrite readLoop_spec in H2. injection H2 as <- <-. cbn [fst].
  unfold writeStage in H1. rewrite allow_fold in H1. cbn [fst snd app] in H1.
  apply bind_ok in H1 as (a2 & st2 & H1 & H2). injection H2 as <- <- <-.
  apply denyLoop_targets in H1 as (denies & -> & Hd).
  exists denies. split; [| exact Hd].
  cbn [app]. now rewrite <- !app_assoc.
Qed.

Lemma generateFilesystemArgs_open rc rg depth git (st : Proc W) :
  generateFilesystemArgs rc None rg depth git st
  = (Ok (Bind "/" "/"
         :: flat_map (readDirective (world st)) (readDenyPathsOf (world st) rc)), st).
Proof.
  unfold generateFilesystemArgs, bind, writeStage. cbn [fst].
  now rewrite readLoop_spec.
Qed.

Lemma denyTarget_RoBind roots (st' : Proc W) denies :
  Forall (denyTarget roots st') denies -> Forall (fun d => isRoBind d = true) denies.
Proof.
  intro H. eapply Forall_impl; [| exact H].
  intros d (src & dst & -> & _). reflexivity.
Qed.

(** X5. The order of the filesystem vector under a write policy: the
    read-only root first, then one writable bind per kept allow path, then
    the read-only binds of the deny stage, then the directives of the read
    stage, so that every deny is mounted over the allows it restricts. *)
Theorem filesystem_vector_order rc wc rg depth git (st : Proc W) args st' :
  generateFilesystemArgs rc (Some wc) rg depth git st = (Ok args, st') ->
  exists denies reads,
    args = RoBind "/" "/"
           :: map (fun n => Bind n n) (keptPaths (world st) (allowOnly wc))
           ++ denies ++ reads
    /\ Forall (fun d => isRoBind d = true) denies
    /\ Forall (fun d => isReadDeny d = true) reads
    /\ length reads <= length (readDenyPathsOf (world st') rc).
Proof.
  intro H. apply generateFilesystemArgs_shape in H as (denies & -> & Hd).
  exists denies, (flat_map (readDirective (world st')) (readDenyPathsOf (world st') rc)).
  split; [reflexivity |]. split; [eapply denyTarget_RoBind; exact Hd |].
  split; [apply readDirective_kinds |].
  induction (readDenyPathsOf (world st') rc) as [| p ps IH]; cbn [flat_map length];
    [lia |].
  rewrite length_app. unfold readDirective at 1. cbv zeta.
  destruct (statSync _ _); cbn [length]; lia.
Qed.

(** X6. Without a write policy the filesystem stage binds the whole root
    writable, consults no deny path, never fails and leaves the process
    state as it was; what follows the root are read-stage directives
    only. *)
Theorem no_write_policy_opens_root rc rg depth git (st : Proc W) :
  exists reads,
    generateFilesystemArgs rc None rg depth git st = (Ok (Bind "/" "/" :: reads), st)
    /\ Forall (fun d => isReadDeny d = true) reads
    /\ (readDenyPathsOf (world st) rc = [] -> reads = []).
Proof.
  exists (flat_map (readDirective (world st)) (readDenyPathsOf (world st) rc)).
  split; [apply generateFilesystemArgs_open |].
  split; [apply readDirective_kinds |].
  now intros ->.
Qed.

Lemma generateFilesystemArgs_reads rc wc rg depth git (st : Proc W) args st' :
  generateFilesystemArgs rc wc rg depth git st = (Ok args, st') ->
  exists front,
    args = front ++ flat_map (readDirective (world st')) (readDenyPathsOf (world st') rc).
Proof.
  destruct wc as [wc |].
  - intro H. apply generateFilesystemArgs_shape in H as (denies & -> & _).
    eexists (_ :: _ ++ _). cbn [app]. now rewrite <- app_assoc.
  - rewrite generateFilesystemArgs_open. intro H. injection H as <- <-.
    now exists [Bind "/" "/"].
Qed.

(** X7. Every read-deny path whose normalized form exists when the read
    stage runs is hidden: a directory under an empty [tmpfs], anything else
    under [/dev/null].  The paths considered are those of the read policy
    and, with or without a policy, [/etc/ssh/ssh_config.d] whenever it
    exists. *)
Theorem read_denies_are_hidden rc wc rg depth git (st : Proc W) args st' :
  generateFilesystemArgs rc wc rg depth git st = (Ok args, st') ->
  (forall p s,
      In p (readDenyPathsOf (world st') rc) ->
      statSync (world st') (normalizePathForSandbox (world st') p) = Some s ->
      In (if isDirectory s then Tmpfs (normalizePathForSandbox (world st') p)
          else RoBind "/dev/null" (normalizePathForSandbox (world st') p)) args)
  /\ (forall r p, rc = Some r -> In p (denyOnly r) ->
                  In p (readDenyPathsOf (world st') rc))
  /\ (existsSync (world st') "/etc/ssh/ssh_config.d" = true ->
      In "/etc/ssh/ssh_config.d" (readDenyPathsOf (world st') rc)).
Proof.
  intro H. apply generateFilesystemArgs_reads in H as (front & ->).
  split; [| split].
  - intros p s Hp Hs. apply in_or_app. right.
    apply in_flat_map. exists p. split; [exact Hp |].
    unfold readDirective. cbv zeta. rewrite Hs. now left.
  - intros r p -> Hp. unfold readDenyPathsOf. apply in_or_app. now left.
  - intro Hs. unfold readDenyPathsOf. rewrite Hs. apply in_or_app. right. now left.
Qed.

(** X8. Under a write policy, what the deny stage mounts is read-only and
    lands either within an allowed write root or on a mount point that is
    recorded for the reaper when the compilation ends: it never covers a
    path outside the writable area without a record. *)
Theorem deny_binds_are_accounted rc wc rg depth git (st : Proc W) args st' :
  generateFilesystemArgs rc (Some wc) rg depth git st = (Ok args, st') ->
  exists denies,
    args = RoBind "/" "/"
           :: map (fun n => Bind n n) (keptPaths (world st) (allowOnly wc))
           ++ denies
           ++ flat_map (readDirective (world st')) (readDenyPathsOf (world st') rc)
    /\ forall d, In d denies ->
         exists src dst,
           d = RoBind src dst
           /\ (isWithin (keptPaths (world st) (allowOnly wc)) dst = true
               \/ In dst (bwrapMountPoints st')).
Proof.
  intro H. apply generateFilesystemArgs_shape in H as (denies & -> & Hd).
  exists denies. split; [reflexivity |].
  intros d Hin. rewrite Forall_forall in Hd. exact (Hd d Hin).
Qed.

Lemma allowKept_inv (w : W) n :
  allowKept w n = true ->
  Js.startsWith n "/dev/" = false
  /\ existsSync w n = true
  /\ exists r, realpathSync w n = Some r
               /\ (r = Js.trimTrailingSlashes n \/ isSymlinkOutsideBoundary n r = false).
Proof.
  unfold allowKept, skippedAsWidening. intro H.
  apply andb_true_iff in H as [H Hr]. apply andb_true_iff in H as [Hd He].
  apply negb_true_iff in Hd. repeat split; auto.
  destruct (realpathSync w n) as [r |]; [| discriminate].
  exists r. split; [reflexivity |].
  apply negb_true_iff, andb_false_iff in Hr as [Hr | Hr]; [left | now right].
  apply negb_false_iff in Hr. now apply String.eqb_eq in Hr.
Qed.

(** X9. Under a write policy, every writable bind of the filesystem vector
    binds a path onto itself, and that path is the normalized form of an
    entry of [allowOnly] which exists, lies outside [/dev/], resolves, and
    either resolves to itself (trailing slashes apart) or passes the
    boundary test: nothing else is ever made writable. *)
Theorem writable_binds_are_vetted rc wc rg depth git (st : Proc W) args st' src dst :
  generateFilesystemArgs rc (Some wc) rg depth git st = (Ok args, st') ->
  In (Bind src dst) args ->
  src = dst
  /\ (exists a, In a (allowOnly wc) /\ src = normalizePathForSandbox (world st) a)
  /\ Js.startsWith src "/dev/" = false
  /\ existsSync (world st) src = true
  /\ exists r, realpathSync (world st) src = Some r
               /\ (r = Js.trimTrailingSlashes src
                   \/ isSymlinkOutsideBoundary src r = false).
Proof.
  intros H Hin. apply (bind_in_compiled _ _ _ _ _ _ _ _ src dst H) in Hin as [<- Hk].
  unfold keptPaths in Hk. apply filter_In in Hk as [Hm Hk].
  apply in_map_iff in Hm as (a & <- & Ha).
  split; [reflexivity |]. split; [now exists a |].
  now apply allowKept_inv.
Qed.

Lemma denyStep_no_roots args p (st : Proc W) :
  denyStep [] args p st = (Ok args, st) \/ denyStep [] args p st = (Diverge, st).
Proof.
  unfold denyStep, findSymlinkInPath. cbv zeta.
  rewrite findSymlink_loop_no_roots.
  destruct (Js.startsWith _ "/dev/"); [now left |].
  destruct (negb (existsSync _ _)); [| now left].
  destruct (hasFileAncestor _ _); [now left |].
  destruct (nearestExistingAncestor _ _); [now left | now right].
Qed.

Lemma denyLoop_no_roots denyPaths : forall args (st : Proc W),
  denyLoop [] denyPaths args st = (Ok args, st)
  \/ denyLoop [] denyPaths args st = (Diverge, st).
Proof.
  induction denyPaths as [| p rest IH]; intros args st; [now left |].
  cbn [denyLoop]. unfold bind.
  destruct (denyStep_no_roots args p st) as [-> | ->]; [apply IH | now right].
Qed.

Lemma writeStage_no_roots wc rg depth git (st : Proc W) :
  keptPaths (world st) (allowOnly wc) = [] ->
  writeStage (Some wc) rg depth git st = (Ok ([RoBind "/" "/"], []), st)
  \/ writeStage (Some wc) rg depth git st = (Diverge, st).
Proof.
  intro Hk. unfold writeStage. rewrite allow_fold, Hk. cbn [fst snd app map].
  unfold bind.
  destruct (denyLoop_no_roots
              (denyWithinAllow wc
               ++ linuxGetMandatoryDenyPaths (world st) rg depth git)
              [RoBind "/" "/"] st) as [E | E]; rewrite E; [left | right]; reflexivity.
Qed.

(** X10. When the allow stage keeps no path (none listed, or every entry
    missing, under [/dev/] or refused as a link), the deny stage mounts
    nothing, creates no temporary directory and records nothing: the
    vector is the read-only root followed by the read stage only, and the
    process state is untouched.  The one other outcome is the ancestor
    loop not ending. *)
Theorem no_roots_no_denies rc wc rg depth git (st : Proc W) :
  keptPaths (world st) (allowOnly wc) = [] ->
  generateFilesystemArgs rc (Some wc) rg depth git st
  = (Ok (RoBind "/" "/"
         :: flat_map (readDirective (world st)) (readDenyPathsOf (world st) rc)), st)
  \/ generateFilesystemArgs rc (Some wc) rg depth git st = (Diverge, st).
Proof.
  intro Hk. unfold generateFilesystemArgs, bind.
  destruct (writeStage_no_roots wc rg depth git st Hk) as [E | E]; rewrite E.
  - left. cbn [fst]. now rewrite readLoop_spec.
  - now right.
Qed.

End Compiler.

(** * Further properties of [wrapCommandWithSandboxLinux] *)

Section Wrapper.

Context {W : Type} {host : Host W} {sib : Siblings W}.

Lemma networkStage_state params (st : Proc W) : snd (networkStage params st) = st.
Proof.
  unfold networkStage.
  destruct (needsNetworkRestriction params); [| reflexivity].
  destruct (bridgeRequested params); [| reflexivity]. cbv zeta.
  destruct (negb (existsSync _ _)); [reflexivity |].
  destruct (negb (existsSync _ _)); reflexivity.
Qed.

Lemma networkStage_ok params (st : Proc W) net st' :
  networkStage params st = (Ok net, st') ->
  st' = st
  /\ ((needsNetworkRestriction params = false /\ net = [])
      \/ (needsNetworkRestriction params = true /\ bridgeRequested params = false
          /\ net = [UnshareNet])
      \/ (needsNetworkRestriction params = true /\ bridgeRequested params = true
          /\ existsSync (world st) (orDefault (httpSocketPath params) EmptyString) = true
          /\ existsSync (world st) (orDefault (socksSocketPath params) EmptyString) = true
          /\ exists envs,
               net = UnshareNet
                     :: Bind (orDefault (httpSocketPath params) EmptyString)
                             (orDefault (httpSocketPath params) EmptyString)
                     :: Bind (orDefault (socksSocketPath params) EmptyString)
                             (orDefault (socksSocketPath params) EmptyString)
                     :: envs
               /\ Forall (fun d => isSetenv d = true) envs)).
Proof.
  unfold networkStage.
  destruct (needsNetworkRestriction params).
  2:{ intro H. injection H as <- <-. split; [reflexivity |]. left. now split. }
  destruct (bridgeRequested params).
  2:{ intro H. injection H as <- <-. split; [reflexivity |]. right. left. now repeat split. }
  cbv zeta.
  destruct (existsSync _ (orDefault (httpSocketPath params) _)) eqn:Eh; cbn [negb];
    [| discriminate].
  destruct (existsSync _ (orDefault (socksSocketPath params) _)) eqn:Es; cbn [negb];
    [| discriminate].
  intro H. injection H as <- <-. split; [reflexivity |]. right. right.
  repeat split; auto. eexists. split; [reflexivity |].
  repeat (apply Forall_app; split).
  - apply Forall_forall. intros d Hd. apply in_map_iff in Hd as (? & <- & _). reflexivity.
  - destruct (httpProxyPort params); repeat constructor.
  - destruct (socksProxyPort params); repeat constructor.
Qed.

Lemma generateFilesystemArgs_mounts rc wc rg depth git (st : Proc W) fs st' :
  generateFilesystemArgs rc wc rg depth git st = (Ok fs, st') ->
  exists rest,
    fs = (match wc with Some _ => RoBind "/" "/" | None => Bind "/" "/" end) :: rest
    /\ Forall (fun d => isMount d = true) rest.
Proof.
  assert (Hreads : forall w paths,
             Forall (fun d => isMount d = true) (flat_map (readDirective w) paths)).
  { intros w paths. eapply Forall_impl; [| apply readDirective_kinds].
    intros [] Hd; try discriminate; reflexivity. }
  destruct wc as [wc |].
  - intro H. apply generateFilesystemArgs_shape in H as (denies & -> & Hd).
    eexists. split; [reflexivity |].
    repeat (apply Forall_app; split).
    + apply Forall_forall. intros d Hin. apply in_map_iff in Hin as (? & <- & _).
      reflexivity.
    + eapply Forall_impl; [| exact Hd]. intros d (src & dst & -> & _). reflexivity.
    + apply Hreads.
  - rewrite generateFilesystemArgs_open. intro H. injection H as <- <-.
    eexists. split; [reflexivity | apply Hreads].
Qed.

Lemma innerBinds_filter (w : W) paths :
  innerBinds w (filter (existsSync w) paths)
  = map (fun p => Bind p p)
      (filter (fun p => negb (Js.startsWith p "/dev/" || (p =? "/dev"))
                        && existsSync w p) paths).
Proof.
  induction paths as [| p rest IH]; [reflexivity |].
  cbn [filter]. destruct (existsSync w p) eqn:Ex.
  - cbn [innerBinds]. destruct (Js.startsWith p "/dev/" || (p =? "/dev")); cbn [negb andb].
    + exact IH.
    + rewrite Ex. cbn [map]. now rewrite IH.
  - rewrite andb_false_r. exact IH.
Qed.

(** What a successful [payloadStage] returns, by kind. *)
Lemma payloadStage_ok params o shell (st : Proc W) pl st' :
  payloadStage params o shell st = (Ok pl, st') ->
  shell <> EmptyString ->
  st' = st
  /\ appliesSeccomp pl = truthy o
  /\ usesBridge pl = needsNetworkRestriction params && bridgeRequested params
  /\ match pl with
     | NestedSandbox socat f inner sh cmd =>
         o = Some f /\ sh = shell /\ cmd = command params
         /\ socat = socatCommands (orDefault (httpSocketPath params) EmptyString)
                      (orDefault (socksSocketPath params) EmptyString)
         /\ inner = [UnshareAll; ShareNet; RoBind "/" "/"]
                    ++ map (fun p => Bind p p)
                         (filter (fun p => negb (Js.startsWith p "/dev/" || (p =? "/dev"))
                                           && existsSync (world st) p)
                            (map (normalizePathForSandbox (world st))
                               (allowOnlyOf params)))
                    ++ [Dev "/dev"; Seccomp "3"]
     | BridgeOnly socat sh cmd =>
         sh = shell /\ cmd = command params
         /\ socat = socatCommands (orDefault (httpSocketPath params) EmptyString)
                      (orDefault (socksSocketPath params) EmptyString)
     | ApplySeccomp binary f sh cmd =>
         o = Some f /\ sh = shell /\ cmd = command params /\ binary <> EmptyString
         /\ getApplySeccompBinaryPath (world st) (applyPathOf (seccompConfig params))
            = Some binary
     | DirectCommand cmd => cmd = command params
     end.
Proof.
  intros H Hshell. apply String.eqb_neq in Hshell.
  unfold payloadStage in H.
  destruct (needsNetworkRestriction params && bridgeRequested params).
  - injection H as <- <-. split; [reflexivity |].
    unfold buildSandboxPayload. cbn [truthy]. rewrite Hshell. cbn [negb].
    destruct o as [f |]; cbn [truthy].
    + destruct (f =? EmptyString); cbn [negb appliesSeccomp usesBridge];
        repeat split; try reflexivity.
      unfold innerBwrapDirectives, allowOnlyOf. now rewrite innerBinds_filter.
    + cbn [appliesSeccomp usesBridge]. repeat split; reflexivity.
  - destruct o as [f |]; cbn [truthy] in *.
    + destruct (f =? EmptyString) eqn:Ef; cbn [negb] in H.
      * injection H as <- <-. cbn. repeat split; reflexivity.
      * unfold applyPathOf.
        destruct (getApplySeccompBinaryPath _ _) as [b |]; [| discriminate].
        destruct (b =? EmptyString) eqn:Eb; [discriminate |].
        injection H as <- <-. cbn [appliesSeccomp usesBridge orDefault negb].
        apply String.eqb_neq in Eb. repeat split; auto.
    + injection H as <- <-. cbn. repeat split; reflexivity.
Qed.

(** A successful compilation, stage by stage. *)
Lemma plan_ok_inv params (st : Proc W) c st' :
  wrapCommandWithSandboxLinux_plan params st = (Ok (Sandboxed c), st') ->
  exists o st1 net fs,
    seccompStage params st = (Ok o, st1)
    /\ networkStage params st1 = (Ok net, st1)
    /\ generateFilesystemArgs (readConfig params) (writeConfig params)
         (orDefault (ripgrepConfig params) defaultRipgrepConfig)
         (orDefault (mandatoryDenySearchDepth params) DEFAULT_MANDATORY_DENY_SEARCH_DEPTH)
         (orDefault (allowGitConfig params) false) st1 = (Ok fs, st')
    /\ whichSync (world st') (shellNameOf params) = Some (shellBinary c)
    /\ shellBinary c <> EmptyString
    /\ payloadStage params o (shellBinary c) st' = (Ok (payload c), st')
    /\ bwrapArgs c
       = [NewSession; DieWithParent] ++ net ++ fs ++ [Dev "/dev"; UnsharePid]
         ++ (if negb (enableWeakerNestedSandbox params) then [ProcFs "/proc"] else []).
Proof.
  unfold wrapCommandWithSandboxLinux_plan.
  destruct (negb _ && negb _ && negb _); [discriminate |].
  intro H. apply bind_ok in H as (o & st1 & Hs & H).
  apply bind_ok in H as (c' & st2 & H & E). injection E as -> <-.
  unfold tryCatch in H.
  destruct (compileStages params o st1) as [[c0 | e0 |] st3] eqn:Ec.
  - injection H as -> <-. unfold compileStages in Ec.
    apply bind_ok in Ec as (net & s1 & Hn & Ec).
    apply bind_ok in Ec as (fs & s2 & Hf & Ec).
    pose proof (networkStage_ok _ _ _ _ Hn) as [-> _].
    fold (shellNameOf params) in Ec.
    destruct (whichSync (world s2) (shellNameOf params)) as [shell |] eqn:Ew;
      [| discriminate].
    destruct (shell =? EmptyString) eqn:Esh; [discriminate |].
    apply bind_ok in Ec as (pl & s3 & Hp & E).
    destruct (payloadStage_cases params o shell s2) as [(pl' & E' & _) | [E' _]];
      rewrite E' in Hp; [| discriminate].
    injection Hp as <- <-. injection E as <- <-. cbn [shellBinary payload bwrapArgs].
    apply String.eqb_neq in Esh.
    exists o, st1, net, fs. repeat split; auto.
  - pose proof (cleanupOnError_rethrows o e0 st3) as Hre. rewrite H in Hre. discriminate.
  - discriminate.
Qed.

(** X11. The frame of every compiled vector: the session flags, then the
    network block, then the root bind (read-only exactly when there is a
    write policy) and the other mounts of the filesystem stage, and only
    after all of them the fresh [/dev], the PID namespace and, unless the
    weaker nested mode is asked for, [/proc]. *)
Theorem sandbox_vector_frame params (st : Proc W) c st' :
  wrapCommandWithSandboxLinux_plan params st = (Ok (Sandboxed c), st') ->
  exists net rest,
    bwrapArgs c
    = [NewSession; DieWithParent] ++ net
      ++ [if hasWriteRestrictions params then RoBind "/" "/" else Bind "/" "/"]
      ++ rest
      ++ [Dev "/dev"; UnsharePid]
      ++ (if enableWeakerNestedSandbox params then [] else [ProcFs "/proc"])
    /\ Forall (fun d => isNetwork d || isBind d = true) net
    /\ Forall (fun d => isMount d = true) rest.
Proof.
  intro H. apply plan_ok_inv in H as (o & st1 & net & fs & _ & Hn & Hf & _ & _ & _ & ->).
  apply generateFilesystemArgs_mounts in Hf as (rest & -> & Hrest).
  exists net, rest. split; [| split; [| exact Hrest]].
  - unfold hasWriteRestrictions.
    destruct (writeConfig params), (enableWeakerNestedSandbox params);
      cbn [negb app]; now rewrite <- ?app_assoc.
  - apply networkStage_ok in Hn as [_ [[_ ->] | [(_ & _ & ->) | (_ & _ & _ & _ & envs & -> & He)]]].
    + constructor.
    + repeat constructor.
    + repeat (constructor; [reflexivity |]).
      eapply Forall_impl; [| exact He]. intros [] Hd; try discriminate; reflexivity.
Qed.

Lemma mounts_not_network l :
  Forall (fun d => isMount d = true) l ->
  forall d, In d l -> isNetwork d = false.
Proof.
  intros H d Hd. rewrite Forall_forall in H. apply H in Hd.
  destruct d; try discriminate; reflexivity.
Qed.

(** X12. The network of a compiled command: the vector unshares the
    network exactly when [needsNetworkRestriction] is set; environment
    variables are set, and the two bridge sockets bound, only when both
    socket paths are given as well; and the payload starts the in-sandbox
    relays exactly in that case. *)
Theorem network_isolation params (st : Proc W) c st' :
  wrapCommandWithSandboxLinux_plan params st = (Ok (Sandboxed c), st') ->
  (In UnshareNet (bwrapArgs c) <-> needsNetworkRestriction params = true)
  /\ ((exists k v, In (Setenv k v) (bwrapArgs c)) ->
      needsNetworkRestriction params = true /\ bridgeRequested params = true)
  /\ usesBridge (payload c)
     = needsNetworkRestriction params && bridgeRequested params
  /\ (needsNetworkRestriction params = true -> bridgeRequested params = true ->
      In (Bind (orDefault (httpSocketPath params) EmptyString)
               (orDefault (httpSocketPath params) EmptyString)) (bwrapArgs c)
      /\ In (Bind (orDefault (socksSocketPath params) EmptyString)
                  (orDefault (socksSocketPath params) EmptyString)) (bwrapArgs c)).
Proof.
  intro H.
  apply plan_ok_inv in H as (o & st1 & net & fs & _ & Hn & Hf & _ & Hsh & Hp & ->).
  apply generateFilesystemArgs_mounts in Hf as (rest & -> & Hrest).
  apply (payloadStage_ok _ _ _ _ _ _ Hp) in Hsh as (_ & _ & Hb & _).
  assert (Hfs : forall d, In d ((match writeConfig params with
                                 | Some _ => RoBind "/" "/"
                                 | None => Bind "/" "/"
                                 end) :: rest) -> isNetwork d = false).
  { intros d [<- | Hd]; [now destruct (writeConfig params) |].
    now apply (mounts_not_network rest). }
  assert (Htail : forall d,
             In d ([Dev "/dev"; UnsharePid]
                   ++ (if negb (enableWeakerNestedSandbox params)
                       then [ProcFs "/proc"] else [])) -> isNetwork d = false).
  { intros d Hd. destruct (enableWeakerNestedSandbox params); cbn in Hd;
      repeat (destruct Hd as [<- | Hd]; [reflexivity |]); destruct Hd. }
  assert (Hnet : forall d, isNetwork d = true ->
             In d ([NewSession; DieWithParent] ++ net
                   ++ ((match writeConfig params with
                        | Some _ => RoBind "/" "/"
                        | None => Bind "/" "/"
                        end) :: rest)
                   ++ [Dev "/dev"; UnsharePid]
                   ++ (if negb (enableWeakerNestedSandbox params)
                       then [ProcFs "/proc"] else [])) ->
             In d net).
  { intros d Hd Hin. apply in_app_or in Hin as [Hin | Hin].
    - destruct Hin as [<- | [<- | []]]; discriminate.
    - apply in_app_or in Hin as [Hin | Hin]; [exact Hin |].
      apply in_app_or in Hin as [Hin | Hin].
      + apply Hfs in Hin. congruence.
      + apply Htail in Hin. congruence. }
  apply networkStage_ok in Hn
    as [_ [[Hneeds ->] | [(Hneeds & Hbr & ->) | (Hneeds & Hbr & _ & _ & envs & -> & He)]]];
    rewrite Hneeds in *; try rewrite Hbr in *.
  - split; [| split; [| split]]; try discriminate; try exact Hb.
    + split; [| discriminate]. intro Hin. apply Hnet in Hin; [destruct Hin | reflexivity].
    + intros (k & v & Hin). apply Hnet in Hin; [destruct Hin | reflexivity].
  - split; [| split; [| split]]; try discriminate; try exact Hb.
    + split; [reflexivity |]. intros _. right. right. now left.
    + intros (k & v & Hin). apply Hnet in Hin; [| reflexivity].
      destruct Hin as [Hin | []]. discriminate.
  - split; [| split; [| split]]; try exact Hb.
    + split; [reflexivity |]. intros _. right. right. now left.
    + intros _. now split.
    + intros _ _. split; right; right; right; [now left | right; now left].
Qed.

(** X13. The user command runs under the seccomp filter exactly when the
    seccomp block produced one, hence never with [allowAllUnixSockets];
    and where the filter is applied without the network bridge, the
    payload names the filter of that block, the resolved shell and a
    non-empty apply binary. *)
Theorem seccomp_payload params (st : Proc W) c st' :
  wrapCommandWithSandboxLinux_plan params st = (Ok (Sandboxed c), st') ->
  exists o st1,
    seccompStage params st = (Ok o, st1)
    /\ appliesSeccomp (payload c) = truthy o
    /\ (allowAllUnixSockets params = true -> appliesSeccomp (payload c) = false)
    /\ forall binary f sh cmd,
         payload c = ApplySeccomp binary f sh cmd ->
         o = Some f /\ sh = shellBinary c /\ cmd = command params
         /\ binary <> EmptyString
         /\ needsNetworkRestriction params && bridgeRequested params = false.
Proof.
  intro H.
  apply plan_ok_inv in H as (o & st1 & net & fs & Hs & _ & _ & _ & Hsh & Hp & _).
  apply (payloadStage_ok _ _ _ _ _ _ Hp) in Hsh as (_ & Ha & Hb & Hk).
  exists o, st1. split; [exact Hs |]. split; [exact Ha |]. split.
  - intro Hall. rewrite Ha.
    destruct (seccompStage_ok params st) as (o' & st1' & Hs' & _ & _ & Hnone & _).
    rewrite Hs in Hs'. injection Hs' as <- <-. now rewrite (Hnone Hall).
  - intros binary f sh cmd E. rewrite E in Hk, Hb. cbn [usesBridge] in Hb.
    destruct Hk as (-> & -> & -> & Hne & _). now repeat split.
Qed.

(** X14. With the bridge and a filter, the inner invocation of the sandbox
    tool is framed by the unshare flags and a read-only root in front and
    by [/dev] and the filter on descriptor 3 behind; in between it binds
    writable, in the order of [allowOnly], exactly the normalized allow
    paths that exist and are neither [/dev] nor below it.  It runs the
    user command with the shell the outer stage resolved. *)
Theorem nested_stage_vector params (st : Proc W) c st' socat f inner sh cmd :
  wrapCommandWithSandboxLinux_plan params st = (Ok (Sandboxed c), st') ->
  payload c = NestedSandbox socat f inner sh cmd ->
  inner = [UnshareAll; ShareNet; RoBind "/" "/"]
          ++ map (fun p => Bind p p)
               (filter (fun p => negb (Js.startsWith p "/dev/" || (p =? "/dev"))
                                 && existsSync (world st') p)
                  (map (normalizePathForSandbox (world st')) (allowOnlyOf params)))
          ++ [Dev "/dev"; Seccomp "3"]
  /\ sh = shellBinary c
  /\ cmd = command params
  /\ socat = socatCommands (orDefault (httpSocketPath params) EmptyString)
               (orDefault (socksSocketPath params) EmptyString)
  /\ exists st1, seccompStage params st = (Ok (Some f), st1).
Proof.
  intros H E.
  apply plan_ok_inv in H as (o & st1 & net & fs & Hs & _ & _ & _ & Hsh & Hp & _).
  apply (payloadStage_ok _ _ _ _ _ _ Hp) in Hsh as (_ & _ & _ & Hk).
  rewrite E in Hk. destruct Hk as (-> & -> & -> & -> & ->).
  repeat split. now exists st1.
Qed.

(** ** What every outcome keeps *)

Lemma handlerKept_refl (st : Proc W) : handlerKept st st.
Proof. split; [auto | right; now split]. Qed.

Lemma handlerKept_trans (a b c : Proc W) :
  handlerKept a b -> handlerKept b c -> handlerKept a c.
Proof.
  intros [H1 H2] [H3 H4]. split; [auto |].
  destruct H4 as [H4 | [Hm Hf]]; [now left |].
  destruct H2 as [H2 | [Hm' Hf']]; [left; auto | right; split; congruence].
Qed.

Lemma compileKeeps_refl (st : Proc W) : compileKeeps st st.
Proof. split; [apply handlerKept_refl | split; [reflexivity | apply incl_refl]]. Qed.

Lemma compileKeeps_trans (a b c : Proc W) :
  compileKeeps a b -> compileKeeps b c -> compileKeeps a c.
Proof.
  intros (H1 & H2 & H3) (H4 & H5 & H6).
  split; [eapply handlerKept_trans; eassumption |].
  split; [congruence | eapply incl_tran; eassumption].
Qed.

Lemma bind_keeps {A B} (m : M W A) (k : A -> M W B) (st : Proc W) :
  compileKeeps st (snd (m st)) ->
  (forall a st1, compileKeeps st1 (snd (k a st1))) ->
  compileKeeps st (snd (bind m k st)).
Proof.
  intros Hm Hk. unfold bind. destruct (m st) as [[a | e |] st1]; cbn [snd] in *.
  - eapply compileKeeps_trans; [exact Hm | apply Hk].
  - exact Hm.
  - exact Hm.
Qed.

Lemma denyStep_keeps roots args p (st : Proc W) :
  compileKeeps st (snd (denyStep roots args p st)).
Proof.
  pose proof (denyStep_outcome roots args p st) as O.
  destruct (denyStep roots args p st) as [r st1]. cbn [fst snd] in *.
  inversion O; subst; try apply compileKeeps_refl.
  split; [split; [auto | now left] | split; assumption].
Qed.

Lemma denyLoop_state roots denyPaths : forall args (st : Proc W),
  compileKeeps st (snd (denyLoop roots denyPaths args st)).
Proof.
  induction denyPaths as [| p rest IH]; intros args st; cbn [denyLoop].
  - apply compileKeeps_refl.
  - apply bind_keeps; [apply denyStep_keeps | intros; apply IH].
Qed.

Lemma generateFilesystemArgs_keeps rc wc rg depth git (st : Proc W) :
  compileKeeps st (snd (generateFilesystemArgs rc wc rg depth git st)).
Proof.
  unfold generateFilesystemArgs. apply bind_keeps.
  - unfold writeStage. destruct wc as [wc |]; [| apply compileKeeps_refl].
    cbv zeta. apply bind_keeps; [apply denyLoop_state |].
    intros; apply compileKeeps_refl.
  - intros written st1. rewrite readLoop_spec. apply compileKeeps_refl.
Qed.

Lemma compileStages_keeps params o (st : Proc W) :
  compileKeeps st (snd (compileStages params o st)).
Proof.
  unfold compileStages. apply bind_keeps.
  - rewrite networkStage_state. apply compileKeeps_refl.
  - intros net st1. apply bind_keeps; [apply generateFilesystemArgs_keeps |].
    intros fs st2. cbv zeta.
    destruct (whichSync _ _) as [shell |]; [| apply compileKeeps_refl].
    destruct (shell =? EmptyString); [apply compileKeeps_refl |].
    apply bind_keeps; [| intros; apply compileKeeps_refl].
    destruct (payloadStage_cases params o shell st2) as [(pl & -> & _) | [-> _]];
      apply compileKeeps_refl.
Qed.

(** The seccomp block, with what it does to the registries. *)
Lemma seccompStage_registers params (st : Proc W) o st1 :
  seccompStage params st = (Ok o, st1) ->
  handlerKept st st1
  /\ bwrapMountPoints st1 = bwrapMountPoints st
  /\ match o with
     | Some f =>
         f <> EmptyString
         /\ if Js.includes f "/vendor/seccomp/"
            then generatedSeccompFilters st1 = generatedSeccompFilters st
            else generatedSeccompFilters st1 = setAdd f (generatedSeccompFilters st)
                 /\ exitHandlerRegistered st1 = true
     | None => generatedSeccompFilters st1 = generatedSeccompFilters st
     end.
Proof.
  unfold seccompStage. destruct (allowAllUnixSockets params); cbn [negb].
  { intro H. injection H as <- <-. split; [apply handlerKept_refl | now split]. }
  destruct (generateSeccompFilter _ _) as [g w1]. cbn [fst snd].
  assert (Hw : handlerKept st (setWorld w1 st)) by (split; [auto | right; now split]).
  destruct (truthy g) eqn:Eg; cbn [negb orb].
  2:{ intro H. injection H as <- <-. split; [exact Hw | split; reflexivity]. }
  destruct (truthy (getApplySeccompBinaryPath _ _)); cbn [negb].
  2:{ intro H. injection H as <- <-. split; [exact Hw | split; reflexivity]. }
  destruct g as [f |]; [| discriminate]. cbn [truthy] in Eg.
  apply negb_true_iff, String.eqb_neq in Eg.
  destruct (Js.includes f "/vendor/seccomp/") eqn:Ev; cbn [negb];
    intro H; injection H as <- <-.
  - rewrite Ev. split; [exact Hw | split; [reflexivity | split; [exact Eg | reflexivity]]].
  - rewrite Ev. split; [| split; [| split; [exact Eg | split]]].
    + split; [intros _; apply register_flag | left; apply register_flag].
    + now rewrite register_mountPoints.
    + now rewrite register_filters.
    + apply register_flag.
Qed.

Lemma seccompStage_total params (st : Proc W) :
  exists o st1, seccompStage params st = (Ok o, st1).
Proof.
  destruct (seccompStage_ok params st) as (o & st1 & H & _). now exists o, st1.
Qed.

Lemma cleanupOnError_state o e (st : Proc W) :
  snd (cleanupOnError o e st) = st
  \/ exists f,
       o = Some f /\ f <> EmptyString /\ Js.includes f "/vendor/seccomp/" = false
       /\ bwrapMountPoints (snd (cleanupOnError o e st)) = bwrapMountPoints st
       /\ generatedSeccompFilters (snd (cleanupOnError o e st))
          = setDelete f (generatedSeccompFilters st)
       /\ exitHandlerRegistered (snd (cleanupOnError o e st)) = exitHandlerRegistered st
       /\ world (snd (cleanupOnError o e st)) = filterCleaned (world st) f.
Proof.
  unfold cleanupOnError. destruct o as [f |]; [| now left].
  destruct (f =? EmptyString) eqn:Ef; cbn [negb andb]; [now left |].
  destruct (Js.includes f "/vendor/seccomp/") eqn:Ev; cbn [negb]; [now left |].
  right. exists f. apply String.eqb_neq in Ef. unfold filterCleaned.
  cbn [world deleteFilter].
  destruct (cleanupSeccompFilter (world st) f); cbn; now repeat split.
Qed.

(** The state a call of the compiler ends in, whatever its outcome. *)
Lemma plan_state params (st : Proc W) :
  wrapCommandWithSandboxLinux_plan params st = (Ok (Unchanged (command params)), st)
  \/ exists o st1 st2,
       seccompStage params st = (Ok o, st1)
       /\ compileKeeps st1 st2
       /\ ((snd (wrapCommandWithSandboxLinux_plan params st) = st2
            /\ forall e, fst (wrapCommandWithSandboxLinux_plan params st) <> Throw e)
           \/ exists e,
                compileStages params o st1 = (Throw e, st2)
                /\ wrapCommandWithSandboxLinux_plan params st
                   = (Throw e, snd (cleanupOnError o e st2))).
Proof.
  remember (wrapCommandWithSandboxLinux_plan params st) as r eqn:Er.
  unfold wrapCommandWithSandboxLinux_plan in Er.
  destruct (negb _ && negb _ && negb _); [left; exact Er |].
  right. destruct (seccompStage_total params st) as (o & st1 & Hs).
  pose proof (compileStages_keeps params o st1) as Hk.
  unfold bind at 1 in Er. rewrite Hs in Er. unfold bind, tryCatch in Er.
  destruct (compileStages params o st1) as [[c | e |] st2] eqn:Ec; cbn [snd] in Hk;
    exists o, st1, st2; (split; [exact Hs |]); (split; [exact Hk |]).
  - left. subst r. cbn. split; [reflexivity | discriminate].
  - right. exists e. split; [exact Ec |].
    pose proof (cleanupOnError_rethrows o e st2) as Hre.
    destruct (cleanupOnError o e st2) as [r3 st3]. cbn [fst snd] in *. now subst.
  - left. subst r. cbn. split; [reflexivity | discriminate].
Qed.

Lemma wrap_state params (st : Proc W) :
  snd (wrapCommandWithSandboxLinux params st)
  = snd (wrapCommandWithSandboxLinux_plan params st)
  /\ forall e, fst (wrapCommandWithSandboxLinux params st) = Throw e <->
               fst (wrapCommandWithSandboxLinux_plan params st) = Throw e.
Proof.
  unfold wrapCommandWithSandboxLinux, bind, ret.
  destruct (wrapCommandWithSandboxLinux_plan params st) as [[r | e |] st1]; cbn;
    (split; [reflexivity |]); intro e'; split; intro H; try discriminate; congruence.
Qed.

Lemma plan_handlerKept params (st : Proc W) :
  handlerKept st (snd (wrapCommandWithSandboxLinux_plan params st)).
Proof.
  destruct (plan_state params st) as [-> | (o & st1 & st2 & Hs & Hk & Hend)];
    [apply handlerKept_refl |].
  apply seccompStage_registers in Hs as (H1 & _ & Ho).
  destruct Hk as (H2 & _ & _).
  pose proof (handlerKept_trans _ _ _ H1 H2) as H12.
  destruct Hend as [[-> _] | (e & _ & ->)]; [exact H12 |]. cbn [snd].
  destruct (cleanupOnError_state o e st2) as [-> | (f & -> & _ & Hv & _ & _ & Hflag & _)];
    [exact H12 |].
  destruct Ho as [_ Ho]. rewrite Hv in Ho. destruct Ho as [_ Hreg].
  destruct H2 as [H2 _]. specialize (H2 Hreg).
  split; [intros _ | left]; now rewrite Hflag.
Qed.

Lemma handlerKept_covered (st st' : Proc W) :
  handlerKept st st' -> registriesCovered st -> registriesCovered st'.
Proof.
  intros [H1 H2] Hc. unfold registriesCovered in *.
  destruct H2 as [H2 | [Hm Hf]]; [now right |].
  destruct Hc as [[Hm0 Hf0] | Hc]; [left; split; congruence | right; auto].
Qed.

(** X15. Whatever the outcome of a call (a command, a throw, or a loop
    that does not end), [wrapCommandWithSandboxLinux] never uninstalls the
    exit handler and changes the registries only once it is installed; so
    a process whose registered resources are all covered by the handler
    stays so across the compiler, the reaper and the exit handler. *)
Theorem registries_stay_covered params (st : Proc W) :
  registriesCovered st ->
  handlerKept st (snd (wrapCommandWithSandboxLinux params st))
  /\ registriesCovered (snd (wrapCommandWithSandboxLinux params st))
  /\ registriesCovered (snd (cleanupBwrapMountPoints st))
  /\ registriesCovered (snd (processExit st)).
Proof.
  intro Hc. destruct (wrap_state params st) as [-> _].
  pose proof (plan_handlerKept params st) as Hk.
  split; [exact Hk |]. split; [eapply handlerKept_covered; eassumption |]. split.
  - rewrite cleanupBwrapMountPoints_spec. cbn [snd]. unfold registriesCovered in *.
    cbn. destruct Hc as [[_ Hf] | Hc]; [left; now split | now right].
  - unfold processExit. destruct (exitHandlerRegistered st) eqn:E; [| exact Hc].
    rewrite exitHandler_spec. right. exact E.
Qed.

(** X16. When the compilation throws after the seccomp block has
    registered a filter generated at run time, the filter is no longer in
    the registry when the error reaches the caller, its clean-up has been
    attempted on the host, every other registered filter and every
    recorded mount point is still registered, and the exit handler is
    installed. *)
Lemma plan_throw params (st : Proc W) e st' :
  wrapCommandWithSandboxLinux_plan params st = (Throw e, st') ->
  exists o st1 st2,
    seccompStage params st = (Ok o, st1)
    /\ compileKeeps st1 st2
    /\ compileStages params o st1 = (Throw e, st2)
    /\ st' = snd (cleanupOnError o e st2).
Proof.
  intro H.
  destruct (plan_state params st) as [Hsame | (o & st1 & st2 & Hs & Hk & Hend)].
  - rewrite Hsame in H. discriminate.
  - exists o, st1, st2. split; [exact Hs |]. split; [exact Hk |].
    destruct Hend as [[_ Hno] | (e0 & Hc & Hp)].
    + exfalso. apply (Hno e). now rewrite H.
    + rewrite Hp in H. injection H as -> <-. now split.
Qed.

Theorem failed_compile_drops_filter params (st : Proc W) e st' f st1 :
  wrapCommandWithSandboxLinux params st = (Throw e, st') ->
  seccompStage params st = (Ok (Some f), st1) ->
  Js.includes f "/vendor/seccomp/" = false ->
  NoDup (generatedSeccompFilters st) ->
  ~ In f (generatedSeccompFilters st')
  /\ (forall g, g <> f -> In g (generatedSeccompFilters st) ->
                In g (generatedSeccompFilters st'))
  /\ incl (bwrapMountPoints st) (bwrapMountPoints st')
  /\ exitHandlerRegistered st' = true
  /\ exists st2, compileStages params (Some f) st1 = (Throw e, st2)
                 /\ world st' = filterCleaned (world st2) f.
Proof.
  intros H Hs Hv Hnd.
  assert (Hplan : wrapCommandWithSandboxLinux_plan params st = (Throw e, st')).
  { unfold wrapCommandWithSandboxLinux in H.
    apply bind_throw in H as [H | (r & s1 & _ & H)]; [exact H | discriminate]. }
  destruct (plan_throw _ _ _ _ Hplan) as (o & s1 & st2 & Hs' & Hk & Hc & Hst).
  rewrite Hs in Hs'. injection Hs' as <- <-.
  apply seccompStage_registers in Hs as (_ & Hm1 & Hne & Ho). rewrite Hv in Ho.
  destruct Ho as [Hf1 Hflag1].
  destruct Hk as ((Hmono & _) & Hf2 & Hm2).
  assert (Hnd1 : NoDup (setAdd f (generatedSeccompFilters st)))
    by (apply set_add_nodup; exact Hnd).
  destruct (cleanupOnError_state (Some f) e st2)
    as [Hsame | (f' & E & _ & _ & Hm3 & Hf3 & Hflag3 & Hw3)].
  { exfalso. unfold cleanupOnError in Hsame.
    apply String.eqb_neq in Hne. rewrite Hne, Hv in Hsame. cbn [negb andb] in Hsame.
    assert (Hlen : generatedSeccompFilters (snd
               (match cleanupSeccompFilter (world (deleteFilter f st2)) f with
                | Some w' => (@Throw Composite e, setWorld w' (deleteFilter f st2))
                | None => (Throw e, deleteFilter f st2)
                end)) = setDelete f (generatedSeccompFilters st2))
      by (destruct (cleanupSeccompFilter _ _); reflexivity).
    rewrite Hsame, Hf2, Hf1 in Hlen.
    assert (Hin : In f (setAdd f (generatedSeccompFilters st))) by apply setAdd_in.
    rewrite Hlen in Hin.
    apply (set_remove_2 string_dec) in Hin; [congruence | exact Hnd1]. }
  injection E as <-. subst st'.
  rewrite Hf3, Hf2, Hf1, Hm3, Hflag3.
  split; [| split; [| split; [| split]]].
  - intro Hin. apply (set_remove_2 string_dec) in Hin; [congruence | exact Hnd1].
  - intros g Hg Hin. apply set_remove_3; [| exact Hg]. now apply setAdd_keeps.
  - rewrite <- Hm1. exact Hm2.
  - auto.
  - exists st2. now split.
Qed.

(** ** Termination *)

Lemma bind_converges {A B} (m : M W A) (k : A -> M W B) (st : Proc W) :
  fst (m st) <> Diverge ->
  (forall a st1, fst (k a st1) <> Diverge) ->
  fst (bind m k st) <> Diverge.
Proof.
  intros Hm Hk. unfold bind. destruct (m st) as [[a | e |] st1]; cbn [fst] in *.
  - apply Hk.
  - discriminate.
  - exfalso. now apply Hm.
Qed.

Section Absolute.

Hypothesis normalized_absolute :
  forall (w : W) p, Path.isAbsolute (normalizePathForSandbox w p) = true.

Lemma denyStep_converges roots args p (st : Proc W) :
  fst (denyStep roots args p st) <> Diverge.
Proof.
  unfold denyStep. cbv zeta.
  destruct (Js.startsWith _ "/dev/"); [discriminate |].
  destruct (findSymlinkInPath _ _ _); [discriminate |].
  destruct (negb (existsSync _ _)).
  2:{ destruct (isWithin _ _); discriminate. }
  destruct (hasFileAncestor _ _); [discriminate |].
  destruct (nearestExistingAncestor_absolute (world st)
              (normalizePathForSandbox (world st) p) (normalized_absolute _ _))
    as [a ->].
  destruct (ancestorIsWithinAllowedPath _ _ _); [| discriminate].
  destruct (negb (_ =? _)); [| discriminate].
  destruct (mkdtempSync _ _) as [[d w'] |]; discriminate.
Qed.

Lemma denyLoop_converges roots denyPaths : forall args (st : Proc W),
  fst (denyLoop roots denyPaths args st) <> Diverge.
Proof.
  induction denyPaths as [| p rest IH]; intros args st; cbn [denyLoop].
  - discriminate.
  - apply bind_converges; [apply denyStep_converges | intros; apply IH].
Qed.

Lemma generateFilesystemArgs_converges rc wc rg depth git (st : Proc W) :
  fst (generateFilesystemArgs rc wc rg depth git st) <> Diverge.
Proof.
  unfold generateFilesystemArgs. apply bind_converges.
  - unfold writeStage. destruct wc as [wc |]; [| discriminate]. cbv zeta.
    apply bind_converges; [apply denyLoop_converges | discriminate].
  - intros written st1. rewrite readLoop_spec. discriminate.
Qed.

Lemma compileStages_converges params o (st : Proc W) :
  fst (compileStages params o st) <> Diverge.
Proof.
  unfold compileStages. apply bind_converges.
  - unfold networkStage.
    destruct (needsNetworkRestriction params); [| discriminate].
    destruct (bridgeRequested params); [| discriminate]. cbv zeta.
    destruct (negb (existsSync _ _)); [discriminate |].
    destruct (negb (existsSync _ _)); discriminate.
  - intros net st1. apply bind_converges; [apply generateFilesystemArgs_converges |].
    intros fs st2. cbv zeta.
    destruct (whichSync _ _) as [shell |]; [| discriminate].
    destruct (shell =? EmptyString); [discriminate |].
    apply bind_converges; [| discriminate].
    destruct (payloadStage_cases params o shell st2) as [(pl & -> & _) | [-> _]];
      discriminate.
Qed.

(** X22. When the normalizer answers absolute paths, as a resolution
    against the working directory does, the ancestor loop of the deny
    stage ends, and so does the compiler: [wrapCommandWithSandboxLinux]
    returns a command or throws, and [generateFilesystemArgs] returns a
    vector or throws for the temporary directory it could not create, for
    every policy and every host. *)
Theorem compilation_terminates params rc wc rg depth git (st : Proc W) :
  ((exists r, fst (wrapCommandWithSandboxLinux params st) = Ok r)
   \/ (exists e, fst (wrapCommandWithSandboxLinux params st) = Throw e))
  /\ ((exists args, fst (generateFilesystemArgs rc wc rg depth git st) = Ok args)
      \/ fst (generateFilesystemArgs rc wc rg depth git st)
         = Throw (HostFailure "mkdtempSync")).
Proof.
  split.
  - assert (H : fst (wrapCommandWithSandboxLinux params st) <> Diverge).
    { unfold wrapCommandWithSandboxLinux. apply bind_converges; [| discriminate].
      unfold wrapCommandWithSandboxLinux_plan.
      destruct (negb _ && negb _ && negb _); [discriminate |].
      apply bind_converges.
      - destruct (seccompStage_total params st) as (o & st1 & ->). discriminate.
      - intros o st1. apply bind_converges; [| discriminate].
        unfold tryCatch.
        pose proof (compileStages_converges params o st1) as Hc.
        destruct (compileStages params o st1) as [[c | e |] st2]; cbn [fst] in *;
          [discriminate | | exact Hc].
        rewrite cleanupOnError_rethrows. discriminate. }
    destruct (fst (wrapCommandWithSandboxLinux params st)) as [r | e |];
      [left; now exists r | right; now exists e | congruence].
  - pose proof (generateFilesystemArgs_converges rc wc rg depth git st) as H.
    destruct (generateFilesystemArgs rc wc rg depth git st) as [[args | e |] st'] eqn:E;
      cbn [fst] in *; [left; now exists args | right | congruence].
    now rewrite (generateFilesystemArgs_throw _ _ _ _ _ _ _ _ E).
Qed.

End Absolute.

(** ** The deny stage on a path that exists *)

(** X23. A deny path that exists, is not under [/dev/] and has no link
    component inside the writable area is bound read-only onto itself when
    it lies within an allowed write root, and the bind is still there when
    the loop ends; outside every allowed root it yields nothing, the
    read-only root covering it already.  A deny path with a link component
    inside the writable area has that link masked with [/dev/null]
    instead, and a path under [/dev/] is passed over. *)
Theorem existing_deny_path_is_bound roots args (st : Proc W) (p n : string) :
  normalizePathForSandbox (world st) p = n ->
  (Js.startsWith n "/dev/" = true -> denyStep roots args p st = (Ok args, st))
  /\ (Js.startsWith n "/dev/" = false ->
      (forall s,
          findSymlinkInPath (world st) n roots = Some s ->
          denyStep roots args p st = (Ok (args ++ [RoBind "/dev/null" s]), st))
      /\ (findSymlinkInPath (world st) n roots = None ->
          existsSync (world st) n = true ->
          (isWithin roots n = true ->
           denyStep roots args p st = (Ok (args ++ [RoBind n n]), st)
           /\ forall rest argsF stF,
                denyLoop roots rest (args ++ [RoBind n n]) st = (Ok argsF, stF) ->
                In (RoBind n n) argsF)
          /\ (isWithin roots n = false -> denyStep roots args p st = (Ok args, st)))).
Proof.
  intros <-. unfold denyStep. cbv zeta. split.
  - now intros ->.
  - intros ->. split.
    + now intros s ->.
    + intros -> ->. cbn [negb]. split.
      * intros ->. split; [reflexivity |].
        intros rest argsF stF H.
        apply (denyLoop_keeps _ _ _ _ _ _
                 (RoBind (normalizePathForSandbox (world st) p)
                         (normalizePathForSandbox (world st) p)) EmptyString H).
        apply in_or_app. right. now left.
      * now intros ->.
Qed.

End Wrapper.

(** * Dependencies and the network bridge *)

Example bridge_ready :
  initializeLinuxNetworkBridge Machine.ready 3129 1081
  = (BridgeReady (mkBridge Machine.httpSocket Machine.socksSocket 4242 4243 3129 1081),
     Machine.mkState
       (Posix.setNodes [("/tmp", Posix.Dir); (Machine.httpSocket, Posix.File 0);
                        (Machine.socksSocket, Posix.File 0)] Machine.plainDisk)
       [4242%Z; 4243%Z] [] []).
Proof. vm_compute. reflexivity. Qed.

Example bridge_socks_fails :
  initializeLinuxNetworkBridge Machine.socksFails 3129 1081
  = (BridgeFailed SocksBridgeStartFailed,
     Machine.mkState Machine.plainDisk [] [None] []).
Proof. vm_compute. reflexivity. Qed.

Example bridge_stuck :
  initializeLinuxNetworkBridge Machine.stuck 3129 1081
  = (BridgeFailed BridgeSocketsTimeout, Machine.mkState Machine.plainDisk [] [] []).
Proof. vm_compute. reflexivity. Qed.

Example bridge_half_dead :
  initializeLinuxNetworkBridge Machine.halfDead 3129 1081
  = (BridgeFailed BridgeDied, Machine.mkState Machine.plainDisk [4242%Z] [] []).
Proof. vm_compute. reflexivity. Qed.

(** ** [splitEnv], [trim] and [parseInt] *)

Lemma index_eq_append (k v : string) :
  Js.includes k "=" = false ->
  String.index 0 "=" (k +++ "=" +++ v) = Some (String.length k).
Proof.
  unfold Js.includes. induction k as [| c k IH]; intro H.
  - now destruct v.
  - cbn [String.append String.index String.prefix String.length] in *.
    destruct (ascii_dec "=" c) as [E | E].
    + destruct k; discriminate.
    + destruct (String.index 0 "=" k) eqn:Ek; [discriminate |].
      now rewrite (IH eq_refl).
Qed.

Lemma substring_head (k rest : string) :
  String.substring 0 (String.length k) (k +++ rest) = k.
Proof. induction k as [| c k IH]; cbn; [now destruct rest | now rewrite IH]. Qed.

Lemma substring_whole (s : string) : String.substring 0 (String.length s) s = s.
Proof. induction s as [| c s IH]; cbn; [reflexivity | now rewrite IH]. Qed.

Lemma substring_tail (k rest : string) m :
  String.substring (String.length k) m (k +++ rest) = String.substring 0 m rest.
Proof. induction k as [| c k IH]; cbn; [reflexivity | exact IH]. Qed.

(** X17. Splitting an environment assignment at its first [=] gives back
    the name and the value, whatever further [=] the value holds: the
    variable given to the sandbox is the one the proxy configuration
    names. *)
Theorem splitEnv_round_trip (k v : string) :
  Js.includes k "=" = false ->
  splitEnv (k +++ "=" +++ v) = (k, v).
Proof.
  intro H. unfold splitEnv. rewrite (index_eq_append k v H).
  rewrite substring_head. f_equal.
  replace (String.length k + 1) with (String.length (k +++ "="))
    by (rewrite length_append; reflexivity).
  replace (k +++ "=" +++ v) with ((k +++ "=") +++ v)
    by (clear; induction k as [| c k IH]; cbn; [reflexivity | now rewrite IH]).
  rewrite substring_tail, length_append.
  replace (String.length (k +++ "=") + String.length v - String.length (k +++ "="))
    with (String.length v) by lia.
  apply substring_whole.
Qed.

Lemma splitEnv_round_trip_witness :
  splitEnv "NO_PROXY=localhost,127.0.0.1" = ("NO_PROXY", "localhost,127.0.0.1")
  /\ splitEnv "GIT_SSH_COMMAND=ssh -o ProxyCommand='socat - PROXY:localhost:%h:%p'"
     = ("GIT_SSH_COMMAND", "ssh -o ProxyCommand='socat - PROXY:localhost:%h:%p'").
Proof.
  split.
  - apply (splitEnv_round_trip "NO_PROXY" "localhost,127.0.0.1"). reflexivity.
  - apply (splitEnv_round_trip "GIT_SSH_COMMAND"
             "ssh -o ProxyCommand='socat - PROXY:localhost:%h:%p'").
    reflexivity.
Defined.





Section BridgeFacts.

Context {W : Type} {host : Host W} {sib : Siblings W} {procs : Processes W}.

(** X18. [checkLinuxDependencies] and [getLinuxDependencyStatus] agree:
    the check reports no error exactly when the status finds both the
    sandbox tool and the relay tool, missing seccomp support is never an
    error but one warning, and the messages come in a fixed order. *)
Theorem dependency_check_agrees (w : W) (seccompConfig : option SeccompConfig) :
  let status := getLinuxDependencyStatus w seccompConfig in
  let check := checkLinuxDependencies w seccompConfig in
  (errors check = [] <-> hasBwrap status = true /\ hasSocat status = true)
  /\ (warnings check = [] <->
      hasSeccompBpf status = true /\ hasSeccompApply status = true)
  /\ (In "bubblewrap (bwrap) not installed" (errors check) <-> hasBwrap status = false)
  /\ (In "socat not installed" (errors check) <-> hasSocat status = false)
  /\ length (errors check) <= 2 /\ length (warnings check) <= 1
  /\ forall pre post,
       errors check = pre ++ "socat not installed" :: post -> post = [].
Proof.
  unfold getLinuxDependencyStatus, checkLinuxDependencies.
  cbn [hasBwrap hasSocat hasSeccompBpf hasSeccompApply errors warnings]. cbv zeta.
  destruct (notNull (whichSync w "bwrap")), (notNull (whichSync w "socat")),
    (notNull (getPreGeneratedBpfPath w (bpfPathOf seccompConfig))),
    (notNull (getApplySeccompBinaryPath w (applyPathOf seccompConfig)));
    cbn [negb orb app length];
    (split; [split; [intro H; try discriminate H; now split
                    | intros [H1 H2]; try discriminate; reflexivity] |]);
    (split; [split; [intro H; try discriminate H; now split
                    | intros [H1 H2]; try discriminate; reflexivity] |]);
    (split; [split; [intro H; repeat (destruct H as [H | H]; try discriminate H);
                     try destruct H; reflexivity
                    | intro H; try discriminate H; cbn; auto] |]);
    (split; [split; [intro H; repeat (destruct H as [H | H]; try discriminate H);
                     try destruct H; reflexivity
                    | intro H; try discriminate H; cbn; auto] |]);
    (split; [lia |]); (split; [lia |]);
    intros pre post E;
    repeat (destruct pre as [| ? pre]; cbn in E; try discriminate E);
    congruence.
Qed.

(** ** The relays *)

Lemma spawnDetachedSocat_ok (w : W) socatArgs pid w' :
  spawnDetachedSocat w socatArgs = (Some pid, w') ->
  (0 < pid)%Z
  /\ exists stdout,
       execSync w (quote ("socat" :: socatArgs) +++ " &" +++ newline +++ "echo $!")
       = Some (stdout, w')
       /\ JsText.parseInt10 (JsText.trim stdout) = Some pid.
Proof.
  unfold spawnDetachedSocat. cbv zeta.
  destruct (execSync w _) as [[stdout w1] |]; [| discriminate].
  destruct (JsText.parseInt10 (JsText.trim stdout)) as [p |] eqn:Ep; [| discriminate].
  destruct (p <=? 0)%Z eqn:El; [discriminate |].
  intro H. injection H as <- <-. apply Z.leb_gt in El.
  split; [exact El | now exists stdout].
Qed.


Lemma waited_bound k : k <= 9 -> waited 0 k <= 4500.
Proof.
  intro H. do 10 (destruct k as [| k]; [cbn; lia |]). lia.
Qed.

(** The wait loop, by the turn [i + k] at which it is left. *)
Lemma waitForSockets_spec http socks hp sp : forall remaining i (w : W),
  i + remaining = maxAttempts ->
  0 < remaining ->
  exists k,
    i + k <= 9
    /\ (forall j, j < k ->
          isProcessAlive (afterWaits w i j) hp = true
          /\ isProcessAlive (afterWaits w i j) sp = true
          /\ existsSync (afterWaits w i j) http && existsSync (afterWaits w i j) socks
             = false)
    /\ ((waitForSockets remaining i http socks hp sp w
         = (Some BridgeDied, afterWaits w i k)
         /\ (isProcessAlive (afterWaits w i k) hp = false
             \/ isProcessAlive (afterWaits w i k) sp = false))
        \/ (waitForSockets remaining i http socks hp sp w = (None, afterWaits w i k)
            /\ isProcessAlive (afterWaits w i k) hp = true
            /\ isProcessAlive (afterWaits w i k) sp = true
            /\ existsSync (afterWaits w i k) http = true
            /\ existsSync (afterWaits w i k) socks = true)
        \/ (waitForSockets remaining i http socks hp sp w
            = (Some BridgeSocketsTimeout,
               killQuietly sp (killQuietly hp (afterWaits w i k)))
            /\ i + k = 9
            /\ isProcessAlive (afterWaits w i k) hp = true
            /\ isProcessAlive (afterWaits w i k) sp = true
            /\ existsSync (afterWaits w i k) http && existsSync (afterWaits w i k) socks
               = false)).
Proof.
  unfold maxAttempts.
  induction remaining as [| r IH]; intros i w Hsum Hpos; [lia |].
  cbn [waitForSockets].
  destruct (isProcessAlive w hp) eqn:Ah; cbn [negb orb].
  2:{ exists 0. split; [lia |]. split; [intros j Hj; lia |]. left. cbn [afterWaits].
      split; [reflexivity | now left]. }
  destruct (isProcessAlive w sp) eqn:As; cbn [negb].
  2:{ exists 0. split; [lia |]. split; [intros j Hj; lia |]. left. cbn [afterWaits].
      split; [reflexivity | now right]. }
  destruct (existsSync w http && existsSync w socks) eqn:Ex.
  { exists 0. split; [lia |]. split; [intros j Hj; lia |]. right. left. cbn [afterWaits].
    apply andb_true_iff in Ex as [E1 E2]. now repeat split. }
  unfold maxAttempts. change (10 - 1) with 9.
  destruct (i =? 9)%nat eqn:Ei.
  { apply Nat.eqb_eq in Ei. exists 0. split; [lia |]. split; [intros j Hj; lia |].
    right. right. cbn [afterWaits]. repeat split; auto. lia. }
  apply Nat.eqb_neq in Ei.
  destruct (IH (S i) (sleep w (100 + i * 100))) as (k & Hk & Hbefore & Hend); [lia | lia |].
  exists (S k). split; [lia |]. split.
  - intros [| j] Hj; cbn [afterWaits]; [now repeat split | apply Hbefore; lia].
  - cbn [afterWaits]. replace (i + S k) with (S i + k) by lia. exact Hend.
Qed.

(** X20. When [initializeLinuxNetworkBridge] returns a context, both
    socket files exist and both relay processes answer signal 0 in the
    final host; the two PIDs are positive and are the ones of the two
    relays started, first HTTP then SOCKS; the socket paths lie in the
    temporary directory and share the random identifier; the ports are the
    ones given; and since the relays were started the function has only
    waited, at most nine times and 4.5 seconds in all. *)
Theorem bridge_ready_means_ready (w : W) (httpProxyPort socksProxyPort : nat) ctx w' :
  initializeLinuxNetworkBridge w httpProxyPort socksProxyPort = (BridgeReady ctx, w') ->
  existsSync w' (bridgeHttpSocketPath ctx) = true
  /\ existsSync w' (bridgeSocksSocketPath ctx) = true
  /\ isProcessAlive w' (httpBridgePid ctx) = true
  /\ isProcessAlive w' (socksBridgePid ctx) = true
  /\ (0 < httpBridgePid ctx)%Z /\ (0 < socksBridgePid ctx)%Z
  /\ bridgeHttpProxyPort ctx = httpProxyPort
  /\ bridgeSocksProxyPort ctx = socksProxyPort
  /\ exists socketId w0 w1 w2 k,
       randomBytesHex w 8 = (socketId, w0)
       /\ bridgeHttpSocketPath ctx
          = Path.join (tmpdir w0) ("claude-http-" +++ socketId +++ ".sock")
       /\ bridgeSocksSocketPath ctx
          = Path.join (tmpdir w0) ("claude-socks-" +++ socketId +++ ".sock")
       /\ spawnDetachedSocat w0
            (socatArgsFor (bridgeHttpSocketPath ctx) httpProxyPort)
          = (Some (httpBridgePid ctx), w1)
       /\ spawnDetachedSocat w1
            (socatArgsFor (bridgeSocksSocketPath ctx) socksProxyPort)
          = (Some (socksBridgePid ctx), w2)
       /\ k <= 9 /\ waited 0 k <= 4500 /\ w' = afterWaits w2 0 k.
Proof.
  unfold initializeLinuxNetworkBridge.
  destruct (randomBytesHex w 8) as [socketId w0].
  destruct (spawnDetachedSocat w0 _) as [[hp |] w1] eqn:Eh; [| discriminate].
  destruct (spawnDetachedSocat w1 _) as [[sp |] w2] eqn:Es; [| discriminate].
  pose proof (spawnDetachedSocat_ok _ _ _ _ Eh) as [Hhp _].
  pose proof (spawnDetachedSocat_ok _ _ _ _ Es) as [Hsp _].
  match goal with
  | |- context [waitForSockets _ _ ?h ?s _ _ _] =>
      destruct (waitForSockets_spec h s hp sp maxAttempts 0 w2 eq_refl)
        as (k & Hk & _ & Hend); [unfold maxAttempts; lia |]
  end.
  destruct Hend as [[-> _] | [(-> & A1 & A2 & E1 & E2) | [-> _]]]; try discriminate.
  intro H. injection H as <- <-. cbn [bridgeHttpSocketPath bridgeSocksSocketPath
    httpBridgePid socksBridgePid bridgeHttpProxyPort bridgeSocksProxyPort].
  repeat (split; [assumption || reflexivity |]).
  exists socketId, w0, w1, w2, k.
  repeat (split; [assumption || reflexivity || lia |]).
  split; [apply waited_bound; lia | reflexivity].
Qed.

(** X21. How [initializeLinuxNetworkBridge] fails.  If the second relay
    cannot be started, the first is sent [SIGTERM]; if the sockets are
    still missing at the tenth check, both relays are sent [SIGTERM], the
    HTTP one first, after nine waits of 4.5 seconds in all, every earlier
    check having found both relays alive; but if a relay is found dead at
    a check, the function throws at once and sends no [SIGTERM], the final
    host being the one reached by waiting alone, so that a surviving relay
    is not stopped; and if the first relay cannot be started the host is
    left as the shell left it. *)
Theorem bridge_failure_cleanup (w : W) (httpProxyPort socksProxyPort : nat) e w' :
  initializeLinuxNetworkBridge w httpProxyPort socksProxyPort = (BridgeFailed e, w') ->
  exists socketId w0,
    randomBytesHex w 8 = (socketId, w0)
    /\ let http := Path.join (tmpdir w0) ("claude-http-" +++ socketId +++ ".sock") in
       let socks := Path.join (tmpdir w0) ("claude-socks-" +++ socketId +++ ".sock") in
       match e with
       | HttpBridgeStartFailed =>
           spawnDetachedSocat w0 (socatArgsFor http httpProxyPort) = (None, w')
       | SocksBridgeStartFailed =>
           exists hp w1 w2,
             spawnDetachedSocat w0 (socatArgsFor http httpProxyPort) = (Some hp, w1)
             /\ spawnDetachedSocat w1 (socatArgsFor socks socksProxyPort) = (None, w2)
             /\ w' = killQuietly hp w2
       | BridgeDied =>
           exists hp sp w1 w2 k,
             spawnDetachedSocat w0 (socatArgsFor http httpProxyPort) = (Some hp, w1)
             /\ spawnDetachedSocat w1 (socatArgsFor socks socksProxyPort)
                = (Some sp, w2)
             /\ k <= 9 /\ w' = afterWaits w2 0 k
             /\ (isProcessAlive w' hp = false \/ isProcessAlive w' sp = false)
       | BridgeSocketsTimeout =>
           exists hp sp w1 w2,
             spawnDetachedSocat w0 (socatArgsFor http httpProxyPort) = (Some hp, w1)
             /\ spawnDetachedSocat w1 (socatArgsFor socks socksProxyPort)
                = (Some sp, w2)
             /\ w' = killQuietly sp (killQuietly hp (afterWaits w2 0 9))
             /\ waited 0 9 = 4500
             /\ forall j, j <= 9 ->
                  isProcessAlive (afterWaits w2 0 j) hp = true
                  /\ isProcessAlive (afterWaits w2 0 j) sp = true
                  /\ existsSync (afterWaits w2 0 j) http
                     && existsSync (afterWaits w2 0 j) socks = false
       end.
Proof.
  unfold initializeLinuxNetworkBridge.
  destruct (randomBytesHex w 8) as [socketId w0].
  intro H. exists socketId, w0. split; [reflexivity |]. cbv zeta.
  destruct (spawnDetachedSocat w0 _) as [[hp |] w1] eqn:Eh.
  2:{ injection H as <- <-. reflexivity. }
  destruct (spawnDetachedSocat w1 _) as [[sp |] w2] eqn:Es.
  2:{ injection H as <- <-. now exists hp, w1, w2. }
  match type of H with
  | context [waitForSockets _ _ ?h ?s _ _ _] =>
      destruct (waitForSockets_spec h s hp sp maxAttempts 0 w2 eq_refl)
        as (k & Hk & Hbefore & Hend); [unfold maxAttempts; lia |]
  end.
  destruct Hend as [[E Hdead] | [(E & _) | (E & Hlast & A1 & A2 & Ex)]];
    rewrite E in H; [| discriminate |]; injection H as <- <-.
  - exists hp, sp, w1, w2, k. do 4 (split; [assumption || reflexivity || lia |]).
    exact Hdead.
  - cbn [Nat.add] in Hlast. subst k. exists hp, sp, w1, w2.
    do 4 (split; [assumption || reflexivity |]).
    intros j Hj. destruct (Nat.eq_dec j 9) as [-> | Hne]; [now repeat split |].
    apply Hbefore. lia.
Qed.

Lemma bridge_ready_sockets (w : W) (httpProxyPort socksProxyPort : nat) ctx w' :
  initializeLinuxNetworkBridge w httpProxyPort socksProxyPort = (BridgeReady ctx, w') ->
  existsSync w' (bridgeHttpSocketPath ctx) = true
  /\ existsSync w' (bridgeSocksSocketPath ctx) = true.
Proof.
  unfold initializeLinuxNetworkBridge.
  destruct (randomBytesHex w 8) as [socketId w0].
  destruct (spawnDetachedSocat w0 _) as [[hp |] w1]; [| discriminate].
  destruct (spawnDetachedSocat w1 _) as [[sp |] w2]; [| discriminate].
  match goal with
  | |- context [waitForSockets _ _ ?h ?s _ _ _] =>
      destruct (waitForSockets_spec h s hp sp maxAttempts 0 w2 eq_refl)
        as (k & _ & _ & Hend); [unfold maxAttempts; lia |]
  end.
  destruct Hend as [[-> _] | [(-> & _ & _ & E1 & E2) | [-> _]]]; try discriminate.
  intro H. injection H as <- <-. now split.
Qed.

Lemma seccompStage_world params (st : Proc W) o st1 :
  seccompStage params st = (Ok o, st1) ->
  world st1
  = if allowAllUnixSockets params then world st
    else snd (generateSeccompFilter (world st) (bpfPathOf (seccompConfig params))).
Proof.
  unfold seccompStage, bpfPathOf. destruct (allowAllUnixSockets params); cbn [negb].
  { intro H. now injection H as <- <-. }
  destruct (generateSeccompFilter _ _) as [g w1]. cbn [fst snd].
  destruct (negb (truthy g) || negb (truthy _)).
  { intro H. now injection H as <- <-. }
  destruct g as [f |]; [| intro H; now injection H as <- <-].
  destruct (negb (Js.includes f "/vendor/seccomp/")); intro H; injection H as <- <-;
    [now rewrite register_world | reflexivity].
Qed.

(** X24. The bridge and the compiler fit together: called in the host
    that [initializeLinuxNetworkBridge] left, with the two socket paths of
    the context it returned, [wrapCommandWithSandboxLinux] never throws
    for a missing bridge socket, provided the generation of the seccomp
    filter, where it runs, removes no file; what it can still throw is the
    missing shell, the temporary directory that cannot be created, or the
    missing apply binary. *)
Theorem fresh_bridge_is_accepted (w : W) (httpProxyPort socksProxyPort : nat) ctx w'
  params (st : Proc W) e st' :
  initializeLinuxNetworkBridge w httpProxyPort socksProxyPort = (BridgeReady ctx, w') ->
  world st = w' ->
  httpSocketPath params = Some (bridgeHttpSocketPath ctx) ->
  socksSocketPath params = Some (bridgeSocksSocketPath ctx) ->
  (allowAllUnixSockets params = true
   \/ forall q, existsSync w' q = true ->
                existsSync (snd (generateSeccompFilter w'
                                   (bpfPathOf (seccompConfig params)))) q = true) ->
  wrapCommandWithSandboxLinux params st = (Throw e, st') ->
  e = ShellNotFound (shellNameOf params)
  \/ e = HostFailure "mkdtempSync"
  \/ e = ApplySeccompNotFound.
Proof.
  intros Hinit Hw Hhttp Hsocks Hkeep H.
  apply bridge_ready_sockets in Hinit as [E1 E2].
  assert (Hplan : wrapCommandWithSandboxLinux_plan params st = (Throw e, st')).
  { unfold wrapCommandWithSandboxLinux in H.
    apply bind_throw in H as [H | (r & s1 & _ & H)]; [exact H | discriminate]. }
  destruct (plan_throw _ _ _ _ Hplan) as (o & st1 & st2 & Hs & _ & Hc & _).
  pose proof (seccompStage_world _ _ _ _ Hs) as Hw1. rewrite Hw in Hw1.
  assert (Hex : forall q, existsSync w' q = true -> existsSync (world st1) q = true).
  { intros q Hq. rewrite Hw1. destruct (allowAllUnixSockets params) eqn:Ea; [exact Hq |].
    destruct Hkeep as [Hkeep | Hkeep]; [discriminate | now apply Hkeep]. }
  apply compileStages_throw in Hc
    as [[-> _] | [(_ & _ & [[_ Hmiss] | [_ Hmiss]]) | [-> | [-> _]]]]; auto.
  - rewrite Hhttp in Hmiss. cbn [orDefault] in Hmiss.
    rewrite (Hex _ E1) in Hmiss. discriminate.
  - rewrite Hsocks in Hmiss. cbn [orDefault] in Hmiss.
    rewrite (Hex _ E2) in Hmiss. discriminate.
Qed.

End BridgeFacts.

(** * The further properties on the concrete hosts *)

Example ghost_run :
  Cases.ghostRun
  = (Ok [RoBind "/" "/"; Bind "/w" "/w";
         RoBind "/dev/null" "/w/settings.json";
         RoBind "/tmp/claude-empty-T0" "/w/a";
         Tmpfs "/usr/bin"; RoBind "/dev/null" "/usr/bin/bash"],
     mkProc (Posix.mkWorld (Scenario.baseNodes
                              ++ [("/srv", Posix.Dir); ("/w", Posix.Dir);
                                  ("/tmp/claude-empty-T0", Posix.Dir)])
               "/srv" "/tmp" 1 [("bash", "/usr/bin/bash")] (Some []) None None)
            ["/w/settings.json"; "/w/a"] [] true).
Proof. vm_compute. reflexivity. Qed.

Example runtime_filter_run :
  fst Cases.runtimeFilterRun = Throw (ShellNotFound "zsh")
  /\ generatedSeccompFilters (snd Cases.runtimeFilterRun) = []
  /\ existsSync Cases.runtimeFilterHost "/tmp/gen.bpf" = true
  /\ existsSync (world (snd Cases.runtimeFilterRun)) "/tmp/gen.bpf" = false
  /\ length (bwrapMountPoints (snd Cases.runtimeFilterRun)) = 13.
Proof. vm_compute. repeat split; reflexivity. Qed.

(** ** Instances of the properties with a premise *)

Lemma artifact_never_under_file_witness :
  existsSync Scenario.ghostHost "/w/a" = false
  /\ exists before after,
      prefixPaths (Js.split "/w/a/b") EmptyString = before ++ "/w/a" :: after
      /\ forall q, In q before ->
                   exists st, statSync Scenario.ghostHost q = Some st
                              /\ isFile st = false /\ isSymbolicLink st = false.
Proof.
  refine (artifact_never_under_file Scenario.ghostHost "/w/a/b" "/w/a" _ _);
    vm_compute; reflexivity.
Defined.

Lemma filesystem_vector_order_witness :
  exists denies reads,
    Cases.valueOr [] (fst Cases.ghostRun)
    = RoBind "/" "/"
      :: map (fun n => Bind n n)
           (keptPaths Scenario.ghostHost (allowOnly Scenario.ghostPolicy))
      ++ denies ++ reads
    /\ Forall (fun d => isRoBind d = true) denies
    /\ Forall (fun d => isReadDeny d = true) reads
    /\ length reads <= 3.
Proof.
  refine (filesystem_vector_order (Some Cases.readPolicy) Scenario.ghostPolicy
            defaultRipgrepConfig 3 false (Scenario.fresh Scenario.ghostHost)
            (Cases.valueOr [] (fst Cases.ghostRun)) (snd Cases.ghostRun) _).
  vm_compute. reflexivity.
Defined.

Lemma read_denies_are_hidden_witness :
  In (Tmpfs "/usr/bin") (Cases.valueOr [] (fst Cases.ghostRun))
  /\ In (RoBind "/dev/null" "/usr/bin/bash") (Cases.valueOr [] (fst Cases.ghostRun)).
Proof.
  assert (H : Cases.ghostRun
              = (Ok (Cases.valueOr [] (fst Cases.ghostRun)), snd Cases.ghostRun))
    by (vm_compute; reflexivity).
  destruct (read_denies_are_hidden _ _ _ _ _ _ _ _ H) as (Hall & _ & _).
  split.
  - refine (Hall "/usr/bin" (mkStats KDirectory 4096) _ _).
    + vm_compute. auto.
    + vm_compute. reflexivity.
  - refine (Hall "/usr/bin/bash" (mkStats KFile 1024) _ _).
    + vm_compute. auto.
    + vm_compute. reflexivity.
Defined.

Lemma deny_binds_are_accounted_witness :
  exists denies,
    Cases.valueOr [] (fst Cases.ghostRun)
    = RoBind "/" "/"
      :: map (fun n => Bind n n)
           (keptPaths Scenario.ghostHost (allowOnly Scenario.ghostPolicy))
      ++ denies
      ++ flat_map (readDirective (world (snd Cases.ghostRun)))
           (readDenyPathsOf (world (snd Cases.ghostRun)) (Some Cases.readPolicy))
    /\ forall d, In d denies ->
         exists src dst,
           d = RoBind src dst
           /\ (isWithin (keptPaths Scenario.ghostHost (allowOnly Scenario.ghostPolicy))
                 dst = true
               \/ In dst (bwrapMountPoints (snd Cases.ghostRun))).
Proof.
  refine (deny_binds_are_accounted (Some Cases.readPolicy) Scenario.ghostPolicy
            defaultRipgrepConfig 3 false (Scenario.fresh Scenario.ghostHost)
            (Cases.valueOr [] (fst Cases.ghostRun)) (snd Cases.ghostRun) _).
  vm_compute. reflexivity.
Defined.

Lemma writable_binds_are_vetted_witness :
  exists a, In a (allowOnly Scenario.evilPolicy)
            /\ "/tmp/T/user_area" = normalizePathForSandbox Scenario.evilHost a.
Proof.
  refine (proj1 (proj2 (writable_binds_are_vetted None Scenario.evilPolicy
            defaultRipgrepConfig 3 false (Scenario.fresh Scenario.evilHost)
            (Cases.valueOr [] (fst Cases.evilRun)) (snd Cases.evilRun)
            "/tmp/T/user_area" "/tmp/T/user_area" _ _))).
  - vm_compute. reflexivity.
  - vm_compute. auto.
Defined.

Lemma no_roots_no_denies_witness :
  generateFilesystemArgs None (Some Cases.onlyEvil) defaultRipgrepConfig 3 false
    (Scenario.fresh Scenario.evilHost)
  = (Ok [RoBind "/" "/"], Scenario.fresh Scenario.evilHost).
Proof.
  destruct (no_roots_no_denies None Cases.onlyEvil defaultRipgrepConfig 3 false
              (Scenario.fresh Scenario.evilHost)) as [H | H].
  - vm_compute. reflexivity.
  - exact H.
  - exfalso. vm_compute in H. discriminate H.
Defined.

Lemma sandbox_vector_frame_witness :
  exists net rest,
    bwrapArgs (Cases.compositeOf (fst Cases.bridgeRun))
    = [NewSession; DieWithParent] ++ net ++ [RoBind "/" "/"] ++ rest
      ++ [Dev "/dev"; UnsharePid] ++ [ProcFs "/proc"]
    /\ Forall (fun d => isNetwork d || isBind d = true) net
    /\ Forall (fun d => isMount d = true) rest.
Proof.
  refine (sandbox_vector_frame Scenario.bridgeParams (Scenario.fresh Scenario.bridgeHost)
            (Cases.compositeOf (fst Cases.bridgeRun)) (snd Cases.bridgeRun) _).
  vm_compute. reflexivity.
Defined.

Lemma network_isolation_witness :
  In UnshareNet (bwrapArgs (Cases.compositeOf (fst Cases.bridgeRun)))
  /\ usesBridge (payload (Cases.compositeOf (fst Cases.bridgeRun))) = true.
Proof.
  assert (H : Cases.bridgeRun
              = (Ok (Sandboxed (Cases.compositeOf (fst Cases.bridgeRun))),
                 snd Cases.bridgeRun))
    by (vm_compute; reflexivity).
  destruct (network_isolation _ _ _ _ H) as (Hnet & _ & Hb & _).
  split; [apply Hnet; reflexivity | exact Hb].
Defined.

Lemma seccomp_payload_witness :
  exists o st1,
    seccompStage Scenario.bridgeParams (Scenario.fresh Scenario.bridgeHost) = (Ok o, st1)
    /\ appliesSeccomp (payload (Cases.compositeOf (fst Cases.bridgeRun))) = truthy o.
Proof.
  assert (H : Cases.bridgeRun
              = (Ok (Sandboxed (Cases.compositeOf (fst Cases.bridgeRun))),
                 snd Cases.bridgeRun))
    by (vm_compute; reflexivity).
  destruct (seccomp_payload _ _ _ _ H) as (o & st1 & Hs & Ha & _).
  now exists o, st1.
Defined.

Lemma nested_stage_vector_witness :
  exists st1,
    seccompStage Scenario.bridgeParams (Scenario.fresh Scenario.bridgeHost)
    = (Ok (Some "/opt/srt/vendor/seccomp/x64/unix-block.bpf"), st1).
Proof.
  assert (H : Cases.bridgeRun
              = (Ok (Sandboxed (Cases.compositeOf (fst Cases.bridgeRun))),
                 snd Cases.bridgeRun))
    by (vm_compute; reflexivity).
  refine (proj2 (proj2 (proj2 (proj2
            (nested_stage_vector _ _ _ _
               (socatCommands "/tmp/http.sock" "/tmp/socks.sock")
               "/opt/srt/vendor/seccomp/x64/unix-block.bpf"
               (innerBwrapDirectives Scenario.bridgeHost
                  (Some ["/tmp/T/user_area"; "/tmp/T/user_area/evil"]))
               "/usr/bin/bash" "touch /tmp/T/user_area/ok" H _))))).
  vm_compute. reflexivity.
Defined.

Lemma registries_stay_covered_witness :
  registriesCovered (snd Cases.runtimeFilterRun)
  /\ registriesCovered (snd (processExit (snd Cases.runtimeFilterRun))).
Proof.
  assert (H0 : registriesCovered (Scenario.fresh Cases.runtimeFilterHost))
    by (left; split; reflexivity).
  pose proof (registries_stay_covered Cases.runtimeFilterParams _ H0) as (_ & H1 & _).
  split; [exact H1 |].
  exact (proj2 (proj2 (proj2 (registries_stay_covered Cases.runtimeFilterParams _ H1)))).
Defined.

Lemma failed_compile_drops_filter_witness :
  ~ In "/tmp/gen.bpf" (generatedSeccompFilters (snd Cases.runtimeFilterRun))
  /\ exitHandlerRegistered (snd Cases.runtimeFilterRun) = true.
Proof.
  assert (H : Cases.runtimeFilterRun
              = (Throw (ShellNotFound "zsh"), snd Cases.runtimeFilterRun))
    by (vm_compute; reflexivity).
  assert (Hs : seccompStage Cases.runtimeFilterParams
                 (Scenario.fresh Cases.runtimeFilterHost)
               = (Ok (Some "/tmp/gen.bpf"),
                  snd (seccompStage Cases.runtimeFilterParams
                         (Scenario.fresh Cases.runtimeFilterHost))))
    by (vm_compute; reflexivity).
  assert (Hv : Js.includes "/tmp/gen.bpf" "/vendor/seccomp/" = false)
    by (vm_compute; reflexivity).
  assert (Hn : NoDup (generatedSeccompFilters (Scenario.fresh Cases.runtimeFilterHost)))
    by constructor.
  destruct (failed_compile_drops_filter _ _ _ _ _ _ H Hs Hv Hn) as (H1 & _ & _ & H2 & _).
  now split.
Defined.

Lemma bridge_ready_means_ready_witness :
  existsSync (snd (initializeLinuxNetworkBridge Machine.ready 3129 1081))
    Machine.httpSocket = true
  /\ existsSync (snd (initializeLinuxNetworkBridge Machine.ready 3129 1081))
       Machine.socksSocket = true.
Proof.
  assert (H : initializeLinuxNetworkBridge Machine.ready 3129 1081
              = (BridgeReady (mkBridge Machine.httpSocket Machine.socksSocket
                                4242 4243 3129 1081),
                 snd (initializeLinuxNetworkBridge Machine.ready 3129 1081)))
    by (vm_compute; reflexivity).
  destruct (bridge_ready_means_ready _ _ _ _ _ H) as (H1 & H2 & _).
  now split.
Defined.

Lemma bridge_failure_cleanup_witness :
  exists socketId w0,
    randomBytesHex Machine.socksFails 8 = (socketId, w0)
    /\ exists hp w1 w2,
         spawnDetachedSocat w0
           (socatArgsFor (Path.join (tmpdir w0) ("claude-http-" +++ socketId +++ ".sock"))
              3129) = (Some hp, w1)
         /\ spawnDetachedSocat w1
              (socatArgsFor
                 (Path.join (tmpdir w0) ("claude-socks-" +++ socketId +++ ".sock")) 1081)
            = (None, w2)
         /\ snd (initializeLinuxNetworkBridge Machine.socksFails 3129 1081)
            = killQuietly hp w2.
Proof.
  refine (bridge_failure_cleanup Machine.socksFails 3129 1081 SocksBridgeStartFailed
            (snd (initializeLinuxNetworkBridge Machine.socksFails 3129 1081)) _).
  vm_compute. reflexivity.
Defined.


Lemma compilation_terminates_witness :
  exists r,
    fst (@wrapCommandWithSandboxLinux Posix.World Posix.host Cases.rootedSiblings
           Scenario.noSeccompParams (Scenario.fresh Scenario.ghostHost)) = Ok r.
Proof.
  assert (Habs : forall (w : Posix.World) p,
             Path.isAbsolute
               (@normalizePathForSandbox Posix.World Cases.rootedSiblings w p) = true).
  { intros w p. cbn. destruct (Path.isAbsolute p) eqn:E; [exact E | reflexivity]. }
  destruct (@compilation_terminates Posix.World Posix.host Cases.rootedSiblings Habs
              Scenario.noSeccompParams None None defaultRipgrepConfig 3 false
              (Scenario.fresh Scenario.ghostHost)) as [[H | [e H]] _].
  - exact H.
  - exfalso. vm_compute in H. discriminate H.
Defined.

Lemma existing_deny_path_is_bound_witness :
  denyStep ["/w"] [] "/w/real" (Scenario.fresh Scenario.linkHost)
  = (Ok [RoBind "/w/real" "/w/real"], Scenario.fresh Scenario.linkHost).
Proof.
  assert (Hn : normalizePathForSandbox (world (Scenario.fresh Scenario.linkHost))
                 "/w/real" = "/w/real") by (vm_compute; reflexivity).
  assert (Hd : Js.startsWith "/w/real" "/dev/" = false) by (vm_compute; reflexivity).
  assert (Hl : findSymlinkInPath (world (Scenario.fresh Scenario.linkHost))
                 "/w/real" ["/w"] = None) by (vm_compute; reflexivity).
  assert (He : existsSync (world (Scenario.fresh Scenario.linkHost)) "/w/real" = true)
    by (vm_compute; reflexivity).
  assert (Hw : isWithin ["/w"] "/w/real" = true) by (vm_compute; reflexivity).
  destruct (existing_deny_path_is_bound ["/w"] [] (Scenario.fresh Scenario.linkHost)
              "/w/real" "/w/real" Hn) as [_ H].
  destruct (H Hd) as [_ H2].
  destruct (H2 Hl He) as [H3 _].
  exact (proj1 (H3 Hw)).
Defined.

Lemma fresh_bridge_is_accepted_witness :
  ShellNotFound "bash" = ShellNotFound (shellNameOf Machine.bridgedParams)
  \/ ShellNotFound "bash" = HostFailure "mkdtempSync"
  \/ ShellNotFound "bash" = ApplySeccompNotFound.
Proof.
  assert (Hinit : initializeLinuxNetworkBridge Machine.ready 3129 1081
                  = (BridgeReady (mkBridge Machine.httpSocket Machine.socksSocket
                                    4242 4243 3129 1081),
                     snd (initializeLinuxNetworkBridge Machine.ready 3129 1081)))
    by (vm_compute; reflexivity).
  assert (Hrun : wrapCommandWithSandboxLinux Machine.bridgedParams
                   (mkProc (snd (initializeLinuxNetworkBridge Machine.ready 3129 1081))
                      [] [] false)
                 = (Throw (ShellNotFound "bash"),
                    snd (wrapCommandWithSandboxLinux Machine.bridgedParams
                           (mkProc (snd (initializeLinuxNetworkBridge
                                           Machine.ready 3129 1081)) [] [] false))))
    by (vm_compute; reflexivity).
  assert (Hw : world (mkProc (snd (initializeLinuxNetworkBridge Machine.ready 3129 1081))
                        [] [] false)
               = snd (initializeLinuxNetworkBridge Machine.ready 3129 1081))
    by reflexivity.
  assert (Hh : httpSocketPath Machine.bridgedParams = Some Machine.httpSocket)
    by reflexivity.
  assert (Hs : socksSocketPath Machine.bridgedParams = Some Machine.socksSocket)
    by reflexivity.
  assert (Ha : allowAllUnixSockets Machine.bridgedParams = true) by reflexivity.
  exact (fresh_bridge_is_accepted _ _ _ _ _ _ _ _ _
           Hinit Hw Hh Hs (or_introl Ha) Hrun).
Defined.
